(** * dart-score: the report driver of [src/index.js] and its output parsers

    A shallow embedding of the JavaScript program: strings are sequences of
    UTF-16 code units, the regular expressions are run by a backtracking
    matcher written after ECMAScript's continuation-passing semantics, and the
    console, [process.exit] and thrown exceptions are threaded through a small
    writer/exception monad. *)

From Stdlib Require Import String Ascii Bool Arith ZArith NArith Lia List.
Import ListNotations.

Set Warnings "-register-all".

(** ** JavaScript strings *)

(** A code unit of a JavaScript string. *)
Abbreviation char := N (only parsing).

(** A JavaScript string: its code units in order. *)
Abbreviation jsstring := (list N).

(** The code units of an ASCII literal of the source. *)
Definition lit (s : string) : jsstring :=
  map N_of_ascii (list_ascii_of_string s).

(** The double quote, which the literals below cannot hold. *)
Definition dquote : jsstring := [34%N].

Definition char_eqb (a b : char) : bool := N.eqb a b.

Fixpoint str_eqb (a b : jsstring) : bool :=
  match a, b with
  | [], [] => true
  | x :: a', y :: b' => char_eqb x y && str_eqb a' b'
  | _, _ => false
  end.

(** [s.startsWith(p)]. *)
Fixpoint startsWith (p s : jsstring) : bool :=
  match p, s with
  | [], _ => true
  | x :: p', y :: s' => char_eqb x y && startsWith p' s'
  | _ :: _, [] => false
  end.

(** [s.includes(p)]: [p] occurs at some position of [s]. *)
Fixpoint includes (s p : jsstring) : bool :=
  startsWith p s ||
  match s with
  | [] => false
  | _ :: s' => includes s' p
  end.

(** ECMAScript's LineTerminator code points: LF, CR, LS and PS. *)
Definition is_line_terminator (c : char) : bool :=
  (c =? 10)%N || (c =? 13)%N || (c =? 8232)%N || (c =? 8233)%N.

(** ECMAScript's WhiteSpace and LineTerminator code points, which
    [String.prototype.trim] strips and [parseInt] skips. *)
Definition is_white_space (c : char) : bool :=
  (c =? 9)%N || (c =? 11)%N || (c =? 12)%N || (c =? 32)%N || (c =? 160)%N ||
  (c =? 5760)%N || ((8192 <=? c)%N && (c <=? 8202)%N) || (c =? 8239)%N ||
  (c =? 8287)%N || (c =? 12288)%N || (c =? 65279)%N || is_line_terminator c.

(** [s.trimStart()]. *)
Fixpoint trimStart (s : jsstring) : jsstring :=
  match s with
  | c :: s' => if is_white_space c then trimStart s' else s
  | [] => []
  end.

(** [s.trimEnd()]. *)
Definition trimEnd (s : jsstring) : jsstring := rev (trimStart (rev s)).

(** [s.trim()]. *)
Definition trim (s : jsstring) : jsstring := trimEnd (trimStart s).

(** [s.split(sep)] for a separator of one code unit, as the source uses it:
    the pieces between the separators, the empty ones included. *)
Fixpoint split (sep : char) (s : jsstring) : list jsstring :=
  match s with
  | [] => [[]]
  | c :: s' =>
      if char_eqb c sep then [] :: split sep s'
      else match split sep s' with
           | piece :: pieces => (c :: piece) :: pieces
           | [] => [[c]]
           end
  end.

(** [pieces.join(sep)]. *)
Fixpoint join (sep : jsstring) (pieces : list jsstring) : jsstring :=
  match pieces with
  | [] => []
  | [p] => p
  | p :: rest => p ++ sep ++ join sep rest
  end.

(** ** JavaScript numbers

    A Number is an IEEE 754 double.  The program only counts: every number
    it adds, compares or prints is NaN, an infinity, or a double whose value
    is an integer, and these are the numbers kept here.  [Num z] stands for
    the double of value [z]; every integer up to 2^53 in absolute value is
    one, and beyond that only those with a significand of 53 bits.  The two
    zeros are one value: nothing in this program tells them apart. *)
Inductive number : Type :=
| NaN
| Inf (negative : bool)
| Num (z : Z).

(** 2^53: up to it, every integer is a double. *)
Definition two53 : Z := 9007199254740992.

(** The Number value for the integer [z]: the nearest double, the one with
    the even significand when two are as near, and an infinity when the
    nearest would be 2^1024 or beyond.  [e] is the weight of the last bit of
    the 53-bit significand [q], and [r] what is rounded away. *)
Definition double_of_Z (z : Z) : number :=
  let a := Z.abs z in
  if (a <=? two53)%Z then Num z
  else
    let e := (Z.log2 a - 52)%Z in
    let q := (a / 2 ^ e)%Z in
    let r := (a mod 2 ^ e)%Z in
    let half := (2 ^ (e - 1))%Z in
    let q' := if (half <? r)%Z || ((half =? r)%Z && Z.odd q) then (q + 1)%Z else q in
    let m := (q' * 2 ^ e)%Z in
    if (2 ^ 1024 <=? m)%Z then Inf (z <? 0)%Z else Num (Z.sgn z * m).

(** [a + b] on numbers: the exact sum, rounded. *)
Definition num_add (a b : number) : number :=
  match a, b with
  | Num x, Num y => double_of_Z (x + y)
  | Inf s, Num _ | Num _, Inf s => Inf s
  | Inf s, Inf t => if Bool.eqb s t then Inf s else NaN
  | _, _ => NaN
  end.

(** [a > b] on numbers: false as soon as one side is NaN. *)
Definition num_gt (a b : number) : bool :=
  match a, b with
  | Num x, Num y => (y <? x)%Z
  | Inf false, Num _ | Inf false, Inf true | Num _, Inf true => true
  | _, _ => false
  end.

Definition is_digit (c : char) : bool := (48 <=? c)%N && (c <=? 57)%N.

Definition digit_value (c : char) : Z := Z.of_N c - 48.

(** The number a run of decimal digits denotes. *)
Definition decimal_value (ds : jsstring) : Z :=
  fold_left (fun acc d => 10 * acc + digit_value d)%Z ds 0%Z.

Definition is_hex_digit (c : char) : bool :=
  is_digit c || ((97 <=? c)%N && (c <=? 102)%N) || ((65 <=? c)%N && (c <=? 70)%N).

Definition hex_digit_value (c : char) : Z :=
  if is_digit c then Z.of_N c - 48
  else if (97 <=? c)%N then Z.of_N c - 87 else Z.of_N c - 55.

(** The longest prefix of [s] whose code units satisfy [p]. *)
Fixpoint take_while (p : char -> bool) (s : jsstring) : jsstring :=
  match s with
  | c :: s' => if p c then c :: take_while p s' else []
  | [] => []
  end.

Fixpoint drop_while (p : char -> bool) (s : jsstring) : jsstring :=
  match s with
  | c :: s' => if p c then drop_while p s' else s
  | [] => []
  end.

(** [parseInt(s)] with no radix: leading white space is skipped, a sign is
    read, a [0x] prefix selects radix 16, and the longest run of digits is
    converted to the Number value for the integer it denotes, as Node
    computes it; NaN when that run is empty. *)
Definition parseInt (s : jsstring) : number :=
  let s1 := trimStart s in
  let sign := if startsWith (lit "-") s1 then (-1)%Z else 1%Z in
  let s2 := if startsWith (lit "-") s1 || startsWith (lit "+") s1 then tl s1 else s1 in
  if startsWith (lit "0x") s2 || startsWith (lit "0X") s2 then
    match take_while is_hex_digit (skipn 2 s2) with
    | [] => NaN
    | hs => double_of_Z (sign * fold_left (fun acc d => 16 * acc + hex_digit_value d)%Z hs 0%Z)
    end
  else
    match take_while is_digit s2 with
    | [] => NaN
    | ds => double_of_Z (sign * decimal_value ds)
    end.

(** [parseInt(v)] where [v] may be [undefined] (a capture that did not take
    part in the match): [parseInt("undefined")] is NaN. *)
Definition parseInt_opt (v : option jsstring) : number :=
  match v with
  | Some s => parseInt s
  | None => NaN
  end.

(** The decimal digits of a natural number, most significant first. *)
Fixpoint digits_of_pos (fuel : nat) (n : N) (acc : jsstring) : jsstring :=
  match fuel with
  | O => acc
  | S fuel' =>
      let acc' := (48 + n mod 10)%N :: acc in
      if (n <? 10)%N then acc' else digits_of_pos fuel' (n / 10)%N acc'
  end.

(** The decimal digits of [a], for [0 <= a]. *)
Definition decimal_digits (a : Z) : jsstring :=
  digits_of_pos (S (N.to_nat (N.log2 (Z.to_N a)))) (Z.to_N a) [].

(** The decimals [s * 10^(n - k)] of [k] digits next to [a] that convert to
    the double [a], each as [(s, n)]: of the multiples of [10^(n - k)], the
    one below [a] and the one above, for [n] the number of digits of [a] and
    one more. *)
Definition round_trips (a : Z) (k : Z) : list (Z * Z) :=
  let d := Z.of_nat (length (decimal_digits a)) in
  flat_map
    (fun n =>
       let p := (10 ^ (n - k))%Z in
       filter
         (fun sn =>
            let s := fst sn in
            (10 ^ (k - 1) <=? s)%Z && (s <? 10 ^ k)%Z &&
            match double_of_Z (s * p) with
            | Num b => (a =? b)%Z
            | _ => false
            end)
         [((a / p)%Z, n); ((a / p + 1)%Z, n)])
    [d; (d + 1)%Z].

(** Of two decimals [(s, n)] of [k] digits, the one nearer to [a], and the
    one with the even [s] when they are as near. *)
Definition nearer (a k : Z) (x y : Z * Z) : Z * Z :=
  let dist sn := Z.abs (fst sn * 10 ^ (snd sn - k) - a) in
  if (dist y <? dist x)%Z then y
  else if (dist y =? dist x)%Z && Z.even (fst y) then y
  else x.

(** The shortest decimal that converts to the double [a]: the least number
    of digits [k] for which there is one, tried from [k] upwards, and for
    that [k] the nearest; as [(s, n, k)]. *)
Fixpoint shortest_decimal (fuel : nat) (a k : Z) : Z * Z * Z :=
  match fuel with
  | O => (a, Z.of_nat (length (decimal_digits a)), Z.of_nat (length (decimal_digits a)))
  | S fuel' =>
      match round_trips a k with
      | x :: rest => (fold_left (nearer a k) rest x, k)
      | [] => shortest_decimal fuel' a (k + 1)
      end
  end.

(** Number::toString for a double [a] above 2^53, from the shortest decimal
    [s * 10^(n - k)] that converts to it: the digits of [s] followed by
    zeros when [n] is at most 21, and otherwise the first digit, a point and
    the other digits if any, then [e+] and [n - 1]. *)
Definition large_to_string (a : Z) : jsstring :=
  let '(s, n, k) := shortest_decimal (length (decimal_digits a)) a 1 in
  let digits := decimal_digits s in
  if (n <=? 21)%Z then digits ++ repeat 48%N (Z.to_nat (n - k))
  else
    firstn 1 digits
      ++ (if (k =? 1)%Z then [] else 46%N :: skipn 1 digits)
      ++ lit "e+" ++ decimal_digits (n - 1).

(** [String(n)], and [n] in a string concatenation: Number::toString with
    radix 10.  Up to 2^53 the shortest decimal that converts to an integer is
    the integer itself. *)
Definition number_to_string (n : number) : jsstring :=
  match n with
  | NaN => lit "NaN"
  | Inf negative => if negative then lit "-Infinity" else lit "Infinity"
  | Num z =>
      let a := Z.abs z in
      let d := if (a <=? two53)%Z then decimal_digits a else large_to_string a in
      if (z <? 0)%Z then 45%N :: d else d
  end.

(** ** Regular expressions

    The patterns of the source, as ECMAScript parses them.  None of them uses
    alternation, assertions or back-references. *)

(** A pattern character, the class [\d], or the wildcard [.]. *)
Inductive charclass : Type :=
| CChar (c : char)
| CDigit
| CDot.

Inductive regex : Type :=
| Empty
| Atom (cl : charclass)
| Seq (r1 r2 : regex)
| Star (r : regex)
| Plus (r : regex)
| Opt (r : regex)
| Group (i : nat) (r : regex).

(** The literal pattern text [s], one pattern character after the other. *)
Fixpoint literal (s : jsstring) : regex :=
  match s with
  | [] => Empty
  | c :: s' => Seq (Atom (CChar c)) (literal s')
  end.

(** The numbers of the capturing groups inside a pattern. *)
Fixpoint groups (r : regex) : list nat :=
  match r with
  | Empty | Atom _ => []
  | Seq r1 r2 => groups r1 ++ groups r2
  | Star r1 | Plus r1 | Opt r1 => groups r1
  | Group i r1 => i :: groups r1
  end.

(** A matcher state: the input that is left, and the captures so far (the
    latest capture of a group first). *)
Definition state : Type := jsstring * list (nat * jsstring).

Definition continuation : Type := state -> option state.

Definition capture (x : state) (i : nat) : option jsstring :=
  option_map snd (find (fun p => Nat.eqb (fst p) i) (snd x)).

(** The captures of the groups [gs] reset to undefined, as a quantifier does
    before each iteration of its atom. *)
Definition clear_captures (gs : list nat) (x : state) : state :=
  (fst x, filter (fun p => negb (existsb (Nat.eqb (fst p)) gs)) (snd x)).

(** Whether state [y] is further in the input than [x]. *)
Definition advanced (x y : state) : bool :=
  Nat.ltb (length (fst y)) (length (fst x)).

(** ECMAScript's RepeatMatcher for [min = 0] and no upper bound, greedy: one
    more iteration of the atom is tried first, an iteration that consumes
    nothing is refused, and the continuation is tried where the iterations
    stop.  [fuel] bounds the iterations; each one consumes input, so a fuel
    above the length of the input is never used up. *)
Fixpoint repeat_matcher (atom : state -> continuation -> option state)
  (gs : list nat) (fuel : nat) (x : state) (c : continuation) : option state :=
  match fuel with
  | O => c x
  | S fuel' =>
      match atom (clear_captures gs x)
              (fun y => if advanced x y then repeat_matcher atom gs fuel' y c else None) with
      | Some z => Some z
      | None => c x
      end
  end.

Section Matcher.

(** The [i] flag of the pattern. *)
Variable ignoreCase : bool.

(** ECMAScript's Canonicalize without the [u] flag: with [i], a code unit is
    replaced by its upper case when that is one code unit, except that a code
    unit of 128 or more is never mapped below 128.  Only the ASCII letters are
    mapped here: no code unit of 128 or more canonicalizes to the same value
    as an ASCII one, and every pattern character of the source is ASCII. *)
Definition canonicalize (ch : char) : char :=
  if ignoreCase && (97 <=? ch)%N && (ch <=? 122)%N then (ch - 32)%N else ch.

Definition class_mem (cl : charclass) (ch : char) : bool :=
  match cl with
  | CChar c => char_eqb (canonicalize ch) (canonicalize c)
  | CDigit => is_digit ch
  | CDot => negb (is_line_terminator ch)
  end.

(** The matcher of a pattern: [m r x c] matches [r] at state [x] and hands
    every end state to the continuation [c], in the order of priority, until
    [c] succeeds. *)
Fixpoint m (r : regex) (x : state) (c : continuation) {struct r} : option state :=
  match r with
  | Empty => c x
  | Atom cl =>
      match fst x with
      | ch :: rest => if class_mem cl ch then c (rest, snd x) else None
      | [] => None
      end
  | Seq r1 r2 => m r1 x (fun y => m r2 y c)
  | Star r1 => repeat_matcher (m r1) (groups r1) (S (length (fst x))) x c
  | Plus r1 =>
      m r1 (clear_captures (groups r1) x)
        (fun y => repeat_matcher (m r1) (groups r1) (S (length (fst y))) y c)
  | Opt r1 =>
      match m r1 (clear_captures (groups r1) x)
              (fun y => if advanced x y then c y else None) with
      | Some z => Some z
      | None => c x
      end
  | Group i r1 =>
      m r1 x (fun y =>
        c (fst y, (i, firstn (length (fst x) - length (fst y)) (fst x)) :: snd y))
  end.

(** A match of [r] that starts at the beginning of [s]: the end state. *)
Definition match_here (r : regex) (s : jsstring) : option state :=
  m r (s, []) (fun y => Some y).

(** What [RegExp.prototype.exec] finds. *)
Record MatchResult : Type := mkMatch {
  matched : jsstring;                 (* element 0 of the result array *)
  captured : list (nat * jsstring);   (* the capturing groups that took part *)
  after : jsstring                    (* the input from [lastIndex] on *)
}.

(** Element [i] of the result array; [None] is [undefined]. *)
Definition match_get (res : MatchResult) (i : nat) : option jsstring :=
  match i with
  | O => Some (matched res)
  | S _ => capture ([], captured res) i
  end.

(** RegExpBuiltinExec without the sticky flag: the first position of [s],
    from the left, at which the pattern matches. *)
Fixpoint exec (r : regex) (s : jsstring) : option MatchResult :=
  match match_here r s with
  | Some y => Some (mkMatch (firstn (length s - length (fst y)) s) (snd y) (fst y))
  | None =>
      match s with
      | [] => None
      | _ :: s' => exec r s'
      end
  end.

(** The matches a global pattern yields one after the other: after a match
    the search goes on where it ended, one code unit further when the match
    was empty. *)
Fixpoint match_all_from (fuel : nat) (r : regex) (s : jsstring) : list jsstring :=
  match fuel with
  | O => []
  | S fuel' =>
      match exec r s with
      | None => []
      | Some res =>
          matched res ::
          match matched res, after res with
          | [], [] => []
          | [], _ :: s' => match_all_from fuel' r s'
          | _ :: _, s' => match_all_from fuel' r s'
          end
      end
  end.

Definition match_all (r : regex) (s : jsstring) : list jsstring :=
  match_all_from (S (length s)) r s.

End Matcher.

(** A regular expression literal: its pattern and its [i] flag. *)
Record RegExp : Type := mkRegExp {
  pattern : regex;
  flag_i : bool
}.

(** [s.match(re)] for a pattern without the [g] flag: the first match with
    its captures, or [None] for [null]. *)
Definition str_match (s : jsstring) (re : RegExp) : option MatchResult :=
  exec (flag_i re) (pattern re) s.

(** [s.match(re)] for a pattern with the [g] flag: all the matched texts, or
    [None] for [null] when there is none. *)
Definition str_match_g (s : jsstring) (re : RegExp) : option (list jsstring) :=
  match match_all (flag_i re) (pattern re) s with
  | [] => None
  | ms => Some ms
  end.

(** ** The output parsers of [src/index.js] *)

(** The shape of the two counting patterns: [(\d+)] as group 1, then the
    rest of the pattern. *)
Definition counted (tail : regex) : regex :=
  Seq (Group 1 (Plus (Atom CDigit))) tail.

(** [ issues? found] *)
Definition issues_tail : regex :=
  Seq (literal (lit " issue")) (Seq (Opt (Atom (CChar 115%N))) (literal (lit " found"))).

(** [/(\d+) issues? found/gi] *)
Definition issues_found_re : RegExp := mkRegExp (counted issues_tail) true.

(** [/\d+/] *)
Definition digits_re : RegExp := mkRegExp (Plus (Atom CDigit)) false.

(** [getNumberOfAnalysisIssue(output)] *)
Definition getNumberOfAnalysisIssue (output : jsstring) : number :=
  let matches := str_match_g output issues_found_re in
  let totalIssues := Num 0 in
  match matches with
  | Some ms =>
      fold_left
        (fun totalIssues mt =>
           let countMatch := str_match mt digits_re in
           match countMatch with
           | Some cm => num_add totalIssues (parseInt_opt (match_get cm 0))
           | None => totalIssues
           end)
        ms totalIssues
  | None => totalIssues
  end.

(** The loop of [parseOutdatedPackagesOutput] over [lines]. *)
Fixpoint count_upgradable (lines : list jsstring) (upgradableCount : Z) : Z :=
  match lines with
  | [] => upgradableCount
  | l :: rest =>
      let line := trim l in
      if negb (includes line (lit "*")) then count_upgradable rest upgradableCount
      else if includes line (lit "*") && (0 <? length (trim line))
      then count_upgradable rest (upgradableCount + 1)
      else count_upgradable rest upgradableCount
  end.

(** [parseOutdatedPackagesOutput(output)] *)
Definition parseOutdatedPackagesOutput (output : jsstring) : number :=
  let lines := split 10%N (trim output) in
  Num (count_upgradable lines 0).

Definition not_supported_text : jsstring := lit " packages doesn't support".

(** [/(\d+) packages doesn't support/] *)
Definition not_supported_re : RegExp :=
  mkRegExp (counted (literal not_supported_text)) false.

(** [countNotSupportedPackages(input)] *)
Definition countNotSupportedPackages (input : jsstring) : number :=
  match str_match input not_supported_re with
  | Some mt => parseInt_opt (match_get mt 1)
  | None => Num 0
  end.

(** [Changed.*\.dart] *)
Definition changed_pattern : regex :=
  Seq (literal (lit "Changed")) (Seq (Star (Atom CDot)) (literal (lit ".dart"))).

(** [/Changed.*\.dart/gi] *)
Definition changed_dart_re : RegExp := mkRegExp changed_pattern true.

(** The [formattedFiles] of [runFlutterFormatAnalysis]. *)
Definition formattedFiles (dartFormatOutput : jsstring) : option (list jsstring) :=
  str_match_g dartFormatOutput changed_dart_re.


(** ** Values, exceptions and the console *)

(** A JavaScript value, as [yaml.load] returns one. *)
Inductive jsval : Type :=
| VUndefined
| VNull
| VBool (b : bool)
| VNum (n : number)
| VStr (s : jsstring)
| VArr (elems : list jsval)
| VObj (props : list (jsstring * jsval)).

(** What [executeCommandSync] hands to its caller: a text, or the [stderr]
    property of an error that holds no text, which is [null] or [undefined]
    with the version of Node. *)
Inductive answer : Type :=
| Text (s : jsstring)
| Null
| Undefined.

(** What is thrown: a TypeError of the language, the error of [execSync]
    with its [stderr] property, or an error of the file system or of the
    YAML parser. *)
Inductive error : Type :=
| TypeError
| ExecSyncError (stderr : answer)
| LibraryError.

(** How a computation ends: it returns, it throws, or it ends the process
    with [process.exit(code)]. *)
Inductive completion (A : Type) : Type :=
| Normal (a : A)
| Throw (e : error)
| ProcessExit (code : Z).

Arguments Normal {A} a.
Arguments Throw {A} e.
Arguments ProcessExit {A} code.

(** A line written by [console.log] or by [console.error]. *)
Inductive event : Type :=
| Stdout (line : jsstring)
| Stderr (line : jsstring).

(** A computation of the program: the lines it writes, in order, and how it
    ends. *)
Definition Run (A : Type) : Type := (list event * completion A)%type.

Definition ret {A : Type} (a : A) : Run A := ([], Normal a).

Definition bind {A B : Type} (r : Run A) (f : A -> Run B) : Run B :=
  match r with
  | (out, Normal a) => let '(out', res) := f a in (out ++ out', res)
  | (out, Throw e) => (out, Throw e)
  | (out, ProcessExit code) => (out, ProcessExit code)
  end.

Notation "x <- r ;; k" := (bind r (fun x => k))
  (at level 61, r at next level, right associativity).
Notation "r ;; k" := (bind r (fun _ => k))
  (at level 61, right associativity).

Definition throw {A : Type} (e : error) : Run A := ([], Throw e).

(** [try { body } catch (error) { handler }] *)
Definition try_catch {A : Type} (body : Run A) (handler : error -> Run A) : Run A :=
  match body with
  | (out, Throw e) => let '(out', res) := handler e in (out ++ out', res)
  | r => r
  end.

Definition console_log (line : jsstring) : Run unit := ([Stdout line], Normal tt).

Definition console_error (line : jsstring) : Run unit := ([Stderr line], Normal tt).

Definition process_exit {A : Type} (code : Z) : Run A := ([], ProcessExit code).

(** [for (const a of l) { body }] *)
Fixpoint for_of {A : Type} (l : list A) (body : A -> Run unit) : Run unit :=
  match l with
  | [] => ret tt
  | a :: l' => body a ;; for_of l' body
  end.

(** The lines a computation wrote to standard output. *)
Definition stdout_of {A : Type} (r : Run A) : list jsstring :=
  flat_map (fun e => match e with Stdout l => [l] | Stderr _ => [] end) (fst r).

(** The exit status of the process once the exported [main] has ended: the
    argument of [process.exit], or 0 when [main] returns.  When [main] throws
    the status is left to the caller of the exported function. *)
Definition exit_status (r : Run unit) : option Z :=
  match snd r with
  | Normal _ => Some 0%Z
  | ProcessExit code => Some code
  | Throw _ => None
  end.

(** The receiver of a method call: calling a method of [null] or of
    [undefined] throws a TypeError. *)
Definition receiver (v : answer) : Run jsstring :=
  match v with
  | Text s => ret s
  | Null | Undefined => throw TypeError
  end.

(** ** The host: Node.js and the libraries [src/index.js] requires *)

(** How [execSync] ends: it returns the captured standard output, or it
    throws an error whose [stderr] property holds the captured error text
    when the command exited with a non-zero status, and [null] or
    [undefined] when no process could be spawned. *)
Inductive exec_result : Type :=
| ExecReturns (stdout : jsstring)
| ExecThrows (stderr : answer).

Record Host : Type := mkHost {
  (* fs.existsSync(path) *)
  existsSync : jsstring -> bool;
  (* fs.readFileSync(path, 'utf8'); [None] when it throws *)
  readFileSync : jsstring -> option jsstring;
  (* yaml.load(content); [None] when it throws *)
  yaml_load : jsstring -> option jsval;
  (* execSync(command, { encoding: 'utf-8', cwd, stdio: pipes }) *)
  execSync : jsstring -> jsstring -> exec_result;
  (* ToNumber on strings, arrays and objects; [None] when it throws a
     TypeError: an object that no callable [valueOf] or [toString] turns into
     a primitive value *)
  ToNumber_other : jsval -> option number
}.

(** ToBoolean. *)
Definition truthy (v : jsval) : bool :=
  match v with
  | VUndefined | VNull | VBool false | VNum NaN | VNum (Num 0%Z) | VStr [] => false
  | _ => true
  end.

(** [a || b]. *)
Definition js_or (a b : jsval) : jsval := if truthy a then a else b.

(** [v[name]] for a property name that is no array index: a TypeError on
    [undefined] and [null], the own property of an object, the [length] of a
    string or an array, and [undefined] otherwise. *)
Definition get_property (v : jsval) (name : jsstring) : Run jsval :=
  match v with
  | VUndefined | VNull => throw TypeError
  | VObj props =>
      ret match find (fun p => str_eqb (fst p) name) props with
          | Some p => snd p
          | None => VUndefined
          end
  | VStr s =>
      ret (if str_eqb name (lit "length") then VNum (Num (Z.of_nat (length s)))
           else VUndefined)
  | VArr elems =>
      ret (if str_eqb name (lit "length") then VNum (Num (Z.of_nat (length elems)))
           else VUndefined)
  | VBool _ | VNum _ => ret VUndefined
  end.

(** ToNumber. *)
Definition ToNumber (h : Host) (v : jsval) : Run number :=
  match v with
  | VUndefined => ret NaN
  | VNull => ret (Num 0)
  | VBool b => ret (Num (if b then 1 else 0))
  | VNum n => ret n
  | _ =>
      match ToNumber_other h v with
      | Some n => ret n
      | None => throw TypeError
      end
  end.

(** [v > n] for a number [n]. *)
Definition js_gt (h : Host) (v : jsval) (n : number) : Run bool :=
  x <- ToNumber h v ;;
  ret (num_gt x n).

(** ** The checks of [src/index.js] *)

Definition REQUIRED_FILES : list jsstring :=
  [lit "README.md"; lit "LICENSE"; lit "CONTRIBUTING.md"].

Definition MIN_DESCRIPTION_LENGTH : number := Num 60.

Definition msg_description_found : jsstring :=
  lit "   Description key found in pubspec.yaml.".

Definition msg_description_insufficient : jsstring :=
  lit "   Could not find sufficient description found in pubspec.yaml.".

(** The template literal [`${directory}/${name}`]: the path of [name]
    directly under [directory]. *)
Definition file_in (directory name : jsstring) : jsstring :=
  directory ++ lit "/" ++ name.

(** The first loop of [checkDocumentation]: the required files that exist,
    pushed in the order of [REQUIRED_FILES]. *)
Definition found_files (h : Host) (directory : jsstring) : list jsstring :=
  fold_left
    (fun foundFiles file =>
       if existsSync h (file_in directory file) then foundFiles ++ [file]
       else foundFiles)
    REQUIRED_FILES [].

(** The description test of [checkDocumentation], on the loaded manifest
    [pubspec]. *)
Definition check_description (h : Host) (pubspec : jsval) : Run unit :=
  d <- get_property pubspec (lit "description") ;;
  let description := js_or d (VStr []) in
  len <- get_property description (lit "length") ;;
  longer <- js_gt h len MIN_DESCRIPTION_LENGTH ;;
  if longer
  then console_log msg_description_found
  else console_log msg_description_insufficient.

(** [checkDocumentation(directory)] *)
Definition checkDocumentation (h : Host) (directory : jsstring) : Run (list jsstring) :=
  let foundFiles := found_files h directory in
  let pubspecPath := file_in directory (lit "pubspec.yaml") in
  (if existsSync h pubspecPath then
     pubspecContent <-
       match readFileSync h pubspecPath with
       | Some content => ret content
       | None => throw LibraryError
       end ;;
     pubspec <-
       match yaml_load h pubspecContent with
       | Some v => ret v
       | None => throw LibraryError
       end ;;
     check_description h pubspec
   else ret tt) ;;
  ret foundFiles.

(** [executeCommandSync(command, cwd)]; every call of the source leaves
    [suppressOutput] at its default, [false].  What the [try] block throws is
    the error of [execSync], and the handler returns its [stderr] property. *)
Definition executeCommandSync (h : Host) (command cwd : jsstring) : Run answer :=
  try_catch
    (match execSync h command cwd with
     | ExecReturns stdout => ret (Text stdout)
     | ExecThrows stderr => throw (ExecSyncError stderr)
     end)
    (fun error =>
       match error with
       | ExecSyncError stderr => ret stderr
       | _ => ret Undefined
       end).

(** [v !== null]. *)
Definition not_null (v : answer) : bool :=
  match v with
  | Null => false
  | _ => true
  end.

(** [v === ''] *)
Definition is_empty_text (v : answer) : bool :=
  match v with
  | Text [] => true
  | _ => false
  end.

Definition msg_analyze_failed : jsstring :=
  lit "   Some error occurred while executing flutter analyze command. Run 'flutter analyze' command in your project to check for issues.".

Definition msg_analyze_null : jsstring :=
  lit "   Some error occurred while flutter analyze command. Run flutter analyze command in your project to check for issues.".

Definition msg_no_formatting : jsstring := lit "   No files needed formatting.".

Definition msg_up_to_date : jsstring :=
  lit "   All pub dependencies on respective latest versions.".

Definition nat_to_string (n : nat) : jsstring := number_to_string (Num (Z.of_nat n)).

(** [runFlutterFormatAnalysis(projectDirectory)] *)
Definition runFlutterFormatAnalysis (h : Host) (projectDirectory : jsstring) : Run unit :=
  flutterOutput <- executeCommandSync h (lit "flutter analyze") projectDirectory ;;
  (if not_null flutterOutput then
     if is_empty_text flutterOutput then console_log msg_analyze_failed
     else
       (* [output.match] in [getNumberOfAnalysisIssue(flutterOutput)] *)
       output <- receiver flutterOutput ;;
       let issueCount := getNumberOfAnalysisIssue output in
       if num_gt issueCount (Num 0) then
         console_log (lit "   Found " ++ number_to_string issueCount ++ lit " analysis issues.") ;;
         console_log (lit "   Run 'flutter analyze' command in your project to check for issues.")
       else
         console_log output ;;
         console_log (lit "   No analysis issues found.")
   else console_log msg_analyze_null) ;;
  dartFormatOutput <- executeCommandSync h (lit "dart format --output=none .") projectDirectory ;;
  if not_null dartFormatOutput then
    (* [dartFormatOutput.match] *)
    text <- receiver dartFormatOutput ;;
    match formattedFiles text with
    | Some files =>
        console_log ([10%N] ++ lit "   " ++ nat_to_string (length files)
                       ++ lit " files needs to be formatted.") ;;
        console_log (lit "   Run 'dart format .' command in your project to get the files formatted.")
    | None => console_log msg_no_formatting
    end
  else ret tt.

(** [analysePubspecDependencies(projectDirectory)] *)
Definition analysePubspecDependencies (h : Host) (projectDirectory : jsstring) : Run unit :=
  outdatedPackages <- executeCommandSync h (lit "dart pub outdated") projectDirectory ;;
  if not_null outdatedPackages then
    (* [output.trim] in [parseOutdatedPackagesOutput(outdatedPackages)] *)
    output <- receiver outdatedPackages ;;
    let upgradablePackagesCount := parseOutdatedPackagesOutput output in
    if num_gt upgradablePackagesCount (Num 0) then
      console_log (lit "   Found " ++ number_to_string upgradablePackagesCount
                     ++ lit " packages which can be updated.") ;;
      console_log (lit "   Run 'dart pub outdated' command in your project to know more about these.")
    else console_log msg_up_to_date
  else ret tt.

Definition osList : list jsstring := [lit "android"; lit "ios"; lit "web"].

Definition phrase_added : jsstring := lit "Add will_it_run: Resolving dependencies".

Definition phrase_already : jsstring :=
  dquote ++ lit "will_it_run" ++ dquote ++ lit " is already in " ++ dquote
    ++ lit "dependencies" ++ dquote.

(** [analyseSupportedPlatforms(projectDirectory)]: the methods [includes]
    and [match] are called on what [executeCommandSync] returned, with no
    test for [null]; [text] and [input] are [addWillItRun] and
    [supportCheck] once a method was called on them. *)
Definition analyseSupportedPlatforms (h : Host) (projectDirectory : jsstring) : Run unit :=
  addWillItRun <- executeCommandSync h (lit "dart pub add will_it_run") projectDirectory ;;
  text <- receiver addWillItRun ;;
  if includes text phrase_added || includes text phrase_already then
    let willItRunCommand := lit "dart run will_it_run:" in
    for_of osList (fun os =>
      let command := willItRunCommand ++ os in
      supportCheck <- executeCommandSync h command projectDirectory ;;
      input <- receiver supportCheck ;;
      let packagesNotSupportedCount := countNotSupportedPackages input in
      if num_gt packagesNotSupportedCount (Num 0) then
        console_log (lit "   Found " ++ number_to_string packagesNotSupportedCount
                       ++ lit " packages not supported for " ++ os)
      else console_log (lit "   All packages are supported for " ++ os))
  else console_log text.

Definition msg_usage : jsstring := lit "Usage: pub-score2.js <directory>".

Definition msg_starting : jsstring := [10%N] ++ lit "Starting analysis...".

Definition msg_finished : jsstring := [10%N] ++ lit "Analysis finished.".

(** The [missingFiles] of [main]. *)
Definition missing_files (foundFiles : list jsstring) : list jsstring :=
  filter (fun file => negb (existsb (str_eqb file) foundFiles)) REQUIRED_FILES.

(** [main()], with [process.argv] as its argument. *)
Definition main (h : Host) (argv : list jsstring) : Run unit :=
  let args := skipn 2 argv in
  (if negb (Nat.eqb (length args) 1) then
     console_error msg_usage ;;
     process_exit 1
   else ret tt) ;;
  console_log msg_starting ;;
  let directory := nth 0 args [] in
  console_log ([10%N] ++ lit "1. Checking required files and descriptions...") ;;
  foundFiles <- checkDocumentation h directory ;;
  console_log (lit "   Found " ++ nat_to_string (length foundFiles) ++ lit " documentation files") ;;
  let missingFiles := missing_files foundFiles in
  (if Nat.ltb 0 (length missingFiles) then
     console_log (lit "   Missing documentation file(s): " ++ join (lit ", ") missingFiles ++ lit ".")
   else ret tt) ;;
  console_log ([10%N] ++ lit "2. Analysing Flutter format and warnings...") ;;
  runFlutterFormatAnalysis h directory ;;
  console_log ([10%N] ++ lit "3. Analysing pubspec dependecies...") ;;
  analysePubspecDependencies h directory ;;
  console_log ([10%N] ++ lit "4. Analysing supported platforms...") ;;
  analyseSupportedPlatforms h directory ;;
  console_log msg_finished.

(** ** Vocabulary of the statements *)

(** A matcher only ever hands its continuation a state further in the same
    input. *)
Definition hands_on_suffixes (atom : state -> continuation -> option state) : Prop :=
  forall x c z, atom x c = Some z ->
    exists y w, c y = Some z /\ fst x = w ++ fst y.

(** [w] is the pattern text [L] up to the pattern's case flag. *)
Definition same_text (ic : bool) (w L : jsstring) : Prop :=
  Forall2 (fun ch c => canonicalize ic ch = canonicalize ic c) w L.

(** [s] begins with the pattern text [L], up to the case flag. *)
Fixpoint literal_prefix (ic : bool) (L s : jsstring) : bool :=
  match L, s with
  | [], _ => true
  | l :: L', ch :: s' => class_mem ic (CChar l) ch && literal_prefix ic L' s'
  | _ :: _, [] => false
  end.

(** A number as it stands in a text: a run of one or more decimal digits. *)
Definition number_text (ds : jsstring) : Prop :=
  ds <> [] /\ Forall (fun c => is_digit c = true) ds.

(** [t] begins with an occurrence: a number, then a phrase. *)
Definition occurrence_at (phrase : jsstring -> Prop) (t : jsstring) : Prop :=
  exists ds w rest, t = ds ++ w ++ rest /\ number_text ds /\ phrase w.

(** No occurrence begins inside [g] when [g] is followed by [t]. *)
Definition free_of (phrase : jsstring -> Prop) (g t : jsstring) : Prop :=
  forall a b, g = a ++ b -> b <> [] -> ~ occurrence_at phrase (b ++ t).

(** [occurrences phrase s ns]: read from the left, [s] holds exactly the
    occurrences whose numbers are [ns], one after the other: each occurrence
    is the first one to begin after the end of the one before it. *)
Inductive occurrences (phrase : jsstring -> Prop) : jsstring -> list Z -> Prop :=
| occurrences_none (s : jsstring) :
    free_of phrase s [] ->
    occurrences phrase s []
| occurrences_next (g ds w rest : jsstring) (ns : list Z) :
    free_of phrase g (ds ++ w ++ rest) ->
    number_text ds ->
    phrase w ->
    occurrences phrase rest ns ->
    occurrences phrase (g ++ ds ++ w ++ rest) (decimal_value ds :: ns).

(** [t] does not begin with a digit. *)
Definition no_digit_head (t : jsstring) : Prop :=
  match t with
  | ch :: _ => is_digit ch = false
  | [] => True
  end.

(** The pattern matches at no position inside [g] when [g] is followed by
    [t]: a test by running the matcher. *)
Fixpoint no_match_inside (ic : bool) (r : regex) (g t : jsstring) : bool :=
  match g with
  | [] => true
  | _ :: g' =>
      match match_here ic r (g ++ t) with
      | None => no_match_inside ic r g' t
      | Some _ => false
      end
  end.

(** "<n> issue found" and "<n> issues found", in any case of the letters. *)
Definition issue_phrase (w : jsstring) : Prop :=
  same_text true w (lit " issue found") \/ same_text true w (lit " issues found").

(** "<n> packages doesn't support", in this very case. *)
Definition not_supported_phrase (w : jsstring) : Prop :=
  w = not_supported_text.

Definition sum (ns : list Z) : Z := fold_right Z.add 0%Z ns.

(** The sum of the integers [ns] as the program adds them: each one as a
    Number, added from the left to a total that starts at 0. *)
Definition Number_sum (ns : list Z) : number :=
  fold_left (fun total n => num_add total (double_of_Z n)) ns (Num 0).

(** A number that is no NaN and not below 0. *)
Definition not_negative (n : number) : Prop :=
  match n with
  | Num z => (0 <= z)%Z
  | Inf negative => negative = false
  | NaN => False
  end.

(** A line of the listing that counts as an upgradable package: trimmed, it
    is not empty and contains the marker [*]. *)
Definition upgradable_line (l : jsstring) : bool :=
  negb (Nat.eqb (length (trim l)) 0) && includes (trim l) (lit "*").

(** The lines of a text in the sense of the wildcard [.]: the pieces between
    line terminators. *)
Fixpoint lines_of (s : jsstring) : list jsstring :=
  match s with
  | [] => [[]]
  | c :: s' =>
      if is_line_terminator c then [] :: lines_of s'
      else match lines_of s' with
           | l :: ls => (c :: l) :: ls
           | [] => [[c]]
           end
  end.

(** The number of files [runFlutterFormatAnalysis] reports: the length of
    [formattedFiles], 0 when it is [null]. *)
Definition formatted_count (dartFormatOutput : jsstring) : nat :=
  match formattedFiles dartFormatOutput with
  | Some files => length files
  | None => 0
  end.

(** A text without line terminator. *)
Definition is_line (l : jsstring) : Prop :=
  Forall (fun c => is_line_terminator c = false) l.

(** [.dart], in any case of its letters, stands at the head of [t]: what
    follows it. *)
Definition dart_here (t : jsstring) : option jsstring :=
  if literal_prefix true (lit ".dart") t then Some (skipn 5 t) else None.

(** Where the greedy [.*\.dart] ends in [t]: after the last [.dart] that
    stands before the first line terminator. *)
Fixpoint dart_end (t : jsstring) : option jsstring :=
  match t with
  | [] => dart_here []
  | ch :: t' =>
      if is_line_terminator ch then dart_here t
      else match dart_end t' with
           | Some r => Some r
           | None => dart_here t
           end
  end.

(** No [.dart] stands in [r] before its first line terminator. *)
Definition dart_free (r : jsstring) : Prop :=
  forall u b, r = u ++ b -> is_line u -> literal_prefix true (lit ".dart") b = false.

(** [l1] is [l2] with some elements left out, the order kept. *)
Inductive subsequence {A : Type} : list A -> list A -> Prop :=
| subsequence_nil : subsequence [] []
| subsequence_skip (x : A) (l1 l2 : list A) :
    subsequence l1 l2 -> subsequence l1 (x :: l2)
| subsequence_take (x : A) (l1 l2 : list A) :
    subsequence l1 l2 -> subsequence (x :: l1) (x :: l2).

(** The manifest of [directory] exists and loads as the value [v]. *)
Definition manifest_is (h : Host) (directory : jsstring) (v : jsval) : Prop :=
  existsSync h (file_in directory (lit "pubspec.yaml")) = true /\
  exists content,
    readFileSync h (file_in directory (lit "pubspec.yaml")) = Some content /\
    yaml_load h content = Some v.

(** The own property [name] of an object with the properties [props]. *)
Definition field (props : list (jsstring * jsval)) (name : jsstring) : option jsval :=
  option_map snd (find (fun p => str_eqb (fst p) name) props).

(** What the description test compares with 60 for the manifest [pubspec]:
    the length of its description when that is a text or a list, and for a
    description that is an object its own property [length]. *)
Definition measured (pubspec : jsval) : jsval :=
  let own props name :=
    match field props name with
    | Some v => v
    | None => VUndefined
    end in
  let d :=
    match pubspec with
    | VObj props => own props (lit "description")
    | _ => VUndefined
    end in
  match js_or d (VStr []) with
  | VStr text => VNum (Num (Z.of_nat (length text)))
  | VArr elems => VNum (Num (Z.of_nat (length elems)))
  | VObj props => own props (lit "length")
  | _ => VUndefined
  end.

(** The value [v] has a number: it is no text, list or object, or the host
    converts it without a TypeError. *)
Definition converts (h : Host) (v : jsval) : bool :=
  match v with
  | VStr _ | VArr _ | VObj _ =>
      match ToNumber_other h v with
      | Some _ => true
      | None => false
      end
  | _ => true
  end.

(** [directory] has no manifest, or one that loads as a value other than
    [undefined] and [null] in which what is compared with 60 has a number. *)
Definition manifest_readable (h : Host) (directory : jsstring) : bool :=
  if existsSync h (file_in directory (lit "pubspec.yaml")) then
    match readFileSync h (file_in directory (lit "pubspec.yaml")) with
    | Some content =>
        match yaml_load h content with
        | Some VUndefined | Some VNull | None => false
        | Some pubspec => converts h (measured pubspec)
        end
    | None => false
    end
  else true.

(** Of the names in [names], exactly those in [present] exist under
    [directory]. *)
Definition directory_holds (h : Host) (directory : jsstring)
  (names present : list jsstring) : Prop :=
  forall name, In name names ->
    existsSync h (file_in directory name) = existsb (str_eqb name) present.

(** Every command run in [directory] yields [text], as its output or as its
    captured error text. *)
Definition every_command_yields (h : Host) (directory text : jsstring) : Prop :=
  forall command, executeCommandSync h command directory = ret (Text text).

(** A host on which no process can be spawned (the target directory does
    not exist): nothing exists, and every [execSync] throws an error whose
    [stderr] is [null]. *)
Definition no_spawn_host : Host :=
  mkHost (fun _ => false) (fun _ => None) (fun _ => None)
    (fun _ _ => ExecThrows Null) (fun _ => Some NaN).

(** A text of sixty code units. *)
Definition sixty : jsstring :=
  lit "A command line tool that scores Dart packages for publishing".

(** A host whose directory [proj] holds a manifest with a description of
    sixty code units. *)
Definition sixty_host : Host :=
  mkHost (fun path => str_eqb path (lit "proj/pubspec.yaml"))
    (fun _ => Some (lit "name: demo"))
    (fun _ => Some (VObj [(lit "name", VStr (lit "demo")); (lit "description", VStr sixty)]))
    (fun _ _ => ExecReturns []) (fun _ => Some NaN).

(** A host whose directory [proj] holds README.md, CONTRIBUTING.md and a
    manifest with a description of sixty code units, and no LICENSE. *)
Definition documented_host : Host :=
  mkHost
    (fun path =>
       str_eqb path (lit "proj/pubspec.yaml") || str_eqb path (lit "proj/README.md")
       || str_eqb path (lit "proj/CONTRIBUTING.md"))
    (fun _ => Some (lit "name: demo"))
    (fun _ => Some (VObj [(lit "name", VStr (lit "demo")); (lit "description", VStr sixty)]))
    (fun _ _ => ExecReturns []) (fun _ => Some NaN).

(** A host whose directory holds nothing and whose commands all succeed
    with an empty output. *)
Definition silent_host : Host :=
  mkHost (fun _ => false) (fun _ => None) (fun _ => None)
    (fun _ _ => ExecReturns []) (fun _ => Some NaN).

(** A host whose directory holds nothing and whose commands all print a
    lint summary with three issues. *)
Definition troubled_host : Host :=
  mkHost (fun _ => false) (fun _ => None) (fun _ => None)
    (fun _ _ => ExecReturns (lit "   info - unused import. 3 issues found."))
    (fun _ => Some NaN).

(** What a caller of [executeCommandSync] gets from an outcome of
    [execSync]: the output, or the [stderr] of the error. *)
Definition text_of (r : exec_result) : answer :=
  match r with
  | ExecReturns stdout => Text stdout
  | ExecThrows stderr => stderr
  end.

(** The host [h] with [execSync] replaced. *)
Definition with_execSync (h : Host) (e : jsstring -> jsstring -> exec_result) : Host :=
  mkHost (existsSync h) (readFileSync h) (yaml_load h) e (ToNumber_other h).

(** The platform check gets a text wherever it calls a method: from the add
    command, and from the three platform commands when the add command
    reported one of its two phrases. *)
Definition platforms_answer (h : Host) (directory : jsstring) : bool :=
  match text_of (execSync h (lit "dart pub add will_it_run") directory) with
  | Text text =>
      if includes text phrase_added || includes text phrase_already then
        forallb
          (fun os =>
             match text_of (execSync h (lit "dart run will_it_run:" ++ os) directory) with
             | Text _ => true
             | _ => false
             end)
          osList
      else true
  | _ => false
  end.

(** The command gives the lint, format and dependency checks something they
    can go on with: a text, or the [null] they test for. *)
Definition guarded_answer (h : Host) (command directory : jsstring) : bool :=
  match text_of (execSync h command directory) with
  | Undefined => false
  | _ => true
  end.

(** The commands of the lint, format and dependency checks. *)
Definition guarded_commands : list jsstring :=
  [lit "flutter analyze"; lit "dart format --output=none ."; lit "dart pub outdated"].

Definition is_stdout (e : event) : Prop :=
  match e with
  | Stdout _ => True
  | Stderr _ => False
  end.

(** A computation that writes to standard output only and does not end the
    process. *)
Definition quiet {A : Type} (r : Run A) : Prop :=
  Forall is_stdout (fst r) /\ forall code, snd r <> ProcessExit code.

(** A host on which no process can be spawned and the error of [execSync]
    has no [stderr] property at all. *)
Definition undefined_stderr_host : Host :=
  mkHost (fun _ => false) (fun _ => None) (fun _ => None)
    (fun _ _ => ExecThrows Undefined) (fun _ => Some NaN).

(** A host whose directory [proj] holds a manifest whose description is an
    object with a [length] that nothing turns into a number: its [valueOf]
    and [toString] are numbers, not functions. *)
Definition odd_length_host : Host :=
  mkHost (fun path => str_eqb path (lit "proj/pubspec.yaml"))
    (fun _ => Some (lit "description: {length: {valueOf: 1, toString: 1}}"))
    (fun _ =>
       Some (VObj [(lit "description",
                    VObj [(lit "length",
                           VObj [(lit "valueOf", VNum (Num 1));
                                 (lit "toString", VNum (Num 1))])])]))
    (fun _ _ => ExecReturns []) (fun _ => None).

(** A host whose directory [proj] holds an empty manifest, which loads as
    [undefined]. *)
Definition empty_manifest_host : Host :=
  mkHost (fun path => str_eqb path (lit "proj/pubspec.yaml"))
    (fun _ => Some []) (fun _ => Some VUndefined)
    (fun _ _ => ExecReturns []) (fun _ => Some NaN).

(** A host whose commands all fail with the error text of a shell that does
    not find them. *)
Definition failing_host : Host :=
  mkHost (fun _ => false) (fun _ => None) (fun _ => None)
    (fun _ _ => ExecThrows (Text (lit "/bin/sh: 1: flutter: not found")))
    (fun _ => Some NaN).

(** The line of the platform check for [os], from the numbers [ns] of the
    occurrences of [not_supported_phrase] in what the command printed. *)
Definition platform_line (os : jsstring) (ns : list Z) : jsstring :=
  if (0 <? hd 0%Z ns)%Z then
    lit "   Found " ++ number_to_string (double_of_Z (hd 0%Z ns))
      ++ lit " packages not supported for " ++ os
  else lit "   All packages are supported for " ++ os.

(** A piece of [s]. *)
Definition piece_of (s f : jsstring) : Prop :=
  exists before after, s = before ++ f ++ after.

(** [Changed], then a text without line terminator, then [.dart], the
    letters in any case. *)
Definition changed_entry (f : jsstring) : Prop :=
  exists C u d,
    f = C ++ u ++ d /\ same_text true C (lit "Changed") /\ is_line u /\
    same_text true d (lit ".dart").

(** A host on which the package is added and the check of one platform
    fails with a report on its error stream. *)
Definition platform_host : Host :=
  mkHost (fun _ => false) (fun _ => None) (fun _ => None)
    (fun command _ =>
       if str_eqb command (lit "dart pub add will_it_run")
       then ExecReturns (lit "Add will_it_run: Resolving dependencies...")
       else if str_eqb command (lit "dart run will_it_run:web")
       then ExecThrows (Text (lit "2 packages doesn't support web"))
       else ExecReturns (lit "ok"))
    (fun _ => Some NaN).

(** * Properties *)

(** ** The model at work *)

Example parseInt_skips_white_space : parseInt (lit "  12 issues") = Num 12.
Proof. reflexivity. Qed.

Example parseInt_reads_hexadecimal : parseInt (lit "0x1f") = Num 31.
Proof. reflexivity. Qed.

Example parseInt_of_no_digit : parseInt (lit "issues") = NaN.
Proof. reflexivity. Qed.

Example number_to_string_120 : number_to_string (Num 120) = lit "120".
Proof. reflexivity. Qed.

Example parseInt_rounds_to_even :
  parseInt (lit "9007199254740993") = Num 9007199254740992 /\
  parseInt (lit "9007199254740995") = Num 9007199254740996.
Proof. split; vm_compute; reflexivity. Qed.

Example parseInt_beyond_the_doubles : parseInt (repeat 57%N 400) = Inf false.
Proof. vm_compute. reflexivity. Qed.

Example addition_is_rounded :
  num_add (num_add (Num two53) (Num 1)) (Num 1) = Num two53 /\
  num_add (Num two53) (num_add (Num 1) (Num 1)) = Num (two53 + 2).
Proof. split; vm_compute; reflexivity. Qed.

Example number_to_string_shortest :
  number_to_string (double_of_Z (2 ^ 60)) = lit "1152921504606847000" /\
  number_to_string (double_of_Z 123456789012345678901) = lit "123456789012345680000".
Proof. split; vm_compute; reflexivity. Qed.

Example number_to_string_exponent :
  number_to_string (double_of_Z (10 ^ 21)) = lit "1e+21" /\
  number_to_string (double_of_Z (2 ^ 70)) = lit "1.1805916207174113e+21" /\
  number_to_string (double_of_Z (10 ^ 23)) = lit "1e+23" /\
  number_to_string (double_of_Z (10 ^ 400)) = lit "Infinity".
Proof. repeat split; vm_compute; reflexivity. Qed.

Example large_issue_count_is_printed_rounded :
  getNumberOfAnalysisIssue (lit "1000000000000000000000 issues found") = Num (10 ^ 21) /\
  number_to_string (getNumberOfAnalysisIssue (lit "1000000000000000000000 issues found"))
  = lit "1e+21".
Proof. split; vm_compute; reflexivity. Qed.

Example split_keeps_empty_pieces :
  split 10%N (lit "a" ++ [10%N] ++ lit "b" ++ [10%N]) = [lit "a"; lit "b"; []].
Proof. reflexivity. Qed.

Example trim_both_ends : trim (lit "  a b  ") = lit "a b".
Proof. reflexivity. Qed.

Example issues_are_summed :
  getNumberOfAnalysisIssue (lit "12 issues found. x 1 issue found 3 ISSUES FOUND") = Num 16.
Proof. vm_compute. reflexivity. Qed.

Example a_number_is_read_whole :
  getNumberOfAnalysisIssue (lit "a123 issues found") = Num 123.
Proof. vm_compute. reflexivity. Qed.

Example first_unsupported_count :
  countNotSupportedPackages
    (lit "a 12 packages doesn't support web 3 packages doesn't support") = Num 12.
Proof. vm_compute. reflexivity. Qed.

Example unsupported_is_case_sensitive :
  countNotSupportedPackages (lit "12 Packages doesn't support web") = Num 0.
Proof. vm_compute. reflexivity. Qed.

Example changed_files_per_line :
  formattedFiles (lit "Changed a.dart Changed b.dart" ++ [10%N] ++ lit "changed c.DART x")
  = Some [lit "Changed a.dart Changed b.dart"; lit "changed c.DART"].
Proof. vm_compute. reflexivity. Qed.

Example a_carriage_return_ends_a_line :
  formatted_count (lit "Changed a.dart" ++ [13%N] ++ lit "Changed b.dart") = 2.
Proof. vm_compute. reflexivity. Qed.

Example undefined_stderr_ends_the_run_in_the_lint_check :
  main undefined_stderr_host [lit "node"; lit "pub-score2.js"; lit "missing"]
  = ([Stdout msg_starting;
      Stdout ([10%N] ++ lit "1. Checking required files and descriptions...");
      Stdout (lit "   Found 0 documentation files");
      Stdout (lit "   Missing documentation file(s): README.md, LICENSE, CONTRIBUTING.md.");
      Stdout ([10%N] ++ lit "2. Analysing Flutter format and warnings...")],
     Throw TypeError).
Proof. vm_compute. reflexivity. Qed.

Example length_without_a_number_throws :
  checkDocumentation odd_length_host (lit "proj") = ([], Throw TypeError).
Proof. vm_compute. reflexivity. Qed.

Example outdated_marked_lines :
  parseOutdatedPackagesOutput
    (lit "  *a" ++ [10%N] ++ lit "b" ++ [10%N] ++ lit " * " ++ [10%N]) = Num 2.
Proof. vm_compute. reflexivity. Qed.

(** ** The matcher *)

Lemma clear_captures_nil (x : state) : clear_captures [] x = x.
Proof.
  destruct x as [s caps]. unfold clear_captures. simpl. f_equal.
  induction caps as [|p caps IH]; simpl; [reflexivity | now rewrite IH].
Qed.

Lemma fst_clear_captures (gs : list nat) (x : state) :
  fst (clear_captures gs x) = fst x.
Proof. reflexivity. Qed.

Lemma repeat_matcher_suffix atom gs :
  hands_on_suffixes atom ->
  forall fuel, hands_on_suffixes (fun x c => repeat_matcher atom gs fuel x c).
Proof.
  intros Hatom fuel. induction fuel as [|fuel IH]; intros x c z H; simpl in H.
  - exists x, []. now split.
  - destruct (atom (clear_captures gs x) _) as [z'|] eqn:E.
    + injection H as <-. apply Hatom in E.
      destruct E as (y1 & w1 & Hk & Hw1). rewrite fst_clear_captures in Hw1.
      destruct (advanced x y1); [|discriminate].
      apply IH in Hk. destruct Hk as (y & w & Hc & Hw).
      exists y, (w1 ++ w). split; [assumption|].
      now rewrite Hw1, Hw, app_assoc.
    + exists x, []. now split.
Qed.

Lemma m_suffix ic r : hands_on_suffixes (m ic r).
Proof.
  induction r as [|cl|r1 IH1 r2 IH2|r1 IH1|r1 IH1|r1 IH1|i r1 IH1]; intros x c z H;
    cbn [m] in H.
  - exists x, []. now split.
  - destruct x as [[|ch rest] caps]; simpl in H; [discriminate|].
    destruct (class_mem ic cl ch); [|discriminate].
    exists (rest, caps), [ch]. now split.
  - apply IH1 in H. destruct H as (y1 & w1 & H & Hw1).
    apply IH2 in H. destruct H as (y & w & H & Hw).
    exists y, (w1 ++ w). split; [assumption|]. now rewrite Hw1, Hw, app_assoc.
  - now apply (repeat_matcher_suffix (m ic r1) (groups r1) IH1) in H.
  - apply IH1 in H. destruct H as (y1 & w1 & H & Hw1).
    rewrite fst_clear_captures in Hw1.
    apply (repeat_matcher_suffix (m ic r1) (groups r1) IH1) in H.
    destruct H as (y & w & H & Hw).
    exists y, (w1 ++ w). split; [assumption|]. now rewrite Hw1, Hw, app_assoc.
  - destruct (m ic r1 _ _) as [z'|] eqn:E.
    + injection H as <-. apply IH1 in E. destruct E as (y & w & Hk & Hw).
      rewrite fst_clear_captures in Hw.
      destruct (advanced x y); [|discriminate]. now exists y, w.
    + exists x, []. now split.
  - apply IH1 in H. destruct H as (y & w & H & Hw).
    eexists (_, _), w. split; [exact H|exact Hw].
Qed.

(** *** The fuel of the quantifiers *)

Lemma repeat_matcher_ext atom gs :
  (forall x c1 c2, (forall y, c1 y = c2 y) -> atom x c1 = atom x c2) ->
  forall fuel x c1 c2, (forall y, c1 y = c2 y) ->
    repeat_matcher atom gs fuel x c1 = repeat_matcher atom gs fuel x c2.
Proof.
  intros Hatom fuel. induction fuel as [|fuel IH]; intros x c1 c2 Hc; simpl.
  - apply Hc.
  - rewrite (Hatom (clear_captures gs x)
               (fun y => if advanced x y then repeat_matcher atom gs fuel y c1 else None)
               (fun y => if advanced x y then repeat_matcher atom gs fuel y c2 else None)).
    + now rewrite Hc.
    + intros y. destruct (advanced x y); [now apply IH | reflexivity].
Qed.

(** A matcher only looks at what its continuation returns. *)
Lemma m_ext ic r :
  forall x c1 c2, (forall y, c1 y = c2 y) -> m ic r x c1 = m ic r x c2.
Proof.
  induction r as [|cl|r1 IH1 r2 IH2|r1 IH1|r1 IH1|r1 IH1|i r1 IH1]; intros x c1 c2 Hc;
    cbn [m].
  - apply Hc.
  - destruct (fst x) as [|ch rest]; [reflexivity|].
    destruct (class_mem ic cl ch); [apply Hc | reflexivity].
  - apply IH1. intros y. now apply IH2.
  - now apply repeat_matcher_ext.
  - apply IH1. intros y. now apply repeat_matcher_ext.
  - rewrite (IH1 (clear_captures (groups r1) x)
               (fun y => if advanced x y then c1 y else None)
               (fun y => if advanced x y then c2 y else None)).
    + now rewrite Hc.
    + intros y. now rewrite Hc.
  - apply IH1. intros y. apply Hc.
Qed.

(** Any fuel above the length of the input gives the same result: every
    iteration consumes input, so the fuel is never used up. *)
Lemma repeat_matcher_fuel ic r1 gs n :
  forall x f1 f2 c,
    length (fst x) <= n -> length (fst x) < f1 -> length (fst x) < f2 ->
    repeat_matcher (m ic r1) gs f1 x c = repeat_matcher (m ic r1) gs f2 x c.
Proof.
  induction n as [|n IH]; intros x f1 f2 c Hn H1 H2;
    (destruct f1 as [|f1]; [lia|]); (destruct f2 as [|f2]; [lia|]); simpl;
    rewrite (m_ext ic r1 (clear_captures gs x)
               (fun y => if advanced x y then repeat_matcher (m ic r1) gs f1 y c else None)
               (fun y => if advanced x y then repeat_matcher (m ic r1) gs f2 y c else None));
    try reflexivity; intros y; destruct (advanced x y) eqn:A; try reflexivity;
    unfold advanced in A; apply Nat.ltb_lt in A; [lia | apply IH; lia].
Qed.

(** The greedy star as ECMAScript states it, with no fuel: one more
    iteration that consumes input and then the star again, or else the
    continuation. *)
Lemma star_unfold ic r1 x c :
  m ic (Star r1) x c =
  match m ic r1 (clear_captures (groups r1) x)
          (fun y => if advanced x y then m ic (Star r1) y c else None) with
  | Some z => Some z
  | None => c x
  end.
Proof.
  cbn [m]. cbn [repeat_matcher].
  rewrite (m_ext ic r1 (clear_captures (groups r1) x)
             (fun y => if advanced x y
                       then repeat_matcher (m ic r1) (groups r1) (length (fst x)) y c
                       else None)
             (fun y => if advanced x y
                       then repeat_matcher (m ic r1) (groups r1) (S (length (fst y))) y c
                       else None)); [reflexivity|].
  intros y. destruct (advanced x y) eqn:A; [|reflexivity].
  unfold advanced in A. apply Nat.ltb_lt in A.
  apply repeat_matcher_fuel with (n := length (fst y)); lia.
Qed.

(** [r+] is one [r], then [r*]. *)
Lemma plus_unfold ic r1 x c :
  m ic (Plus r1) x c =
  m ic r1 (clear_captures (groups r1) x) (fun y => m ic (Star r1) y c).
Proof. reflexivity. Qed.

Lemma match_here_suffix ic r s y :
  match_here ic r s = Some y -> exists w, s = w ++ fst y.
Proof.
  unfold match_here. intros H. apply m_suffix in H.
  destruct H as (y' & w & Hy & Hw). injection Hy as ->. now exists w.
Qed.

Lemma firstn_length_diff (w t : jsstring) :
  firstn (length (w ++ t) - length t) (w ++ t) = w.
Proof.
  rewrite length_app, Nat.add_sub.
  rewrite firstn_app, Nat.sub_diag, firstn_all. simpl. apply app_nil_r.
Qed.

Lemma match_here_splits ic r s y :
  match_here ic r s = Some y ->
  s = firstn (length s - length (fst y)) s ++ fst y.
Proof.
  intros H. apply match_here_suffix in H. destruct H as [w Hw].
  rewrite Hw at 1 2 3. now rewrite firstn_length_diff.
Qed.

(** What [exec] returns splits the input: what was skipped, the match, and
    the rest. *)
Lemma exec_splits ic r s res :
  exec ic r s = Some res ->
  exists skipped, s = skipped ++ matched res ++ after res.
Proof.
  induction s as [|ch s IH]; cbn [exec]; intros H.
  - destruct (match_here ic r []) as [y|] eqn:E; [|discriminate].
    injection H as <-. exists []. apply (match_here_splits _ _ _ _ E).
  - destruct (match_here ic r (ch :: s)) as [y|] eqn:E.
    + injection H as <-. exists []. apply (match_here_splits _ _ _ _ E).
    + apply IH in H. destruct H as [sk H]. exists (ch :: sk). simpl. now f_equal.
Qed.

Lemma exec_none_inv ic r s :
  exec ic r s = None -> forall a b, s = a ++ b -> match_here ic r b = None.
Proof.
  induction s as [|ch s IH]; cbn [exec]; intros H a b E.
  - symmetry in E. apply app_eq_nil in E. destruct E as [_ ->].
    now destruct (match_here ic r []).
  - destruct (match_here ic r (ch :: s)) eqn:M; [discriminate|].
    destruct a as [|x a]; simpl in E.
    + now subst b.
    + injection E as _ E. exact (IH H a b E).
Qed.

(** [exec] stops at the first position where the pattern matches. *)
Lemma exec_some_inv ic r s res :
  exec ic r s = Some res ->
  exists g t y,
    s = g ++ t /\ match_here ic r t = Some y /\
    res = mkMatch (firstn (length t - length (fst y)) t) (snd y) (fst y) /\
    (forall a b, g = a ++ b -> b <> [] -> match_here ic r (b ++ t) = None).
Proof.
  assert (N : forall t y, match_here ic r t = Some y ->
            exists g t' y', t = g ++ t' /\ match_here ic r t' = Some y' /\
              mkMatch (firstn (length t - length (fst y)) t) (snd y) (fst y)
              = mkMatch (firstn (length t' - length (fst y')) t') (snd y') (fst y') /\
              (forall a b, g = a ++ b -> b <> [] -> match_here ic r (b ++ t') = None)).
  { intros t y M. exists [], t, y. repeat split; try assumption.
    intros a b E Hb. symmetry in E. apply app_eq_nil in E. destruct E as [_ ->].
    now elim Hb. }
  induction s as [|ch s IH]; cbn [exec]; intros H.
  - destruct (match_here ic r []) as [y|] eqn:M; [|discriminate].
    injection H as <-. exact (N _ _ M).
  - destruct (match_here ic r (ch :: s)) as [y|] eqn:M.
    + injection H as <-. exact (N _ _ M).
    + destruct (IH H) as (g & t & y & Es & Mt & Er & Hg).
      exists (ch :: g), t, y. repeat split; try assumption.
      * simpl. now f_equal.
      * intros a b E Hb. destruct a as [|x a]; simpl in E.
        -- subst b. simpl. now rewrite <- Es.
        -- injection E as _ E. exact (Hg a b E Hb).
Qed.

(** The search passes a stretch in which the pattern matches nowhere. *)
Lemma exec_passes ic r g t :
  (forall a b, g = a ++ b -> b <> [] -> match_here ic r (b ++ t) = None) ->
  exec ic r (g ++ t) = exec ic r t.
Proof.
  induction g as [|ch g IH]; intros H; [reflexivity|].
  assert (M : match_here ic r ((ch :: g) ++ t) = None)
    by (apply (H [] (ch :: g)); [reflexivity | discriminate]).
  cbn [app] in *. cbn [exec]. rewrite M.
  apply IH. intros a b E Hb. apply (H (ch :: a) b); [simpl; now f_equal | exact Hb].
Qed.

Lemma exec_none_intro ic r s :
  (forall a b, s = a ++ b -> match_here ic r b = None) -> exec ic r s = None.
Proof.
  intros H. rewrite <- (app_nil_r s). rewrite exec_passes.
  - cbn [exec]. now rewrite (H s []) by (symmetry; apply app_nil_r).
  - intros a b E _. rewrite app_nil_r. exact (H a b E).
Qed.

Lemma exec_here ic r t y :
  match_here ic r t = Some y ->
  exec ic r t = Some (mkMatch (firstn (length t - length (fst y)) t) (snd y) (fst y)).
Proof. intros M. destruct t; cbn [exec]; now rewrite M. Qed.

Lemma match_all_from_fuel ic r n :
  forall s f1 f2, length s <= n -> length s < f1 -> length s < f2 ->
    match_all_from ic f1 r s = match_all_from ic f2 r s.
Proof.
  induction n as [|n IH]; intros s f1 f2 Hn H1 H2;
    (destruct f1 as [|f1]; [lia|]); (destruct f2 as [|f2]; [lia|]); simpl;
    destruct (exec ic r s) as [res|] eqn:E; try reflexivity; f_equal;
    apply exec_splits in E; destruct E as [sk E];
    assert (L : length s = length sk + (length (matched res) + length (after res)))
      by (rewrite E at 1; now rewrite !length_app);
    destruct (matched res) as [|a mt]; destruct (after res) as [|b rest];
    simpl in L; try reflexivity; try (exfalso; lia); apply IH; simpl; lia.
Qed.

(** The unfolding of [match_all]: the first match, then the matches of what
    follows it. *)
Lemma match_all_unfold ic r s :
  match_all ic r s =
  match exec ic r s with
  | None => []
  | Some res =>
      matched res ::
      match matched res, after res with
      | [], [] => []
      | [], _ :: s' => match_all ic r s'
      | _ :: _, s' => match_all ic r s'
      end
  end.
Proof.
  unfold match_all at 1. simpl.
  destruct (exec ic r s) as [res|] eqn:E; [|reflexivity]. f_equal.
  apply exec_splits in E. destruct E as [sk E].
  assert (L : length s = length sk + (length (matched res) + length (after res)))
    by (rewrite E at 1; now rewrite !length_app).
  destruct (matched res) as [|a mt]; destruct (after res) as [|b rest];
    simpl in L; try reflexivity; unfold match_all;
    apply match_all_from_fuel with (n := length s); simpl; lia.
Qed.

(** ** Characters *)

Ltac char_facts :=
  unfold class_mem, canonicalize, char_eqb, is_digit, is_line_terminator in *;
  repeat match goal with
         | |- context [(?a <=? ?b)%N] => destruct (N.leb_spec a b)
         | |- context [(?a =? ?b)%N] => destruct (N.eqb_spec a b)
         | H : context [(?a <=? ?b)%N] |- _ => destruct (N.leb_spec a b)
         | H : context [(?a =? ?b)%N] |- _ => destruct (N.eqb_spec a b)
         end;
  simpl in *; try reflexivity; try discriminate; try lia.

Lemma digit_is_no_space ic (d : char) :
  is_digit d = true -> class_mem ic (CChar 32%N) d = false.
Proof. destruct ic; char_facts. Qed.

Lemma class_mem_char ic (l ch : char) :
  class_mem ic (CChar l) ch = true <-> canonicalize ic ch = canonicalize ic l.
Proof. unfold class_mem, char_eqb. apply N.eqb_eq. Qed.

Lemma m_seq ic r1 r2 x c :
  m ic (Seq r1 r2) x c = m ic r1 x (fun y => m ic r2 y c).
Proof. reflexivity. Qed.

Lemma m_group ic i r1 x c :
  m ic (Group i r1) x c =
  m ic r1 x (fun y =>
    c (fst y, (i, firstn (length (fst x) - length (fst y)) (fst x)) :: snd y)).
Proof. reflexivity. Qed.

(** ** Literal pattern text *)

Lemma m_literal ic L : forall s caps c,
  m ic (literal L) (s, caps) c =
  if literal_prefix ic L s then c (skipn (length L) s, caps) else None.
Proof.
  induction L as [|l L IH]; intros s caps c; simpl.
  - reflexivity.
  - destruct s as [|ch s]; [reflexivity|].
    fold (class_mem ic (CChar l) ch).
    destruct (class_mem ic (CChar l) ch); simpl; [apply IH | reflexivity].
Qed.

Lemma literal_prefix_app ic L w rest :
  same_text ic w L ->
  literal_prefix ic L (w ++ rest) = true /\ skipn (length L) (w ++ rest) = rest.
Proof.
  induction 1 as [|ch l w L Hc Hw [E1 E2]]; simpl.
  - now split.
  - rewrite E1, E2. split; [|reflexivity].
    rewrite andb_true_r. now apply class_mem_char.
Qed.

Lemma literal_prefix_inv ic L : forall s,
  literal_prefix ic L s = true ->
  exists w, same_text ic w L /\ s = w ++ skipn (length L) s.
Proof.
  induction L as [|l L IH]; intros s H; simpl in *.
  - exists []. split; [constructor | reflexivity].
  - destruct s as [|ch s]; [discriminate|].
    apply andb_true_iff in H. destruct H as [H1 H2].
    destruct (IH s H2) as (w & Hw & E).
    exists (ch :: w). split.
    + constructor; [now apply class_mem_char | exact Hw].
    + simpl. now f_equal.
Qed.

(** ** A quantified character class *)

Lemma star_atom_nil ic cl caps c :
  m ic (Star (Atom cl)) ([], caps) c = c ([], caps).
Proof. reflexivity. Qed.

Lemma star_atom_cons ic cl ch rest caps c :
  m ic (Star (Atom cl)) (ch :: rest, caps) c =
  if class_mem ic cl ch then
    match m ic (Star (Atom cl)) (rest, caps) c with
    | Some z => Some z
    | None => c (ch :: rest, caps)
    end
  else c (ch :: rest, caps).
Proof.
  cbn [m]. cbn [fst length groups]. cbn [repeat_matcher].
  rewrite clear_captures_nil. cbn [m fst snd].
  destruct (class_mem ic cl ch); [|reflexivity].
  unfold advanced. cbn [fst length].
  now rewrite (proj2 (Nat.ltb_lt _ _) (Nat.lt_succ_diag_r (length rest))).
Qed.

Lemma plus_atom ic cl s caps c :
  m ic (Plus (Atom cl)) (s, caps) c =
  match s with
  | ch :: rest => if class_mem ic cl ch then m ic (Star (Atom cl)) (rest, caps) c else None
  | [] => None
  end.
Proof.
  cbn [m groups]. rewrite clear_captures_nil. cbn [m fst snd].
  destruct s as [|ch rest]; [reflexivity|].
  destruct (class_mem ic cl ch); reflexivity.
Qed.

Lemma opt_atom ic cl s caps c :
  m ic (Opt (Atom cl)) (s, caps) c =
  match s with
  | ch :: rest =>
      if class_mem ic cl ch then
        match c (rest, caps) with
        | Some z => Some z
        | None => c (s, caps)
        end
      else c (s, caps)
  | [] => c (s, caps)
  end.
Proof.
  cbn [m groups]. rewrite clear_captures_nil. cbn [m fst snd].
  destruct s as [|ch rest]; [reflexivity|].
  destruct (class_mem ic cl ch); [|reflexivity].
  unfold advanced. cbn [fst length].
  now rewrite (proj2 (Nat.ltb_lt _ _) (Nat.lt_succ_diag_r (length rest))).
Qed.

(** ** Patterns of the shape [(\d+)<phrase>] *)

Lemma take_drop_while (p : char -> bool) (s : jsstring) :
  s = take_while p s ++ drop_while p s.
Proof.
  induction s as [|ch s IH]; simpl; [reflexivity|].
  destruct (p ch); simpl; [now f_equal | reflexivity].
Qed.

Lemma take_while_all (p : char -> bool) (s : jsstring) :
  Forall (fun c => p c = true) (take_while p s).
Proof.
  induction s as [|ch s IH]; simpl; [constructor|].
  destruct (p ch) eqn:E; constructor; assumption.
Qed.

Lemma drop_while_head (s : jsstring) : no_digit_head (drop_while is_digit s).
Proof.
  induction s as [|ch s IH]; simpl; [exact I|].
  destruct (is_digit ch) eqn:E; [exact IH | exact E].
Qed.

(** A run of digits before something that is no digit: the greedy [\d*]
    takes the whole run when the continuation accepts there, and also when
    the continuation refuses every state that begins with a digit. *)
Lemma star_digits ic (K : continuation) ds t caps :
  Forall (fun c => is_digit c = true) ds -> no_digit_head t ->
  (K (t, caps) = None -> forall d t', is_digit d = true -> K (d :: t', caps) = None) ->
  m ic (Star (Atom CDigit)) (ds ++ t, caps) K = K (t, caps).
Proof.
  intros Hds Ht HK. induction Hds as [|d ds Hd Hds IH]; simpl app.
  - destruct t as [|ch t]; [apply star_atom_nil|].
    rewrite star_atom_cons. simpl in Ht. cbn [class_mem]. now rewrite Ht.
  - rewrite star_atom_cons. cbn [class_mem]. rewrite Hd, IH.
    destruct (K (t, caps)) eqn:E; [reflexivity|]. now apply HK.
Qed.

Section CountedPhrase.

Variable ic : bool.
Variable tail : regex.
Variable phrase : jsstring -> Prop.

(** The rest of the pattern never matches at a digit. *)
Hypothesis tail_no_digit : forall d t caps c,
  is_digit d = true -> m ic tail (d :: t, caps) c = None.

(** The rest of the pattern matches the phrase, and nothing else. *)
Hypothesis tail_spec : forall t caps y,
  m ic tail (t, caps) (fun y => Some y) = Some y <->
  exists w, phrase w /\ t = w ++ fst y /\ snd y = caps.

Hypothesis phrase_no_digit : forall w rest, phrase w -> no_digit_head (w ++ rest).

Lemma counted_at_digits ds t :
  number_text ds -> no_digit_head t ->
  match_here ic (counted tail) (ds ++ t) =
  m ic tail (t, [(1, ds)]) (fun y => Some y).
Proof.
  intros [Hne Hds] Ht. destruct ds as [|d ds]; [contradiction|].
  inversion Hds as [|? ? Hd Hds']; subst.
  unfold match_here, counted. rewrite m_seq, m_group, plus_atom. simpl app.
  cbn [class_mem]. rewrite Hd.
  rewrite star_digits; try assumption.
  - cbn [fst snd].
    replace (d :: ds ++ t) with ((d :: ds) ++ t) by reflexivity.
    now rewrite firstn_length_diff.
  - intros _ d' t' Hd'. cbn [fst]. now apply tail_no_digit.
Qed.

Lemma counted_not_at_digit s :
  no_digit_head s -> match_here ic (counted tail) s = None.
Proof.
  intros Hs. unfold match_here, counted. rewrite m_seq, m_group, plus_atom.
  destruct s as [|ch s]; [reflexivity|]. simpl in Hs. cbn [class_mem]. now rewrite Hs.
Qed.

(** At an occurrence the pattern matches it, and captures its number. *)
Lemma counted_matches_occurrence ds w rest :
  number_text ds -> phrase w ->
  match_here ic (counted tail) (ds ++ w ++ rest) = Some (rest, [(1, ds)]).
Proof.
  intros Hds Hw. rewrite counted_at_digits; [|assumption|now apply phrase_no_digit].
  apply tail_spec. exists w. now repeat split.
Qed.

(** Where the pattern matches, an occurrence begins. *)
Lemma counted_match_inv s y :
  match_here ic (counted tail) s = Some y ->
  exists ds w, s = ds ++ w ++ fst y /\ number_text ds /\ phrase w /\ snd y = [(1, ds)].
Proof.
  intros H. pose proof (take_drop_while is_digit s) as E.
  destruct (take_while is_digit s) as [|d ds] eqn:T.
  - simpl in E. rewrite counted_not_at_digit in H; [discriminate|].
    rewrite E. apply drop_while_head.
  - assert (N : number_text (d :: ds)).
    { split; [discriminate|]. rewrite <- T. apply take_while_all. }
    rewrite E, counted_at_digits in H; [|exact N|apply drop_while_head].
    apply tail_spec in H. destruct H as (w & Hw & Ht & Hc).
    exists (d :: ds), w. repeat split; try assumption; try apply N.
    rewrite E at 1. now rewrite Ht.
Qed.

Lemma counted_no_occurrence s :
  ~ occurrence_at phrase s -> match_here ic (counted tail) s = None.
Proof.
  intros Hs. destruct (match_here ic (counted tail) s) as [y|] eqn:E; [|reflexivity].
  exfalso. apply Hs. apply counted_match_inv in E.
  destruct E as (ds & w & E & Hds & Hw & _). now exists ds, w, (fst y).
Qed.

(** The search skips a stretch in which no occurrence begins. *)
Lemma exec_skips_free g t :
  free_of phrase g t -> exec ic (counted tail) (g ++ t) = exec ic (counted tail) t.
Proof.
  induction g as [|ch g IH]; intros Hfree; [reflexivity|].
  simpl app. cbn [exec].
  rewrite counted_no_occurrence.
  - apply IH. intros a b E Hb. apply (Hfree (ch :: a) b); [simpl; now f_equal | exact Hb].
  - apply (Hfree [] (ch :: g)); [reflexivity | discriminate].
Qed.

Lemma exec_nothing s :
  free_of phrase s [] -> exec ic (counted tail) s = None.
Proof.
  intros Hfree. rewrite <- (app_nil_r s). rewrite exec_skips_free by assumption.
  cbn [exec]. now rewrite counted_not_at_digit.
Qed.

(** The first thing the search finds is the first occurrence. *)
Lemma exec_first_occurrence g ds w rest :
  free_of phrase g (ds ++ w ++ rest) -> number_text ds -> phrase w ->
  exec ic (counted tail) (g ++ ds ++ w ++ rest) = Some (mkMatch (ds ++ w) [(1, ds)] rest).
Proof.
  intros Hfree Hds Hw. rewrite exec_skips_free by assumption.
  assert (E := counted_matches_occurrence _ _ rest Hds Hw).
  destruct (ds ++ w ++ rest) as [|ch s'] eqn:S; cbn [exec]; rewrite E; cbn [fst snd];
    rewrite <- S, app_assoc, firstn_length_diff; reflexivity.
Qed.

(** The global search finds the occurrences, each one as its text. *)
Lemma match_all_occurrences s ns :
  occurrences phrase s ns ->
  exists ms, match_all ic (counted tail) s = ms /\
    Forall2 (fun mt n => exists ds w,
               mt = ds ++ w /\ number_text ds /\ phrase w /\ n = decimal_value ds) ms ns.
Proof.
  induction 1 as [s Hfree | g ds w rest ns Hfree Hds Hw Hrest [ms [E IH]]].
  - exists []. split; [|constructor].
    rewrite match_all_unfold. now rewrite exec_nothing.
  - exists ((ds ++ w) :: ms). split.
    + rewrite match_all_unfold, exec_first_occurrence by assumption.
      cbn [matched after]. destruct Hds as [Hne _].
      destruct ds as [|d ds]; [contradiction|]. simpl app. now rewrite E.
    + constructor; [|exact IH]. now exists ds, w.
Qed.

(** A stretch in which the matcher finds nothing holds no occurrence. *)
Lemma unmatched_is_free g t :
  (forall a b, g = a ++ b -> b <> [] -> match_here ic (counted tail) (b ++ t) = None) ->
  free_of phrase g t.
Proof.
  intros H a b E Hb (ds & w & rest & Eo & Hds & Hw).
  specialize (H a b E Hb).
  rewrite Eo, (counted_matches_occurrence _ _ rest Hds Hw) in H. discriminate.
Qed.

Lemma no_match_inside_free g t :
  no_match_inside ic (counted tail) g t = true -> free_of phrase g t.
Proof.
  intros H. apply unmatched_is_free. revert H.
  induction g as [|ch g IH]; intros H a b E Hb.
  - symmetry in E. apply app_eq_nil in E. destruct E as [_ ->]. now elim Hb.
  - cbn [no_match_inside] in H.
    destruct (match_here ic (counted tail) ((ch :: g) ++ t)) as [y|] eqn:M; [discriminate|].
    destruct a as [|x a]; simpl in E.
    + now subst b.
    + injection E as _ E. exact (IH H a b E Hb).
Qed.

(** Every text is read as a sequence of occurrences. *)
Lemma occurrences_total s : exists ns, occurrences phrase s ns.
Proof.
  remember (length s) as n eqn:L. revert s L.
  induction n as [n IH] using lt_wf_ind. intros s L.
  destruct (exec ic (counted tail) s) as [res|] eqn:E.
  - apply exec_some_inv in E.
    destruct E as (g & t & y & Es & M & _ & Hg).
    apply counted_match_inv in M. destruct M as (ds & w & Et & Hds & Hw & _).
    destruct (IH (length (fst y))) with (s := fst y) as [ns Hns]; [|reflexivity|].
    + subst n. rewrite Es, Et, !length_app. destruct Hds as [Hne _].
      destruct ds; [contradiction|]. simpl. lia.
    + exists (decimal_value ds :: ns). rewrite Es, Et.
      apply occurrences_next; try assumption.
      rewrite <- Et. now apply unmatched_is_free.
  - exists []. apply occurrences_none. apply unmatched_is_free.
    intros a b Es _. rewrite app_nil_r. eapply exec_none_inv; eassumption.
Qed.

End CountedPhrase.

(** ** The two counting patterns *)

Lemma same_text_false w L : same_text false w L <-> w = L.
Proof.
  split.
  - induction 1 as [|ch l w L Hc Hw IH]; [reflexivity|].
    unfold canonicalize in Hc. simpl in Hc. now subst.
  - intros ->. induction L; constructor; [reflexivity | assumption].
Qed.

Lemma same_text_app ic w1 L1 w2 L2 :
  same_text ic w1 L1 -> same_text ic w2 L2 -> same_text ic (w1 ++ w2) (L1 ++ L2).
Proof. apply Forall2_app. Qed.

Lemma space_headed_no_digit ic w L rest :
  same_text ic w (32%N :: L) -> no_digit_head (w ++ rest).
Proof.
  intros H. inversion H as [|ch l w' L' Hc Hw]; subst. simpl.
  destruct (is_digit ch) eqn:E; [|reflexivity].
  apply class_mem_char in Hc. now rewrite (digit_is_no_space ic _ E) in Hc.
Qed.

Lemma literal_at_digit ic L r d t caps c :
  is_digit d = true -> m ic (Seq (literal (32%N :: L)) r) (d :: t, caps) c = None.
Proof.
  intros Hd. rewrite m_seq, m_literal. cbn [literal_prefix].
  now rewrite (digit_is_no_space ic _ Hd).
Qed.

Lemma issues_tail_no_digit d t caps c :
  is_digit d = true -> m true issues_tail (d :: t, caps) c = None.
Proof. apply literal_at_digit. Qed.

Lemma issue_phrase_no_digit w rest : issue_phrase w -> no_digit_head (w ++ rest).
Proof. intros [H|H]; exact (space_headed_no_digit _ _ _ rest H). Qed.

Lemma space_is_no_s (x : char) :
  canonicalize true x = canonicalize true 32%N -> class_mem true (CChar 115%N) x = false.
Proof. char_facts. Qed.

Lemma issues_tail_spec t caps y :
  m true issues_tail (t, caps) (fun y => Some y) = Some y <->
  exists w, issue_phrase w /\ t = w ++ fst y /\ snd y = caps.
Proof.
  unfold issues_tail. rewrite m_seq, m_literal. split.
  - destruct (literal_prefix true (lit " issue") t) eqn:P; [|discriminate].
    apply literal_prefix_inv in P. destruct P as (w1 & Hw1 & E1).
    remember (skipn (length (lit " issue")) t) as u eqn:U. clear U.
    rewrite m_seq, opt_atom. intros H.
    assert (F : forall v z, m true (literal (lit " found")) (v, caps) (fun y => Some y) = Some z ->
                exists w2, same_text true w2 (lit " found") /\ v = w2 ++ fst z /\ snd z = caps).
    { intros v z Hz. rewrite m_literal in Hz.
      destruct (literal_prefix true (lit " found") v) eqn:P; [|discriminate].
      injection Hz as <-. apply literal_prefix_inv in P.
      destruct P as (w2 & Hw2 & E2). now exists w2. }
    destruct u as [|ch u'].
    + apply F in H. destruct H as (w2 & Hw2 & E2 & Hc).
      exists (w1 ++ w2). split; [left; exact (same_text_app _ _ _ _ _ Hw1 Hw2)|].
      split; [|exact Hc]. now rewrite E1, E2, app_assoc.
    + destruct (class_mem true (CChar 115%N) ch) eqn:S.
      * destruct (m true (literal (lit " found")) (u', caps) _) as [z|] eqn:M.
        -- injection H as <-. apply F in M. destruct M as (w2 & Hw2 & E2 & Hc).
           exists (w1 ++ ch :: w2). split.
           ++ right. apply (same_text_app _ _ _ _ (115%N :: lit " found") Hw1).
              constructor; [now apply class_mem_char | exact Hw2].
           ++ split; [|exact Hc]. rewrite E1, E2, <- app_assoc. reflexivity.
        -- apply F in H. destruct H as (w2 & Hw2 & E2 & Hc).
           exists (w1 ++ w2). split; [left; exact (same_text_app _ _ _ _ _ Hw1 Hw2)|].
           split; [|exact Hc]. now rewrite E1, E2, app_assoc.
      * apply F in H. destruct H as (w2 & Hw2 & E2 & Hc).
        exists (w1 ++ w2). split; [left; exact (same_text_app _ _ _ _ _ Hw1 Hw2)|].
        split; [|exact Hc]. now rewrite E1, E2, app_assoc.
  - intros (w & Hw & E & Hc). destruct y as [rest caps']. simpl in E, Hc. subst.
    assert (F : forall w2, same_text true w2 (lit " found") ->
                m true (literal (lit " found")) (w2 ++ rest, caps) (fun y => Some y)
                = Some (rest, caps)).
    { intros w2 Hw2. rewrite m_literal.
      destruct (literal_prefix_app _ _ _ rest Hw2) as [-> ->]. reflexivity. }
    destruct Hw as [Hw|Hw].
    + apply (Forall2_app_inv_r (lit " issue") (lit " found")) in Hw.
      destruct Hw as (w1 & w2 & Hw1 & Hw2 & ->). rewrite <- app_assoc.
      destruct (literal_prefix_app _ _ _ (w2 ++ rest) Hw1) as [-> ->].
      rewrite m_seq, opt_atom.
      inversion Hw2 as [|x l w2' L' Hx Hw2']; subst. cbn [app].
      rewrite (space_is_no_s _ Hx). now apply (F (x :: w2')).
    + apply (Forall2_app_inv_r (lit " issue") (lit "s found")) in Hw.
      destruct Hw as (w1 & w2 & Hw1 & Hw2 & ->). rewrite <- app_assoc.
      destruct (literal_prefix_app _ _ _ (w2 ++ rest) Hw1) as [-> ->].
      rewrite m_seq, opt_atom.
      inversion Hw2 as [|x l w2' L' Hx Hw2']; subst. cbn [app].
      apply class_mem_char in Hx. rewrite Hx.
      now rewrite (F w2' Hw2').
Qed.

Lemma take_while_digits ds rest :
  Forall (fun c => is_digit c = true) ds -> no_digit_head rest ->
  take_while is_digit (ds ++ rest) = ds.
Proof.
  intros Hds Hrest. induction Hds as [|d ds Hd Hds IH]; cbn [app take_while].
  - destruct rest as [|ch rest]; [reflexivity|]. cbn [no_digit_head] in Hrest.
    cbn [take_while]. now rewrite Hrest.
  - now rewrite Hd, IH.
Qed.

Lemma is_digit_range (d : char) : is_digit d = true <-> (48 <= d <= 57)%N.
Proof. unfold is_digit. rewrite andb_true_iff, !N.leb_le. reflexivity. Qed.

Ltac decide_tests :=
  repeat match goal with
         | |- context [(?a =? ?b)%N] =>
             rewrite (proj2 (N.eqb_neq a b)) by lia
         | |- context [(?a <=? ?b)%N] =>
             first [ rewrite (proj2 (N.leb_le a b)) by lia
                   | rewrite (proj2 (N.leb_gt a b)) by lia ]
         end.

Lemma digit_is_plain (d : char) :
  is_digit d = true ->
  is_white_space d = false /\ char_eqb 45%N d = false /\ char_eqb 43%N d = false /\
  char_eqb 120%N d = false /\ char_eqb 88%N d = false.
Proof.
  intros H. apply is_digit_range in H.
  unfold is_white_space, is_line_terminator, char_eqb.
  repeat split; decide_tests; reflexivity.
Qed.

(** *** Numbers *)

Lemma double_of_Z_exact z : (Z.abs z <= two53)%Z -> double_of_Z z = Num z.
Proof.
  intros H. apply Z.leb_le in H. unfold double_of_Z. cbv zeta. now rewrite H.
Qed.

(** What is kept of a large integer is positive. *)
Lemma significand_positive a :
  (two53 < a)%Z ->
  let e := (Z.log2 a - 52)%Z in
  (0 < e /\ 0 < 2 ^ e /\ 1 <= a / 2 ^ e)%Z.
Proof.
  intros Ha e. assert (L : (53 <= Z.log2 a)%Z).
  { change 53%Z with (Z.log2 two53). apply Z.log2_le_mono. lia. }
  assert (He : (0 < e)%Z) by (unfold e; lia).
  assert (P : (0 < 2 ^ e)%Z) by (apply Z.pow_pos_nonneg; lia).
  repeat split; try assumption.
  assert (B : (2 ^ e <= a)%Z).
  { transitivity (2 ^ Z.log2 a)%Z.
    - apply Z.pow_le_mono_r; unfold e; lia.
    - apply Z.log2_spec. unfold two53 in Ha. lia. }
  apply Z.div_le_lower_bound; lia.
Qed.

(** The Number value for an integer is positive exactly when the integer
    is. *)
Lemma double_of_Z_positive z : num_gt (double_of_Z z) (Num 0) = (0 <? z)%Z.
Proof.
  unfold double_of_Z. cbv zeta.
  destruct (Z.abs z <=? two53)%Z eqn:B; [reflexivity|].
  apply Z.leb_gt in B.
  destruct (significand_positive (Z.abs z) B) as (He & P & Q).
  set (e := (Z.log2 (Z.abs z) - 52)%Z) in *.
  match goal with
  | |- context [if ?c then (?q + 1)%Z else ?q] => set (q' := if c then (q + 1)%Z else q)
  end.
  assert (Q' : (0 < q' * 2 ^ e)%Z).
  { apply Z.mul_pos_pos; [|exact P]. unfold q'.
    match goal with |- context [if ?c then _ else _] => destruct c end; lia. }
  assert (Z0 : z <> 0%Z) by (unfold two53 in B; lia).
  destruct (2 ^ 1024 <=? q' * 2 ^ e)%Z.
  - cbn [num_gt]. destruct (Z.ltb_spec z 0), (Z.ltb_spec 0 z); try reflexivity; lia.
  - cbn [num_gt].
    destruct (Z.ltb_spec 0 (Z.sgn z * (q' * 2 ^ e))), (Z.ltb_spec 0 z);
      try reflexivity; exfalso; nia.
Qed.

Lemma double_of_Z_not_negative z : (0 <= z)%Z -> not_negative (double_of_Z z).
Proof.
  intros Hz. unfold double_of_Z. cbv zeta.
  destruct (Z.abs z <=? two53)%Z eqn:B; [exact Hz|].
  apply Z.leb_gt in B.
  destruct (significand_positive (Z.abs z) B) as (He & P & Q).
  set (e := (Z.log2 (Z.abs z) - 52)%Z) in *.
  match goal with
  | |- context [if ?c then (?q + 1)%Z else ?q] => set (q' := if c then (q + 1)%Z else q)
  end.
  assert (Q' : (0 < q' * 2 ^ e)%Z).
  { apply Z.mul_pos_pos; [|exact P]. unfold q'.
    match goal with |- context [if ?c then _ else _] => destruct c end; lia. }
  destruct (2 ^ 1024 <=? q' * 2 ^ e)%Z; cbn [not_negative].
  - apply Z.ltb_ge. exact Hz.
  - nia.
Qed.

(** Adding numbers that are not negative gives one that is not negative, and
    a positive one as soon as one of them is positive. *)
Lemma num_add_not_negative a b :
  not_negative a -> not_negative b ->
  not_negative (num_add a b) /\
  num_gt (num_add a b) (Num 0) = num_gt a (Num 0) || num_gt b (Num 0).
Proof.
  destruct a as [|[|]|x], b as [|[|]|y]; cbn [not_negative num_add Bool.eqb];
    try contradiction; try discriminate; intros Ha Hb;
    try (split; reflexivity); try (split; [reflexivity|]; cbn [num_gt]; now rewrite orb_true_r).
  split; [apply double_of_Z_not_negative; lia|].
  rewrite double_of_Z_positive. cbn [num_gt].
  destruct (Z.ltb_spec 0 (x + y)), (Z.ltb_spec 0 x), (Z.ltb_spec 0 y);
    try reflexivity; lia.
Qed.

Lemma Number_sum_from_not_negative ns : forall total,
  not_negative total -> Forall (fun n => (0 <= n)%Z) ns ->
  not_negative (fold_left (fun total n => num_add total (double_of_Z n)) ns total) /\
  num_gt (fold_left (fun total n => num_add total (double_of_Z n)) ns total) (Num 0)
  = num_gt total (Num 0) || (0 <? sum ns)%Z.
Proof.
  induction ns as [|n ns IH]; intros total Ht Hns; cbn [fold_left sum fold_right].
  - split; [exact Ht | now rewrite orb_false_r].
  - apply Forall_cons_iff in Hns. destruct Hns as [Hn Hns].
    destruct (num_add_not_negative total (double_of_Z n) Ht
                (double_of_Z_not_negative n Hn)) as [A1 A2].
    destruct (IH _ A1 Hns) as [B1 B2]. split; [exact B1|].
    rewrite B2, A2, double_of_Z_positive. fold (sum ns).
    assert (S : (0 <= sum ns)%Z).
    { clear -Hns. induction Hns; simpl; lia. }
    destruct (num_gt total (Num 0)); cbn [orb]; [reflexivity|].
    destruct (Z.ltb_spec 0 n), (Z.ltb_spec 0 (sum ns)), (Z.ltb_spec 0 (n + sum ns));
      try reflexivity; lia.
Qed.

(** Up to 2^53 the program's sum is the sum. *)
Lemma Number_sum_from_exact ns : forall total,
  (0 <= total)%Z -> Forall (fun n => (0 <= n)%Z) ns -> (total + sum ns <= two53)%Z ->
  fold_left (fun total n => num_add total (double_of_Z n)) ns (Num total)
  = Num (total + sum ns).
Proof.
  induction ns as [|n ns IH]; intros total Ht Hns B; cbn [fold_left sum fold_right] in *.
  - now rewrite Z.add_0_r.
  - apply Forall_cons_iff in Hns. destruct Hns as [Hn Hns].
    assert (S : (0 <= sum ns)%Z).
    { clear -Hns. induction Hns; simpl; lia. }
    fold (sum ns) in B.
    rewrite (double_of_Z_exact n) by lia. cbn [num_add].
    rewrite (double_of_Z_exact (total + n)) by lia.
    rewrite IH by (try assumption; lia). fold (sum ns). f_equal. lia.
Qed.

Lemma decimal_value_nonneg ds :
  Forall (fun c => is_digit c = true) ds -> (0 <= decimal_value ds)%Z.
Proof.
  unfold decimal_value. assert (G : forall acc, (0 <= acc)%Z ->
    Forall (fun c => is_digit c = true) ds ->
    (0 <= fold_left (fun acc d => 10 * acc + digit_value d) ds acc)%Z).
  { induction ds as [|d ds IH]; intros acc Hacc Hds; [exact Hacc|].
    inversion Hds as [|? ? Hd Hds']; subst. cbn [fold_left]. apply IH; [|exact Hds'].
    apply is_digit_range in Hd. unfold digit_value. lia. }
  apply G. lia.
Qed.

Lemma occurrences_nonneg phrase text ns :
  occurrences phrase text ns -> Forall (fun n => (0 <= n)%Z) ns.
Proof.
  induction 1 as [|g ds w rest ns _ [_ Hds] _ _ IH]; constructor; [|exact IH].
  now apply decimal_value_nonneg.
Qed.

(** [parseInt] of a run of digits is the Number value for the integer the
    run denotes. *)
Lemma parseInt_number_text ds :
  number_text ds -> parseInt ds = double_of_Z (decimal_value ds).
Proof.
  intros [Hne Hds]. destruct ds as [|d ds]; [contradiction|].
  inversion Hds as [|? ? Hd Hds']; subst.
  destruct (digit_is_plain _ Hd) as (W & M & P & _).
  unfold parseInt. cbn [trimStart]. rewrite W.
  change (lit "-") with [45%N]. change (lit "+") with [43%N].
  change (lit "0x") with [48%N; 120%N]. change (lit "0X") with [48%N; 88%N].
  cbn [startsWith]. rewrite M, P. cbn [andb orb].
  assert (X : forall c, (char_eqb 48%N d &&
                match ds with [] => false | y :: _ => char_eqb c y && true end) = false
              \/ (c <> 120%N /\ c <> 88%N)).
  { intros c. destruct ds as [|y ds']; [left; apply andb_false_r|].
    destruct (N.eq_dec c 120%N) as [->|N1].
    - left. inversion Hds' as [|? ? Hy _]; subst.
      destruct (digit_is_plain _ Hy) as (_ & _ & _ & X1 & _).
      rewrite X1. apply andb_false_r.
    - destruct (N.eq_dec c 88%N) as [->|N2]; [|now right].
      left. inversion Hds' as [|? ? Hy _]; subst.
      destruct (digit_is_plain _ Hy) as (_ & _ & _ & _ & X2).
      rewrite X2. apply andb_false_r. }
  destruct (X 120%N) as [-> | [? _]]; [|congruence].
  destruct (X 88%N) as [-> | [_ ?]]; [|congruence].
  cbn [orb].
  rewrite <- (app_nil_r (d :: ds)) at 1.
  rewrite take_while_digits by (assumption || exact I).
  now rewrite Z.mul_1_l.
Qed.

(** [/\d+/] on a text that begins with a number finds that number. *)
Lemma digits_of_match_text ds w :
  number_text ds -> no_digit_head w ->
  str_match (ds ++ w) digits_re = Some (mkMatch ds [] w).
Proof.
  intros [Hne Hds] Hw. destruct ds as [|d ds]; [contradiction|].
  inversion Hds as [|? ? Hd Hds']; subst.
  unfold str_match, digits_re. cbn [pattern flag_i]. simpl app. cbn [exec].
  unfold match_here. rewrite plus_atom. cbn [class_mem]. rewrite Hd.
  rewrite star_digits by (assumption || discriminate). cbn [fst snd].
  replace (d :: ds ++ w) with ((d :: ds) ++ w) by reflexivity.
  now rewrite firstn_length_diff.
Qed.

Lemma issues_match_all s ns :
  occurrences issue_phrase s ns ->
  exists ms, match_all true (counted issues_tail) s = ms /\
    Forall2 (fun mt n => exists ds w,
               mt = ds ++ w /\ number_text ds /\ issue_phrase w /\ n = decimal_value ds) ms ns.
Proof.
  apply match_all_occurrences.
  - exact issues_tail_no_digit.
  - exact issues_tail_spec.
  - exact issue_phrase_no_digit.
Qed.

(** The loop of [getNumberOfAnalysisIssue] adds up the numbers of the
    matched texts. *)
Lemma issue_loop_sums ms ns :
  Forall2 (fun mt n => exists ds w,
             mt = ds ++ w /\ number_text ds /\ issue_phrase w /\ n = decimal_value ds) ms ns ->
  forall total,
    fold_left
      (fun totalIssues mt =>
         match str_match mt digits_re with
         | Some cm => num_add totalIssues (parseInt_opt (match_get cm 0))
         | None => totalIssues
         end) ms total
    = fold_left (fun total n => num_add total (double_of_Z n)) ns total.
Proof.
  induction 1 as [|mt n ms ns (ds & w & -> & Hds & Hw & ->) _ IH]; intros total;
    cbn [fold_left]; [reflexivity|].
  rewrite <- (app_nil_r w), digits_of_match_text;
    [|assumption|apply (issue_phrase_no_digit _ [] Hw)].
  cbn [match_get matched parseInt_opt]. rewrite parseInt_number_text by assumption.
  apply IH.
Qed.

Lemma issue_total_of_reading text ns :
  occurrences issue_phrase text ns -> getNumberOfAnalysisIssue text = Number_sum ns.
Proof.
  intros H. apply issues_match_all in H. destruct H as (ms & E & F).
  unfold getNumberOfAnalysisIssue, str_match_g, issues_found_re. cbn [pattern flag_i].
  rewrite E. destruct ms as [|mt ms].
  - inversion F. reflexivity.
  - now rewrite (issue_loop_sums _ _ F (Num 0)).
Qed.

(** C1, amended. Read from the left, when the text holds exactly the
    occurrences of "<n> issue(s) found" (one or more digits, the phrase in
    any case of its letters, singular or plural) with the numbers [ns], then
    [getNumberOfAnalysisIssue] returns the sum of [ns] as JavaScript adds
    Numbers: each number as the nearest double, added from the left with
    rounding.  That is the sum of [ns] whenever this sum is at most 2^53; in
    particular it is 0 when the text holds no occurrence ([ns] empty). *)
Theorem getNumberOfAnalysisIssue_sums_occurrences (output : jsstring) (ns : list Z) :
  occurrences issue_phrase output ns ->
  getNumberOfAnalysisIssue output = Number_sum ns /\
  ((sum ns <= two53)%Z -> getNumberOfAnalysisIssue output = Num (sum ns)).
Proof.
  intros H. split; [now apply issue_total_of_reading|]. intros B.
  rewrite (issue_total_of_reading _ _ H). unfold Number_sum.
  apply (Number_sum_from_exact ns 0); [lia | | exact B].
  exact (occurrences_nonneg _ _ _ H).
Qed.

(** Every text has a reading as occurrences of "<n> issue(s) found". *)
Lemma issue_occurrences_total s : exists ns, occurrences issue_phrase s ns.
Proof.
  apply occurrences_total with (ic := true) (tail := issues_tail).
  - exact issues_tail_no_digit.
  - exact issues_tail_spec.
  - exact issue_phrase_no_digit.
Qed.

Lemma issue_free_by_matching g t :
  no_match_inside true (counted issues_tail) g t = true -> free_of issue_phrase g t.
Proof.
  apply no_match_inside_free.
  - exact issues_tail_no_digit.
  - exact issues_tail_spec.
  - exact issue_phrase_no_digit.
Qed.

Lemma number_text_by_test ds :
  ds <> [] -> forallb is_digit ds = true -> number_text ds.
Proof. intros H1 H2. split; [exact H1 | now apply Forall_forall, forallb_forall]. Qed.

Lemma getNumberOfAnalysisIssue_sums_occurrences_witness :
  getNumberOfAnalysisIssue
    (lit "info - 12 issues found. (ran in 2s); 1 ISSUE found; 3 issue founds")
  = Number_sum [12; 1; 3]%Z /\
  getNumberOfAnalysisIssue
    (lit "info - 12 issues found. (ran in 2s); 1 ISSUE found; 3 issue founds")
  = Num (sum [12; 1; 3]%Z).
Proof.
  enough (H : occurrences issue_phrase
                (lit "info - 12 issues found. (ran in 2s); 1 ISSUE found; 3 issue founds")
                [12; 1; 3]%Z).
  { destruct (getNumberOfAnalysisIssue_sums_occurrences _ _ H) as [E1 E2].
    split; [exact E1 | apply E2; vm_compute; discriminate]. }
  apply (occurrences_next issue_phrase (lit "info - ") (lit "12") (lit " issues found")
           (lit ". (ran in 2s); 1 ISSUE found; 3 issue founds") [1; 3]%Z).
  - apply issue_free_by_matching. vm_compute. reflexivity.
  - apply number_text_by_test; [discriminate | reflexivity].
  - right. repeat constructor.
  - apply (occurrences_next issue_phrase (lit ". (ran in 2s); ") (lit "1") (lit " ISSUE found")
             (lit "; 3 issue founds") [3]%Z).
    + apply issue_free_by_matching. vm_compute. reflexivity.
    + apply number_text_by_test; [discriminate | reflexivity].
    + left. repeat constructor.
    + apply (occurrences_next issue_phrase (lit "; ") (lit "3") (lit " issue found")
               (lit "s") []).
      * apply issue_free_by_matching. vm_compute. reflexivity.
      * apply number_text_by_test; [discriminate | reflexivity].
      * left. repeat constructor.
      * apply occurrences_none. apply issue_free_by_matching. vm_compute. reflexivity.
Defined.

(** C1, as stated, fails from 2^53 on: the text holds the numbers 2^53 and
    1, and what is returned is 2^53, not their sum. *)
Lemma getNumberOfAnalysisIssue_rounds_the_sum :
  occurrences issue_phrase (lit "9007199254740992 issues found 1 issue found")
    [9007199254740992; 1]%Z /\
  getNumberOfAnalysisIssue (lit "9007199254740992 issues found 1 issue found")
  = Num 9007199254740992 /\
  getNumberOfAnalysisIssue (lit "9007199254740992 issues found 1 issue found")
  <> Num (sum [9007199254740992; 1]%Z).
Proof.
  split; [|split; [vm_compute; reflexivity | vm_compute; discriminate]].
  apply (occurrences_next issue_phrase [] (lit "9007199254740992") (lit " issues found")
           (lit " 1 issue found") [1]%Z).
  - apply issue_free_by_matching. vm_compute. reflexivity.
  - apply number_text_by_test; [discriminate | reflexivity].
  - right. repeat constructor.
  - apply (occurrences_next issue_phrase (lit " ") (lit "1") (lit " issue found") [] []).
    + apply issue_free_by_matching. vm_compute. reflexivity.
    + apply number_text_by_test; [discriminate | reflexivity].
    + left. repeat constructor.
    + apply occurrences_none. apply issue_free_by_matching. vm_compute. reflexivity.
Qed.

(** *** [countNotSupportedPackages] *)

Lemma not_supported_no_digit d t caps c :
  is_digit d = true -> m false (literal not_supported_text) (d :: t, caps) c = None.
Proof.
  intros Hd. rewrite m_literal.
  change not_supported_text with (32%N :: lit "packages doesn't support").
  cbn [literal_prefix]. now rewrite (digit_is_no_space false _ Hd).
Qed.

Lemma not_supported_spec t caps y :
  m false (literal not_supported_text) (t, caps) (fun y => Some y) = Some y <->
  exists w, not_supported_phrase w /\ t = w ++ fst y /\ snd y = caps.
Proof.
  rewrite m_literal. split.
  - destruct (literal_prefix false not_supported_text t) eqn:P; [|discriminate].
    intros H. injection H as <-. apply literal_prefix_inv in P.
    destruct P as (w & Hw & E). apply same_text_false in Hw.
    exists w. now repeat split.
  - intros (w & Hw & E & Hc). destruct y as [rest caps']. simpl in E, Hc. subst.
    assert (S : same_text false w not_supported_text) by now apply same_text_false.
    destruct (literal_prefix_app _ _ _ rest S) as [-> ->]. reflexivity.
Qed.

Lemma not_supported_phrase_no_digit w rest :
  not_supported_phrase w -> no_digit_head (w ++ rest).
Proof. intros ->. reflexivity. Qed.

Lemma not_supported_occurrences_total s :
  exists ns, occurrences not_supported_phrase s ns.
Proof.
  apply occurrences_total with (ic := false) (tail := literal not_supported_text).
  - exact not_supported_no_digit.
  - exact not_supported_spec.
  - exact not_supported_phrase_no_digit.
Qed.

Lemma not_supported_free_by_matching g t :
  no_match_inside false (counted (literal not_supported_text)) g t = true ->
  free_of not_supported_phrase g t.
Proof.
  apply no_match_inside_free.
  - exact not_supported_no_digit.
  - exact not_supported_spec.
  - exact not_supported_phrase_no_digit.
Qed.

Lemma not_supported_of_reading text ns :
  occurrences not_supported_phrase text ns ->
  countNotSupportedPackages text = double_of_Z (hd 0%Z ns).
Proof.
  unfold countNotSupportedPackages, str_match, not_supported_re. cbn [pattern flag_i].
  fold not_supported_text.
  destruct 1 as [s Hfree | g ds w rest ns Hfree Hds Hw _].
  - rewrite exec_nothing with (phrase := not_supported_phrase);
      first [ reflexivity | exact not_supported_no_digit | exact not_supported_spec
            | exact not_supported_phrase_no_digit | exact Hfree ].
  - rewrite exec_first_occurrence with (phrase := not_supported_phrase);
      try first [ exact not_supported_no_digit | exact not_supported_spec
                | exact not_supported_phrase_no_digit | exact Hfree | exact Hds | exact Hw ].
    cbn [match_get capture snd find fst Nat.eqb option_map parseInt_opt hd].
    now apply parseInt_number_text.
Qed.

(** C3, amended. Read from the left, when the text holds the occurrences of
    "<n> packages doesn't support" with the numbers [ns], then
    [countNotSupportedPackages] returns the first number of [ns] as a
    JavaScript Number, the nearest double, whatever the later numbers are,
    and 0 when there is no occurrence.  That is the first number itself
    whenever it is at most 2^53. *)
Theorem countNotSupportedPackages_first_occurrence (input : jsstring) (ns : list Z) :
  occurrences not_supported_phrase input ns ->
  countNotSupportedPackages input = double_of_Z (hd 0%Z ns) /\
  ((hd 0%Z ns <= two53)%Z -> countNotSupportedPackages input = Num (hd 0%Z ns)).
Proof.
  intros H. split; [now apply not_supported_of_reading|]. intros B.
  rewrite (not_supported_of_reading _ _ H). apply double_of_Z_exact.
  apply occurrences_nonneg in H. destruct H; cbn [hd] in *; lia.
Qed.

Lemma countNotSupportedPackages_first_occurrence_witness :
  countNotSupportedPackages
    (lit "web: 12 packages doesn't support web; 3 packages doesn't support web")
  = double_of_Z (hd 0%Z [12; 3]%Z) /\
  countNotSupportedPackages
    (lit "web: 12 packages doesn't support web; 3 packages doesn't support web")
  = Num (hd 0%Z [12; 3]%Z).
Proof.
  enough (H : occurrences not_supported_phrase
                (lit "web: 12 packages doesn't support web; 3 packages doesn't support web")
                [12; 3]%Z).
  { destruct (countNotSupportedPackages_first_occurrence _ _ H) as [E1 E2].
    split; [exact E1 | apply E2; vm_compute; discriminate]. }
  apply (occurrences_next not_supported_phrase (lit "web: ") (lit "12")
           (lit " packages doesn't support")
           (lit " web; 3 packages doesn't support web") [3]%Z).
  - apply not_supported_free_by_matching. vm_compute. reflexivity.
  - apply number_text_by_test; [discriminate | reflexivity].
  - reflexivity.
  - apply (occurrences_next not_supported_phrase (lit " web; ") (lit "3")
             (lit " packages doesn't support") (lit " web") []).
    + apply not_supported_free_by_matching. vm_compute. reflexivity.
    + apply number_text_by_test; [discriminate | reflexivity].
    + reflexivity.
    + apply occurrences_none. apply not_supported_free_by_matching.
      vm_compute. reflexivity.
Defined.

(** C3, as stated, fails beyond 2^53: the first number in the text is
    2^53 + 1, and what is returned is 2^53. *)
Lemma countNotSupportedPackages_rounds_the_number :
  occurrences not_supported_phrase
    (lit "9007199254740993 packages doesn't support web") [9007199254740993]%Z /\
  countNotSupportedPackages (lit "9007199254740993 packages doesn't support web")
  = Num 9007199254740992 /\
  countNotSupportedPackages (lit "9007199254740993 packages doesn't support web")
  <> Num (hd 0%Z [9007199254740993]%Z).
Proof.
  split; [|split; [vm_compute; reflexivity | vm_compute; discriminate]].
  apply (occurrences_next not_supported_phrase [] (lit "9007199254740993")
           (lit " packages doesn't support") (lit " web") []).
  - apply not_supported_free_by_matching. vm_compute. reflexivity.
  - apply number_text_by_test; [discriminate | reflexivity].
  - reflexivity.
  - apply occurrences_none. apply not_supported_free_by_matching. vm_compute. reflexivity.
Qed.

(** ** [parseOutdatedPackagesOutput] *)

Lemma includes_single s c : includes s [c] = existsb (char_eqb c) s.
Proof.
  induction s as [|x s IH]; [reflexivity|].
  cbn [includes startsWith existsb]. rewrite IH.
  destruct s; now rewrite andb_true_r.
Qed.

Lemma In_trimStart c s :
  In c s -> is_white_space c = false -> In c (trimStart s).
Proof.
  intros Hin Hc. induction s as [|x s IH]; [contradiction|].
  cbn [trimStart]. destruct (is_white_space x) eqn:W; [|exact Hin].
  destruct Hin as [->|Hin]; [congruence | now apply IH].
Qed.

Lemma In_trim c s : In c s -> is_white_space c = false -> In c (trim s).
Proof.
  intros Hin Hc. unfold trim, trimEnd.
  apply (proj1 (in_rev _ _)). apply In_trimStart; [|exact Hc].
  apply (proj1 (in_rev _ _)). now apply In_trimStart.
Qed.

(** A text that contains the marker is not empty once trimmed. *)
Lemma marked_not_blank s :
  includes s (lit "*") = true -> (0 <? length (trim s)) = true.
Proof.
  change (lit "*") with [42%N]. rewrite includes_single. intros H.
  apply existsb_exists in H. destruct H as (x & Hin & Hx).
  apply N.eqb_eq in Hx. subst x.
  assert (I : In 42%N (trim s)) by (apply In_trim; [exact Hin | reflexivity]).
  destruct (trim s); [contradiction | reflexivity].
Qed.

Lemma marked_not_empty s :
  includes s (lit "*") = true -> Nat.eqb (length s) 0 = false.
Proof. destruct s; [discriminate | reflexivity]. Qed.

Lemma count_upgradable_spec lines : forall acc,
  count_upgradable lines acc
  = (acc + Z.of_nat (length (filter upgradable_line lines)))%Z.
Proof.
  induction lines as [|l lines IH]; intros acc; cbn [count_upgradable filter].
  - simpl. lia.
  - unfold upgradable_line at 1.
    destruct (includes (trim l) (lit "*")) eqn:I; cbn [negb andb].
    + rewrite (marked_not_blank _ I), (marked_not_empty _ I).
      cbn [negb andb length]. rewrite IH. lia.
    + rewrite andb_false_r. apply IH.
Qed.

(** C2. [parseOutdatedPackagesOutput] returns the number of lines of the
    trimmed text that, once trimmed themselves, are not empty and contain the
    marker [*]. *)
Theorem parseOutdatedPackagesOutput_counts_marked_lines (output : jsstring) :
  parseOutdatedPackagesOutput output
  = Num (Z.of_nat (length (filter upgradable_line (split 10%N (trim output))))).
Proof.
  unfold parseOutdatedPackagesOutput. now rewrite count_upgradable_spec.
Qed.

(** ** The pattern of [runFlutterFormatAnalysis] *)

Lemma canonicalize_terminator (ch : char) :
  is_line_terminator (canonicalize true ch) = is_line_terminator ch.
Proof.
  unfold canonicalize. cbn [andb].
  destruct (97 <=? ch)%N eqn:A; [|reflexivity].
  destruct (ch <=? 122)%N eqn:B; [|reflexivity]. cbn [andb].
  apply N.leb_le in A, B. unfold is_line_terminator. decide_tests. reflexivity.
Qed.

Lemma same_text_is_line w L : same_text true w L -> is_line L -> is_line w.
Proof.
  induction 1 as [|ch l w L Hc Hw IH]; intros HL; [constructor|].
  inversion HL as [|? ? Hl HL']; subst. constructor; [|now apply IH].
  now rewrite <- canonicalize_terminator, Hc, canonicalize_terminator.
Qed.

Lemma is_line_app u v : is_line (u ++ v) <-> is_line u /\ is_line v.
Proof. apply Forall_app. Qed.

Lemma literal_at_terminator L nt s :
  is_line L -> is_line_terminator nt = true ->
  L <> [] -> literal_prefix true L (nt :: s) = false.
Proof.
  intros HL Hn Hne. destruct L as [|l L]; [contradiction|].
  inversion HL as [|? ? Hl _]; subst. cbn [literal_prefix].
  destruct (class_mem true (CChar l) nt) eqn:C; [|reflexivity].
  apply class_mem_char in C.
  rewrite <- canonicalize_terminator, C, canonicalize_terminator in Hn. congruence.
Qed.

(** A literal without line terminator is looked for inside the line. *)
Lemma literal_prefix_in_line L : forall l nt s,
  is_line L -> is_line_terminator nt = true ->
  literal_prefix true L (l ++ nt :: s) = literal_prefix true L l /\
  (literal_prefix true L l = true ->
   skipn (length L) (l ++ nt :: s) = skipn (length L) l ++ nt :: s).
Proof.
  induction L as [|x L IH]; intros l nt s HL Hn.
  - split; reflexivity.
  - inversion HL as [|? ? Hx HL']; subst.
    destruct l as [|ch l]; simpl app.
    + split; [|discriminate]. now apply literal_at_terminator.
    + cbn [literal_prefix length skipn].
      destruct (IH l nt s HL' Hn) as [E1 E2]. rewrite E1. split; [reflexivity|].
      intros H. apply andb_true_iff in H. now apply E2.
Qed.

Lemma star_dot_then (K : continuation) caps :
  (forall t, K (t, caps) = option_map (fun r => (r, caps)) (dart_here t)) ->
  forall t,
    m true (Star (Atom CDot)) (t, caps) K
    = option_map (fun r => (r, caps)) (dart_end t).
Proof.
  intros HK. induction t as [|ch t IH].
  - rewrite star_atom_nil. apply HK.
  - rewrite star_atom_cons.
    change (class_mem true CDot ch) with (negb (is_line_terminator ch)).
    change (dart_end (ch :: t))
      with (if is_line_terminator ch then dart_here (ch :: t)
            else match dart_end t with
                 | Some r => Some r
                 | None => dart_here (ch :: t)
                 end).
    destruct (is_line_terminator ch); [apply HK|].
    change (negb false) with true. cbv iota.
    rewrite IH. destruct (dart_end t); [reflexivity | apply HK].
Qed.

Lemma star_dot_dart caps t :
  m true (Star (Atom CDot)) (t, caps)
    (fun y => m true (literal (lit ".dart")) y (fun z => Some z))
  = option_map (fun r => (r, caps)) (dart_end t).
Proof.
  apply star_dot_then. intros t'. rewrite m_literal. unfold dart_here.
  now destruct (literal_prefix true (lit ".dart") t').
Qed.

(** The pattern at the head of a text. *)
Lemma changed_here t :
  match_here true changed_pattern t =
  if literal_prefix true (lit "Changed") t
  then option_map (fun r => (r, [])) (dart_end (skipn 7 t))
  else None.
Proof.
  unfold match_here, changed_pattern. rewrite m_seq, m_literal.
  destruct (literal_prefix true (lit "Changed") t); [|reflexivity].
  rewrite m_seq. apply star_dot_dart.
Qed.

Lemma dart_text_is_line d : same_text true d (lit ".dart") -> is_line d.
Proof. intros H. apply (same_text_is_line _ _ H). repeat constructor. Qed.

Lemma changed_text_is_line d : same_text true d (lit "Changed") -> is_line d.
Proof. intros H. apply (same_text_is_line _ _ H). repeat constructor. Qed.

Lemma dart_here_inv t r :
  dart_here t = Some r -> exists d, same_text true d (lit ".dart") /\ t = d ++ r.
Proof.
  unfold dart_here. destruct (literal_prefix true (lit ".dart") t) eqn:P; [|discriminate].
  intros H. injection H as <-. apply literal_prefix_inv in P.
  destruct P as (d & Hd & E). now exists d.
Qed.

(** Where [dart_end] ends, a [.dart] ends, with no line terminator before it. *)
Lemma dart_end_sound t : forall r,
  dart_end t = Some r ->
  exists u d, t = u ++ d ++ r /\ is_line u /\ same_text true d (lit ".dart").
Proof.
  induction t as [|ch t IH]; intros r H; cbn [dart_end] in H.
  - discriminate.
  - assert (Here : dart_here (ch :: t) = Some r ->
              exists u d, ch :: t = u ++ d ++ r /\ is_line u /\ same_text true d (lit ".dart")).
    { intros Hh. apply dart_here_inv in Hh. destruct Hh as (d & Hd & E).
      exists [], d. repeat split; [exact E | constructor | exact Hd]. }
    destruct (is_line_terminator ch) eqn:T; [now apply Here|].
    destruct (dart_end t) as [r'|] eqn:D; [|now apply Here].
    injection H as <-. destruct (IH _ eq_refl) as (u & d & E & Hu & Hd).
    exists (ch :: u), d. repeat split; [simpl; now f_equal | now constructor | exact Hd].
Qed.

Lemma dart_end_none t : dart_end t = None -> dart_free t.
Proof.
  induction t as [|ch t IH]; intros H u b E Hu; cbn [dart_end] in H.
  - symmetry in E. apply app_eq_nil in E. destruct E as [_ ->]. reflexivity.
  - assert (Here : dart_here (ch :: t) = None ->
              literal_prefix true (lit ".dart") (ch :: t) = false).
    { unfold dart_here. now destruct (literal_prefix true (lit ".dart") (ch :: t)). }
    destruct u as [|x u]; simpl in E.
    + subst b. apply Here. destruct (is_line_terminator ch); [exact H|].
      now destruct (dart_end t).
    + injection E as -> E. apply Forall_cons_iff in Hu. destruct Hu as [Hx Hu].
      rewrite Hx in H. destruct (dart_end t) eqn:D; [discriminate|].
      now apply (IH eq_refl u b).
Qed.

(** The greedy match is the last one of the line: after it no [.dart] is
    left before the next line terminator. *)
Lemma dart_end_last t : forall r, dart_end t = Some r -> dart_free r.
Proof.
  induction t as [|ch t IH]; intros r H; cbn [dart_end] in H.
  - discriminate.
  - destruct (is_line_terminator ch) eqn:T.
    + unfold dart_here in H.
      rewrite literal_at_terminator in H; try discriminate; try assumption.
      repeat constructor.
    + destruct (dart_end t) as [r'|] eqn:D.
      * injection H as <-. now apply IH.
      * apply dart_here_inv in H. destruct H as (d & Hd & E).
        pose proof (dart_text_is_line _ Hd) as Ld.
        inversion Hd as [|x l d' L' Hx Hd']; subst. simpl in E. injection E as _ E.
        intros u b Er Hu. pose proof (dart_end_none _ D) as F. unfold dart_free in F.
        apply (F (d' ++ u) b).
        -- now rewrite E, Er, app_assoc.
        -- apply is_line_app. split; [|exact Hu]. now inversion Ld.
Qed.

Lemma dart_here_in_line l nt s :
  is_line l -> is_line_terminator nt = true ->
  dart_here (l ++ nt :: s) = option_map (fun r => r ++ nt :: s) (dart_here l).
Proof.
  intros Hl Hn. unfold dart_here.
  destruct (literal_prefix_in_line (lit ".dart") l nt s) as [E1 E2];
    [repeat constructor | exact Hn |].
  rewrite E1. destruct (literal_prefix true (lit ".dart") l); [|reflexivity].
  cbn [option_map]. f_equal. now apply E2.
Qed.

(** What the greedy [.*\.dart] finds in a line does not depend on what
    follows the line. *)
Lemma dart_end_in_line l nt s :
  is_line l -> is_line_terminator nt = true ->
  dart_end (l ++ nt :: s) = option_map (fun r => r ++ nt :: s) (dart_end l).
Proof.
  intros Hl Hn. induction Hl as [|ch l Hc Hl IH].
  - cbn [app dart_end]. rewrite Hn.
    apply (dart_here_in_line [] nt s); [constructor | exact Hn].
  - cbn [app dart_end]. rewrite Hc, IH.
    destruct (dart_end l); [reflexivity|].
    apply (dart_here_in_line (ch :: l) nt s); [now constructor | exact Hn].
Qed.

Lemma skipn_is_line n l : is_line l -> is_line (skipn n l).
Proof.
  intros H. rewrite <- (firstn_skipn n l) in H. now apply is_line_app in H.
Qed.

Lemma changed_in_line l nt s :
  is_line l -> is_line_terminator nt = true ->
  match_here true changed_pattern (l ++ nt :: s)
  = option_map (fun y => (fst y ++ nt :: s, snd y)) (match_here true changed_pattern l).
Proof.
  intros Hl Hn. rewrite !changed_here.
  destruct (literal_prefix_in_line (lit "Changed") l nt s) as [E1 E2];
    [repeat constructor | exact Hn |].
  rewrite E1. destruct (literal_prefix true (lit "Changed") l); [|reflexivity].
  change 7 with (length (lit "Changed")). rewrite E2 by reflexivity.
  rewrite dart_end_in_line by (try apply skipn_is_line; assumption).
  now destruct (dart_end (skipn (length (lit "Changed")) l)).
Qed.

Lemma changed_at_terminator nt s :
  is_line_terminator nt = true -> match_here true changed_pattern (nt :: s) = None.
Proof.
  intros Hn. rewrite changed_here.
  rewrite literal_at_terminator; try assumption; try discriminate; try reflexivity.
  repeat constructor.
Qed.

(** A match is [Changed], then the line up to its last [.dart]. *)
Lemma changed_match_inv t y :
  match_here true changed_pattern t = Some y ->
  exists C u d,
    t = (C ++ u ++ d) ++ fst y /\ same_text true C (lit "Changed") /\ is_line u /\
    same_text true d (lit ".dart") /\ dart_free (fst y).
Proof.
  rewrite changed_here.
  destruct (literal_prefix true (lit "Changed") t) eqn:P; [|discriminate].
  apply literal_prefix_inv in P. destruct P as (C & HC & E).
  destruct (dart_end (skipn 7 t)) as [r|] eqn:D; [|discriminate].
  intros H. injection H as <-. cbn [fst].
  pose proof (dart_end_last _ _ D) as Hfree.
  apply dart_end_sound in D. destruct D as (u & d & Eu & Hu & Hd).
  exists C, u, d. repeat split; try assumption.
  rewrite E at 1. change (length (lit "Changed")) with 7. rewrite Eu.
  now rewrite <- !app_assoc.
Qed.

(** After the last [.dart] of a line the pattern matches nowhere in it. *)
Lemma dart_free_no_match r :
  dart_free r ->
  forall a b, r = a ++ b -> is_line a -> match_here true changed_pattern b = None.
Proof.
  intros Hfree a b E Ha.
  destruct (match_here true changed_pattern b) as [y|] eqn:M; [|reflexivity].
  apply changed_match_inv in M. destruct M as (C & u & d & Eb & HC & Hu & Hd & _).
  exfalso. assert (F : literal_prefix true (lit ".dart") (d ++ fst y) = false).
  { apply (Hfree (a ++ C ++ u) (d ++ fst y)).
    - rewrite E, Eb. now rewrite <- !app_assoc.
    - apply is_line_app. split; [exact Ha|]. apply is_line_app. split; [|exact Hu].
      now apply changed_text_is_line. }
  destruct (literal_prefix_app _ _ _ (fst y) Hd) as [T _]. congruence.
Qed.

Lemma match_all_of_exec ic r s1 s2 :
  exec ic r s1 = exec ic r s2 -> match_all ic r s1 = match_all ic r s2.
Proof. intros E. now rewrite !match_all_unfold, E. Qed.

(** A line in which nothing is found adds nothing to what is found after it. *)
Lemma exec_silent_line l nt s :
  is_line l -> is_line_terminator nt = true ->
  exec true changed_pattern l = None ->
  exec true changed_pattern (l ++ nt :: s) = exec true changed_pattern s.
Proof.
  intros Hl Hn E. rewrite exec_passes.
  - cbn [exec]. now rewrite changed_at_terminator.
  - intros a b El _. rewrite changed_in_line; [|now (rewrite El in Hl; apply is_line_app in Hl)|exact Hn].
    now rewrite (exec_none_inv _ _ _ E a b El).
Qed.

Lemma exec_dart_free r :
  is_line r -> dart_free r -> exec true changed_pattern r = None.
Proof.
  intros Hr Hfree. apply exec_none_intro. intros a b E.
  apply (dart_free_no_match _ Hfree a b E). rewrite E in Hr. now apply is_line_app in Hr.
Qed.

Lemma same_text_nonempty ic C x L : same_text ic C (x :: L) -> C <> [].
Proof. intros H. inversion H. discriminate. Qed.

(** What the global search finds in a text whose first line is [l]: at most
    one match in [l], then what it finds after the line. *)
Lemma match_all_first_line l :
  is_line l ->
  (match_all true changed_pattern l = [] \/
   exists mt, match_all true changed_pattern l = [mt]) /\
  forall nt s, is_line_terminator nt = true ->
    match_all true changed_pattern (l ++ nt :: s)
    = match_all true changed_pattern l ++ match_all true changed_pattern s.
Proof.
  intros Hl. destruct (exec true changed_pattern l) as [res|] eqn:E.
  - destruct (exec_some_inv _ _ _ _ E) as (g & t & y & El & M & Er & Hg).
    destruct (changed_match_inv _ _ M) as (C & u & d & Et & HC & Hu & Hd & Hfree).
    assert (Lt : is_line t) by (rewrite El in Hl; now apply is_line_app in Hl).
    assert (Ly : is_line (fst y)) by (rewrite Et in Lt; now apply is_line_app in Lt).
    assert (Mt : matched res = C ++ u ++ d).
    { rewrite Er. cbn [matched]. rewrite Et at 1 2. apply firstn_length_diff. }
    assert (Ne : exists c0 m0, C ++ u ++ d = c0 :: m0).
    { pose proof (same_text_nonempty _ _ _ _ HC) as N. destruct C as [|c0 C']; [contradiction|].
      now exists c0, (C' ++ u ++ d). }
    destruct Ne as (c0 & m0 & Ne).
    assert (One : match_all true changed_pattern l = [C ++ u ++ d]).
    { rewrite match_all_unfold, E, Mt, Ne. f_equal.
      rewrite Er. cbn [after]. rewrite match_all_unfold.
      now rewrite exec_dart_free. }
    split; [right; now exists (C ++ u ++ d)|].
    intros nt s Hn. rewrite One. cbn [app].
    rewrite El, <- app_assoc.
    rewrite match_all_unfold, exec_passes.
    + rewrite (exec_here true changed_pattern (t ++ nt :: s) (fst y ++ nt :: s, snd y)).
      * cbn [matched after fst snd].
        replace (firstn _ _) with (C ++ u ++ d).
        -- rewrite Ne. f_equal. apply match_all_of_exec.
           apply exec_silent_line; try assumption. now apply exec_dart_free.
        -- rewrite Et at 1 2. rewrite <- (app_assoc (C ++ u ++ d)).
           symmetry. apply firstn_length_diff.
      * rewrite changed_in_line by assumption. now rewrite M.
    + intros a b Eg Hb. rewrite app_assoc. rewrite changed_in_line; [|
        rewrite El, Eg in Hl; apply is_line_app in Hl; destruct Hl as [Hl1 Hl2];
        apply is_line_app in Hl1; apply is_line_app; now split | exact Hn].
      now rewrite (Hg a b Eg Hb).
  - assert (Z : match_all true changed_pattern l = [])
      by (now rewrite match_all_unfold, E).
    split; [now left|]. intros nt s Hn. rewrite Z. cbn [app].
    apply match_all_of_exec. now apply exec_silent_line.
Qed.

Lemma formatted_count_length s :
  formatted_count s = length (match_all true changed_pattern s).
Proof.
  unfold formatted_count, formattedFiles, str_match_g, changed_dart_re.
  cbn [pattern flag_i]. fold changed_pattern.
  now destruct (match_all true changed_pattern s).
Qed.

(** A text is its first line, alone or followed by a line terminator and the
    rest of the text. *)
Lemma lines_of_first s :
  (is_line s /\ lines_of s = [s]) \/
  exists l nt s', s = l ++ nt :: s' /\ is_line l /\ is_line_terminator nt = true /\
                  lines_of s = l :: lines_of s'.
Proof.
  induction s as [|c s IH]; cbn [lines_of].
  - left. split; [constructor | reflexivity].
  - destruct (is_line_terminator c) eqn:T.
    + right. exists [], c, s. repeat split; [constructor | exact T].
    + destruct IH as [[Hs E] | (l & nt & s' & E & Hl & Hn & El)].
      * left. rewrite E. split; [now constructor | reflexivity].
      * right. rewrite El. exists (c :: l), nt, s'.
        repeat split; [simpl; now f_equal | now constructor | exact Hn].
Qed.

(** C10. The files [runFlutterFormatAnalysis] counts are counted line by
    line, the lines being the pieces between line terminators (which [.]
    does not match), and every line counts for at most one, however many
    times "Changed ... .dart" stands in it; so the count is at most the
    number of lines. *)
Theorem formatted_count_one_per_line (dartFormatOutput : jsstring) :
  formatted_count dartFormatOutput
  = list_sum (map formatted_count (lines_of dartFormatOutput)) /\
  Forall (fun l => formatted_count l <= 1) (lines_of dartFormatOutput) /\
  formatted_count dartFormatOutput <= length (lines_of dartFormatOutput).
Proof.
  assert (One : forall l, is_line l -> formatted_count l <= 1).
  { intros l Hl. rewrite formatted_count_length.
    destruct (proj1 (match_all_first_line _ Hl)) as [-> | [mt ->]]; simpl; lia. }
  assert (Main : forall n s, length s <= n ->
            formatted_count s = list_sum (map formatted_count (lines_of s)) /\
            Forall (fun l => formatted_count l <= 1) (lines_of s)).
  { induction n as [|n IH]; intros s Hn;
      destruct (lines_of_first s) as [[Hs E] | (l & nt & s' & E & Hl & Ht & El)].
    - rewrite E. cbn [map list_sum fold_right]. split; [lia|]. constructor; [now apply One | constructor].
    - rewrite E, length_app in Hn. simpl in Hn. lia.
    - rewrite E. cbn [map list_sum fold_right]. split; [lia|]. constructor; [now apply One | constructor].
    - destruct (IH s') as [IH1 IH2].
      { rewrite E, length_app in Hn. simpl in Hn. lia. }
      rewrite El. cbn [map]. split.
      + change (list_sum (formatted_count l :: map formatted_count (lines_of s')))
          with (formatted_count l + list_sum (map formatted_count (lines_of s'))).
        rewrite <- IH1. rewrite E at 1. rewrite !formatted_count_length.
        rewrite (proj2 (match_all_first_line _ Hl) nt s' Ht). apply length_app.
      + constructor; [now apply One | exact IH2]. }
  destruct (Main (length dartFormatOutput) dartFormatOutput (le_n _)) as [M1 M2].
  repeat split; try assumption.
  rewrite M1. clear M1. induction M2 as [|l ls Hl _ IH]; simpl; lia.
Qed.

(** Two "Changed ... .dart" on one line are one match, which runs to the
    last [.dart] of the line. *)
Example two_changed_on_one_line :
  formattedFiles (lit "Changed a.dart Changed lib/b.dart (unchanged c.txt)")
  = Some [lit "Changed a.dart Changed lib/b.dart"].
Proof. vm_compute. reflexivity. Qed.

(** ** The monad of the program *)

Lemma bind_ret {A B : Type} (a : A) (f : A -> Run B) : bind (ret a) f = f a.
Proof. unfold bind, ret. destruct (f a) as [out res]. reflexivity. Qed.

Lemma bind_log {B : Type} (line : jsstring) (f : unit -> Run B) :
  bind (console_log line) f = (Stdout line :: fst (f tt), snd (f tt)).
Proof. unfold bind, console_log. destruct (f tt) as [out res]. reflexivity. Qed.

Lemma bind_normal {A B : Type} (out : list event) (a : A) (f : A -> Run B) :
  bind (out, Normal a) f = (out ++ fst (f a), snd (f a)).
Proof. unfold bind. destruct (f a) as [out' res]. reflexivity. Qed.

(** The command runner never throws: it returns the output, or the [stderr]
    property of the error, which is a text, [null] or [undefined]. *)
Lemma executeCommandSync_returns h command cwd :
  executeCommandSync h command cwd =
  ret match execSync h command cwd with
      | ExecReturns stdout => Text stdout
      | ExecThrows stderr => stderr
      end.
Proof.
  unfold executeCommandSync. now destruct (execSync h command cwd).
Qed.

(** ** [checkDocumentation] *)

Lemma fold_left_push_filter {A : Type} (p : A -> bool) (l : list A) :
  forall acc,
    fold_left (fun found x => if p x then found ++ [x] else found) l acc
    = acc ++ filter p l.
Proof.
  induction l as [|x l IH]; intros acc; simpl.
  - now rewrite app_nil_r.
  - rewrite IH. destruct (p x); [|reflexivity]. now rewrite <- app_assoc.
Qed.

(** The files found are the required files that exist, in the order of
    [REQUIRED_FILES]. *)
Lemma found_files_filter h directory :
  found_files h directory
  = filter (fun file => existsSync h (file_in directory file)) REQUIRED_FILES.
Proof.
  unfold found_files.
  exact (fold_left_push_filter (fun file => existsSync h (file_in directory file))
           REQUIRED_FILES []).
Qed.

Lemma filter_subsequence {A : Type} (p : A -> bool) (l : list A) :
  subsequence (filter p l) l.
Proof.
  induction l as [|x l IH]; simpl; [constructor|].
  destruct (p x); now constructor.
Qed.

Lemma subsequence_length {A : Type} (l1 l2 : list A) :
  subsequence l1 l2 -> length l1 <= length l2.
Proof. induction 1; simpl; lia. Qed.

Lemma REQUIRED_FILES_NoDup : NoDup REQUIRED_FILES.
Proof.
  unfold REQUIRED_FILES. repeat constructor; cbv; intuition discriminate.
Qed.

Lemma get_property_object props name :
  get_property (VObj props) name
  = ret match field props name with Some v => v | None => VUndefined end.
Proof.
  unfold get_property, field.
  now destruct (find (fun p => str_eqb (fst p) name) props).
Qed.

(** On a manifest that is a value with properties, the description test
    compares [measured pubspec] with 60. *)
Lemma check_description_measured h pubspec :
  pubspec <> VUndefined -> pubspec <> VNull ->
  check_description h pubspec
  = (longer <- js_gt h (measured pubspec) MIN_DESCRIPTION_LENGTH ;;
     if longer then console_log msg_description_found
     else console_log msg_description_insufficient).
Proof.
  intros U N. unfold check_description, measured. cbv zeta.
  assert (L : forall x, truthy x = true \/ x = VStr [] ->
            get_property x (lit "length")
            = ret match x with
                  | VStr text => VNum (Num (Z.of_nat (length text)))
                  | VArr elems => VNum (Num (Z.of_nat (length elems)))
                  | VObj props =>
                      match field props (lit "length") with
                      | Some v => v
                      | None => VUndefined
                      end
                  | _ => VUndefined
                  end).
  { intros x [T | ->]; [|reflexivity].
    destruct x; try discriminate; try reflexivity. apply get_property_object. }
  assert (O : forall d, truthy (js_or d (VStr [])) = true \/ js_or d (VStr []) = VStr []).
  { intros d. unfold js_or. destruct (truthy d) eqn:T; [now left | now right]. }
  destruct pubspec as [| |b|n|t|elems|props]; try contradiction;
    try (cbn [get_property]; rewrite bind_ret, (L _ (O _)), bind_ret; reflexivity).
  rewrite get_property_object, bind_ret, (L _ (O _)), bind_ret. reflexivity.
Qed.

Lemma js_gt_converts h v n :
  converts h v = true -> exists x, js_gt h v n = ret (num_gt x n).
Proof.
  unfold converts, js_gt, ToNumber.
  destruct v; try (intros _; eexists; rewrite bind_ret; reflexivity);
    (destruct (ToNumber_other h _) as [x|]; [|discriminate]);
    intros _; exists x; now rewrite bind_ret.
Qed.

Lemma js_gt_throws h v n :
  converts h v = false -> js_gt h v n = throw TypeError.
Proof.
  unfold converts, js_gt, ToNumber.
  destruct v; try discriminate;
    (destruct (ToNumber_other h _) as [x|]; [discriminate|]); reflexivity.
Qed.

(** The description test returns whenever the manifest is a value with
    properties and what it compares with 60 has a number. *)
Lemma check_description_returns h pubspec :
  pubspec <> VUndefined -> pubspec <> VNull -> converts h (measured pubspec) = true ->
  exists line, check_description h pubspec = ([Stdout line], Normal tt).
Proof.
  intros U N C. rewrite (check_description_measured h pubspec U N).
  destruct (js_gt_converts h _ MIN_DESCRIPTION_LENGTH C) as [x ->]. rewrite bind_ret.
  destruct (num_gt x MIN_DESCRIPTION_LENGTH); eexists; reflexivity.
Qed.

Lemma checkDocumentation_returns h directory :
  manifest_readable h directory = true ->
  exists out, checkDocumentation h directory = (out, Normal (found_files h directory)).
Proof.
  unfold manifest_readable, checkDocumentation. cbv zeta.
  destruct (existsSync h (file_in directory (lit "pubspec.yaml"))).
  - destruct (readFileSync h _) as [content|]; [|discriminate].
    rewrite bind_ret.
    destruct (yaml_load h content) as [v|] eqn:Y; [|discriminate].
    intros R. rewrite bind_ret.
    destruct (check_description_returns h v) as [line E].
    + intros ->. discriminate.
    + intros ->. discriminate.
    + now destruct v.
    + rewrite E. eexists. reflexivity.
  - intros _. rewrite bind_ret. eexists. reflexivity.
Qed.

Lemma checkDocumentation_value h directory out foundFiles :
  checkDocumentation h directory = (out, Normal foundFiles) ->
  foundFiles = found_files h directory.
Proof.
  unfold checkDocumentation. cbv zeta.
  match goal with |- bind ?r _ = _ -> _ => destruct r as [o [u|e|c]] end;
    cbn [bind ret app]; intros H; try discriminate.
  now injection H as _ <-.
Qed.

(** C9. [checkDocumentation] returns whenever the manifest, if there is one,
    loads as a value with properties in which what is compared with 60 has a
    number; and the list it returns is [REQUIRED_FILES] with some names left
    out: in the order of [REQUIRED_FILES], without duplicates, and of length
    at most 3. *)
Theorem checkDocumentation_ordered_sublist (h : Host) (directory : jsstring) :
  (manifest_readable h directory = true ->
   exists out foundFiles, checkDocumentation h directory = (out, Normal foundFiles)) /\
  (forall out foundFiles,
     checkDocumentation h directory = (out, Normal foundFiles) ->
     subsequence foundFiles REQUIRED_FILES /\ NoDup foundFiles /\ length foundFiles <= 3).
Proof.
  split.
  - intros R. destruct (checkDocumentation_returns h directory R) as [out E]. eauto.
  - intros out foundFiles E. apply checkDocumentation_value in E. subst foundFiles.
    rewrite found_files_filter.
    pose proof (filter_subsequence (fun file => existsSync h (file_in directory file))
                  REQUIRED_FILES) as S.
    repeat split.
    + exact S.
    + apply NoDup_filter, REQUIRED_FILES_NoDup.
    + apply subsequence_length in S. exact S.
Qed.

(** C5. In a directory that holds README.md and LICENSE, and neither
    CONTRIBUTING.md nor a manifest, [checkDocumentation] returns exactly
    README.md and LICENSE, and the missing files [main] computes from them
    are exactly CONTRIBUTING.md. *)
Theorem checkDocumentation_readme_license (h : Host) (directory : jsstring) :
  directory_holds h directory (lit "pubspec.yaml" :: REQUIRED_FILES)
    [lit "README.md"; lit "LICENSE"] ->
  checkDocumentation h directory = ([], Normal [lit "README.md"; lit "LICENSE"]) /\
  missing_files [lit "README.md"; lit "LICENSE"] = [lit "CONTRIBUTING.md"].
Proof.
  intros H. split; [|reflexivity].
  unfold checkDocumentation, found_files, REQUIRED_FILES. cbv zeta. cbn [fold_left].
  rewrite (H (lit "pubspec.yaml")) by (cbn [In REQUIRED_FILES]; tauto).
  rewrite (H (lit "README.md")) by (cbn [In REQUIRED_FILES]; tauto).
  rewrite (H (lit "LICENSE")) by (cbn [In REQUIRED_FILES]; tauto).
  rewrite (H (lit "CONTRIBUTING.md")) by (cbn [In REQUIRED_FILES]; tauto).
  reflexivity.
Qed.

(** A host whose directory [proj] holds README.md and LICENSE only. *)
Lemma checkDocumentation_readme_license_witness :
  let h := mkHost
             (fun path => str_eqb path (lit "proj/README.md")
                          || str_eqb path (lit "proj/LICENSE"))
             (fun _ => None) (fun _ => None) (fun _ _ => ExecReturns []) (fun _ => Some NaN) in
  checkDocumentation h (lit "proj") = ([], Normal [lit "README.md"; lit "LICENSE"]) /\
  missing_files [lit "README.md"; lit "LICENSE"] = [lit "CONTRIBUTING.md"].
Proof.
  intros h. apply checkDocumentation_readme_license.
  intros name Hin. cbn [In REQUIRED_FILES] in Hin.
  destruct Hin as [<-|[<-|[<-|[<-|[]]]]]; reflexivity.
Defined.

(** ** The description of the manifest *)

(** The description test on a text [desc]: its length is compared with 60. *)
Lemma check_description_text h props desc :
  field props (lit "description") = Some (VStr desc) ->
  check_description h (VObj props)
  = console_log (if (60 <? Z.of_nat (length desc))%Z
                 then msg_description_found else msg_description_insufficient).
Proof.
  intros F. unfold check_description. rewrite get_property_object, F, bind_ret.
  assert (O : js_or (VStr desc) (VStr []) = VStr desc) by now destruct desc.
  rewrite O. cbn [get_property].
  change (str_eqb (lit "length") (lit "length")) with true. cbv iota.
  rewrite bind_ret. unfold js_gt, MIN_DESCRIPTION_LENGTH. cbn [ToNumber].
  rewrite !bind_ret. cbn [num_gt].
  now destruct (60 <? Z.of_nat (length desc))%Z.
Qed.

(** Without a description the test is the one of the empty text. *)
Lemma check_description_missing h props :
  field props (lit "description") = None ->
  check_description h (VObj props)
  = check_description h (VObj ((lit "description", VStr []) :: props)) /\
  check_description h (VObj props) = console_log msg_description_insufficient.
Proof.
  intros F.
  assert (E : check_description h (VObj props) = console_log msg_description_insufficient).
  { unfold check_description. rewrite get_property_object, F, bind_ret. reflexivity. }
  split; [|exact E]. rewrite E.
  now rewrite (check_description_text h ((lit "description", VStr []) :: props) []).
Qed.

Lemma checkDocumentation_with_manifest h directory v :
  manifest_is h directory v ->
  checkDocumentation h directory
  = (check_description h v ;; ret (found_files h directory)).
Proof.
  intros (E & content & R & Y). unfold checkDocumentation. cbv zeta.
  now rewrite E, R, bind_ret, Y, bind_ret.
Qed.

(** C4. With a manifest that loads as an object: a description of exactly 60
    code units is reported as insufficient and one of 61 or more as found
    (the test is a strict "greater than 60"); and with no description field
    the test is the one of the empty text, which is insufficient. *)
Theorem description_threshold (h : Host) (directory : jsstring)
  (props : list (jsstring * jsval)) :
  manifest_is h directory (VObj props) ->
  (forall desc, field props (lit "description") = Some (VStr desc) ->
     (length desc = 60 ->
      stdout_of (checkDocumentation h directory) = [msg_description_insufficient]) /\
     (61 <= length desc ->
      stdout_of (checkDocumentation h directory) = [msg_description_found])) /\
  (field props (lit "description") = None ->
   check_description h (VObj props)
   = check_description h (VObj ((lit "description", VStr []) :: props)) /\
   stdout_of (checkDocumentation h directory) = [msg_description_insufficient]).
Proof.
  intros M. rewrite (checkDocumentation_with_manifest h directory _ M). split.
  - intros desc F. rewrite (check_description_text h props desc F). split; intros L.
    + rewrite L. reflexivity.
    + replace (60 <? Z.of_nat (length desc))%Z with true
        by (symmetry; apply Z.ltb_lt; lia).
      reflexivity.
  - intros F. destruct (check_description_missing h props F) as [E1 E2].
    split; [exact E1|]. rewrite E2. reflexivity.
Qed.

Lemma description_threshold_witness :
  stdout_of (checkDocumentation sixty_host (lit "proj")) = [msg_description_insufficient].
Proof.
  assert (M : manifest_is sixty_host (lit "proj")
                (VObj [(lit "name", VStr (lit "demo")); (lit "description", VStr sixty)])).
  { split; [reflexivity|]. exists (lit "name: demo"). split; reflexivity. }
  apply (proj1 (proj1 (description_threshold sixty_host (lit "proj") _ M) sixty eq_refl)).
  reflexivity.
Defined.

(** ** The report driver *)

Lemma for_of_returns {A : Type} (l : list A) (body : A -> Run unit) :
  (forall a, exists out, body a = (out, Normal tt)) ->
  exists out, for_of l body = (out, Normal tt).
Proof.
  intros H. induction l as [|a l [out IH]]; cbn [for_of].
  - eexists. reflexivity.
  - destruct (H a) as [out1 E]. rewrite E, bind_normal, IH. eexists. reflexivity.
Qed.

Lemma log_returns line : exists out, console_log line = (out, Normal tt).
Proof. eexists. reflexivity. Qed.

Lemma executeCommandSync_value h command cwd :
  exists v, executeCommandSync h command cwd = ret v.
Proof. rewrite executeCommandSync_returns. eexists. reflexivity. Qed.

Lemma executeCommandSync_text h command cwd :
  executeCommandSync h command cwd = ret (text_of (execSync h command cwd)).
Proof. apply executeCommandSync_returns. Qed.

(** The lint part of the first check returns on a text and on [null], and
    throws on [undefined], of which it calls a method. *)
Lemma lint_outcome h directory :
  exists out,
    (flutterOutput <- executeCommandSync h (lit "flutter analyze") directory ;;
     if not_null flutterOutput then
       if is_empty_text flutterOutput then console_log msg_analyze_failed
       else
         output <- receiver flutterOutput ;;
         let issueCount := getNumberOfAnalysisIssue output in
         if num_gt issueCount (Num 0) then
           console_log (lit "   Found " ++ number_to_string issueCount
                          ++ lit " analysis issues.") ;;
           console_log (lit "   Run 'flutter analyze' command in your project to check for issues.")
         else
           console_log output ;;
           console_log (lit "   No analysis issues found.")
     else console_log msg_analyze_null)
    = (out, if guarded_answer h (lit "flutter analyze") directory
            then Normal tt else Throw TypeError).
Proof.
  unfold guarded_answer. rewrite executeCommandSync_text, bind_ret.
  destruct (text_of (execSync h (lit "flutter analyze") directory)) as [[|c t]| |];
    cbn [not_null is_empty_text receiver]; try (eexists; reflexivity).
  rewrite bind_ret. cbv zeta.
  destruct (num_gt _ _); eexists; reflexivity.
Qed.

Lemma format_outcome h directory :
  exists out,
    (dartFormatOutput <- executeCommandSync h (lit "dart format --output=none .") directory ;;
     if not_null dartFormatOutput then
       text <- receiver dartFormatOutput ;;
       match formattedFiles text with
       | Some files =>
           console_log ([10%N] ++ lit "   " ++ nat_to_string (length files)
                          ++ lit " files needs to be formatted.") ;;
           console_log (lit "   Run 'dart format .' command in your project to get the files formatted.")
       | None => console_log msg_no_formatting
       end
     else ret tt)
    = (out, if guarded_answer h (lit "dart format --output=none .") directory
            then Normal tt else Throw TypeError).
Proof.
  unfold guarded_answer. rewrite executeCommandSync_text, bind_ret.
  destruct (text_of (execSync h (lit "dart format --output=none .") directory)) as [t| |];
    cbn [not_null receiver]; try (eexists; reflexivity).
  rewrite bind_ret. destruct (formattedFiles t); eexists; reflexivity.
Qed.

(** The format and lint check returns when neither of its two commands
    gives [undefined], and throws a TypeError otherwise. *)
Lemma runFlutterFormatAnalysis_outcome h directory :
  exists out,
    runFlutterFormatAnalysis h directory
    = (out, if guarded_answer h (lit "flutter analyze") directory
               && guarded_answer h (lit "dart format --output=none .") directory
            then Normal tt else Throw TypeError).
Proof.
  unfold runFlutterFormatAnalysis.
  destruct (lint_outcome h directory) as [o1 E1].
  destruct (format_outcome h directory) as [o2 E2].
  match goal with
  | |- exists out, bind ?r ?f = _ =>
      replace (bind r f)
        with (bind (bind r (fun flutterOutput =>
                if not_null flutterOutput then
                  if is_empty_text flutterOutput then console_log msg_analyze_failed
                  else
                    output <- receiver flutterOutput ;;
                    let issueCount := getNumberOfAnalysisIssue output in
                    if num_gt issueCount (Num 0) then
                      console_log (lit "   Found " ++ number_to_string issueCount
                                     ++ lit " analysis issues.") ;;
                      console_log (lit "   Run 'flutter analyze' command in your project to check for issues.")
                    else
                      console_log output ;;
                      console_log (lit "   No analysis issues found.")
                else console_log msg_analyze_null))
               (fun _ =>
                  dartFormatOutput <-
                    executeCommandSync h (lit "dart format --output=none .") directory ;;
                  if not_null dartFormatOutput then
                    text <- receiver dartFormatOutput ;;
                    match formattedFiles text with
                    | Some files =>
                        console_log ([10%N] ++ lit "   " ++ nat_to_string (length files)
                                       ++ lit " files needs to be formatted.") ;;
                        console_log (lit "   Run 'dart format .' command in your project to get the files formatted.")
                    | None => console_log msg_no_formatting
                    end
                  else ret tt))
        by (rewrite executeCommandSync_text, !bind_ret; reflexivity)
  end.
  rewrite E1.
  destruct (guarded_answer h (lit "flutter analyze") directory); cbn [andb].
  - rewrite bind_normal, E2. eexists. reflexivity.
  - eexists. reflexivity.
Qed.

(** The dependency check returns on a text and on [null], and throws on
    [undefined]. *)
Lemma analysePubspecDependencies_outcome h directory :
  exists out,
    analysePubspecDependencies h directory
    = (out, if guarded_answer h (lit "dart pub outdated") directory
            then Normal tt else Throw TypeError).
Proof.
  unfold analysePubspecDependencies, guarded_answer.
  rewrite executeCommandSync_text, bind_ret.
  destruct (text_of (execSync h (lit "dart pub outdated") directory)) as [t| |];
    cbn [not_null receiver]; try (eexists; reflexivity).
  rewrite bind_ret. cbv zeta. destruct (num_gt _ _); eexists; reflexivity.
Qed.

Lemma yields_text_guarded h command directory :
  (exists text, executeCommandSync h command directory = ret (Text text)) ->
  guarded_answer h command directory = true.
Proof.
  intros [text E]. rewrite executeCommandSync_text in E. unfold guarded_answer.
  injection E as ->. reflexivity.
Qed.

Lemma runFlutterFormatAnalysis_returns h directory :
  (forall command, exists text, executeCommandSync h command directory = ret (Text text)) ->
  exists out, runFlutterFormatAnalysis h directory = (out, Normal tt).
Proof.
  intros H. destruct (runFlutterFormatAnalysis_outcome h directory) as [out E].
  rewrite !yields_text_guarded in E by apply H. now exists out.
Qed.

Lemma analysePubspecDependencies_returns h directory :
  (forall command, exists text, executeCommandSync h command directory = ret (Text text)) ->
  exists out, analysePubspecDependencies h directory = (out, Normal tt).
Proof.
  intros H. destruct (analysePubspecDependencies_outcome h directory) as [out E].
  rewrite yields_text_guarded in E by apply H. now exists out.
Qed.

Lemma analyseSupportedPlatforms_returns h directory :
  (forall command, exists text, executeCommandSync h command directory = ret (Text text)) ->
  exists out, analyseSupportedPlatforms h directory = (out, Normal tt).
Proof.
  intros H. unfold analyseSupportedPlatforms.
  destruct (H (lit "dart pub add will_it_run")) as [t ->].
  rewrite bind_ret. cbn [receiver]. rewrite bind_ret.
  destruct (includes t phrase_added || includes t phrase_already); [|apply log_returns].
  cbv zeta. apply for_of_returns. intros os.
  destruct (H (lit "dart run will_it_run:" ++ os)) as [t' ->].
  rewrite bind_ret. cbn [receiver]. rewrite bind_ret. cbv zeta.
  destruct (num_gt _ _); apply log_returns.
Qed.

(** The platform check calls a method of what the command runner returned:
    when that is [null] it throws, and nothing is written. *)
Lemma analyseSupportedPlatforms_null h directory :
  executeCommandSync h (lit "dart pub add will_it_run") directory = ret Null ->
  analyseSupportedPlatforms h directory = ([], Throw TypeError).
Proof. intros E. unfold analyseSupportedPlatforms. rewrite E. reflexivity. Qed.

Lemma main_three_arguments h a0 a1 directory :
  main h [a0; a1; directory] =
  (console_log msg_starting ;;
   console_log ([10%N] ++ lit "1. Checking required files and descriptions...") ;;
   foundFiles <- checkDocumentation h directory ;;
   console_log (lit "   Found " ++ nat_to_string (length foundFiles) ++ lit " documentation files") ;;
   (if Nat.ltb 0 (length (missing_files foundFiles)) then
      console_log (lit "   Missing documentation file(s): "
                     ++ join (lit ", ") (missing_files foundFiles) ++ lit ".")
    else ret tt) ;;
   console_log ([10%N] ++ lit "2. Analysing Flutter format and warnings...") ;;
   runFlutterFormatAnalysis h directory ;;
   console_log ([10%N] ++ lit "3. Analysing pubspec dependecies...") ;;
   analysePubspecDependencies h directory ;;
   console_log ([10%N] ++ lit "4. Analysing supported platforms...") ;;
   analyseSupportedPlatforms h directory ;;
   console_log msg_finished).
Proof. unfold main. cbn [skipn length Nat.eqb negb nth]. now rewrite bind_ret. Qed.

Lemma ends_last {A : Type} (x : A) : exists pre, [x] = pre ++ [x].
Proof. now exists []. Qed.

Lemma ends_cons {A : Type} (y x : A) (l : list A) :
  (exists pre, l = pre ++ [x]) -> exists pre, y :: l = pre ++ [x].
Proof. intros [pre ->]. now exists (y :: pre). Qed.

Lemma ends_app {A : Type} (x : A) (o l : list A) :
  (exists pre, l = pre ++ [x]) -> exists pre, o ++ l = pre ++ [x].
Proof. intros [pre ->]. exists (o ++ pre). now rewrite app_assoc. Qed.

(** With a manifest that loads, if any, and commands that all yield a text,
    the run reaches its last line and returns. *)
Lemma main_completes h a0 a1 directory :
  manifest_readable h directory = true ->
  (forall command, exists text, executeCommandSync h command directory = ret (Text text)) ->
  exists out, main h [a0; a1; directory] = (out ++ [Stdout msg_finished], Normal tt).
Proof.
  intros R H. rewrite main_three_arguments.
  destruct (checkDocumentation_returns h directory R) as [o1 E1].
  destruct (runFlutterFormatAnalysis_returns h directory H) as [o2 E2].
  destruct (analysePubspecDependencies_returns h directory H) as [o3 E3].
  destruct (analyseSupportedPlatforms_returns h directory H) as [o4 E4].
  rewrite E1, E2, E3, E4. cbn [bind console_log ret app].
  assert (X : forall L : list event,
            (exists pre, L = pre ++ [Stdout msg_finished]) ->
            exists out, (L, Normal tt) = (out ++ [Stdout msg_finished], @Normal unit tt)).
  { intros L [pre ->]. now exists pre. }
  destruct (Nat.ltb 0 (length (missing_files (found_files h directory))));
    cbn [bind console_log ret app]; apply X;
    repeat first [ apply ends_last | apply ends_cons | apply ends_app ].
Qed.

(** When the add command could not be spawned, the run throws in the last
    check and never writes its last line. *)
Lemma main_throws_on_null h a0 a1 directory :
  manifest_readable h directory = true ->
  executeCommandSync h (lit "dart pub add will_it_run") directory = ret Null ->
  snd (main h [a0; a1; directory]) = Throw TypeError.
Proof.
  intros R E. rewrite main_three_arguments.
  destruct (checkDocumentation_returns h directory R) as [o1 E1].
  destruct (runFlutterFormatAnalysis_outcome h directory) as [o2 E2].
  destruct (analysePubspecDependencies_outcome h directory) as [o3 E3].
  rewrite E1, E2, E3, (analyseSupportedPlatforms_null h directory E).
  cbn [bind console_log ret app].
  destruct (Nat.ltb 0 (length (missing_files (found_files h directory))));
    destruct (guarded_answer h (lit "flutter analyze") directory
              && guarded_answer h (lit "dart format --output=none .") directory);
    destruct (guarded_answer h (lit "dart pub outdated") directory);
    reflexivity.
Qed.

(** C6, at a target directory that does not exist: the command runner does
    not throw, it returns [null]; the platform check then calls a method of
    [null], the run ends with a TypeError, and its last line is never
    written. *)
Theorem main_throws_when_no_process_spawns :
  executeCommandSync no_spawn_host (lit "dart pub add will_it_run") (lit "missing")
  = ret Null /\
  snd (main no_spawn_host [lit "node"; lit "pub-score2.js"; lit "missing"])
  = Throw TypeError /\
  ~ In msg_finished
      (stdout_of (main no_spawn_host [lit "node"; lit "pub-score2.js"; lit "missing"])).
Proof.
  split; [reflexivity|]. split; [reflexivity|].
  vm_compute. intuition discriminate.
Qed.

(** C7. With no argument, or with two or more, the run writes the usage line
    to the error stream and exits with status 1, having written nothing else;
    with exactly one argument it first writes the starting line; and whenever
    it then returns the exit status is 0, whatever the checks reported.  It
    does return, with status 0, when the manifest, if there is one, loads as
    a value with properties in which what is compared with 60 has a number,
    and every command yields a text. *)
Theorem main_argument_count (h : Host) (argv : list jsstring) :
  (length (skipn 2 argv) <> 1 ->
   main h argv = ([Stderr msg_usage], ProcessExit 1) /\
   exit_status (main h argv) = Some 1%Z) /\
  (length (skipn 2 argv) = 1 ->
   (exists out res, main h argv = (Stdout msg_starting :: out, res)) /\
   (forall out, main h argv = (out, Normal tt) -> exit_status (main h argv) = Some 0%Z) /\
   (manifest_readable h (nth 0 (skipn 2 argv) []) = true ->
    (forall command, exists text,
        executeCommandSync h command (nth 0 (skipn 2 argv) []) = ret (Text text)) ->
    exists out, main h argv = (out, Normal tt) /\ exit_status (main h argv) = Some 0%Z)).
Proof.
  split.
  - intros H. apply Nat.eqb_neq in H. unfold main. cbv zeta. rewrite H. now split.
  - intros H.
    assert (A : exists a0 a1 directory, argv = [a0; a1; directory]).
    { destruct argv as [|a0 [|a1 [|d [|x rest]]]]; try discriminate.
      now exists a0, a1, d. }
    destruct A as (a0 & a1 & directory & ->). cbn [skipn nth].
    repeat split.
    + rewrite main_three_arguments, bind_log. eexists. eexists. reflexivity.
    + intros out E. now rewrite E.
    + intros R C. destruct (main_completes h a0 a1 directory R C) as [out E].
      rewrite E. eexists. split; reflexivity.
Qed.

(** C8. In a directory that holds neither a manifest nor a required file,
    when every command yields the empty text, the run writes exactly: the
    starting line; 0 documentation files found and the three of them missing;
    the message of a failed analysis; no files needed formatting; all
    dependencies up to date; the empty text under the platform heading and no
    line for any platform; and the last line. *)
Theorem report_on_empty_directory (h : Host) (a0 a1 directory : jsstring) :
  directory_holds h directory (lit "pubspec.yaml" :: REQUIRED_FILES) [] ->
  every_command_yields h directory [] ->
  main h [a0; a1; directory] =
  ([Stdout msg_starting;
    Stdout ([10%N] ++ lit "1. Checking required files and descriptions...");
    Stdout (lit "   Found 0 documentation files");
    Stdout (lit "   Missing documentation file(s): README.md, LICENSE, CONTRIBUTING.md.");
    Stdout ([10%N] ++ lit "2. Analysing Flutter format and warnings...");
    Stdout msg_analyze_failed;
    Stdout msg_no_formatting;
    Stdout ([10%N] ++ lit "3. Analysing pubspec dependecies...");
    Stdout msg_up_to_date;
    Stdout ([10%N] ++ lit "4. Analysing supported platforms...");
    Stdout [];
    Stdout msg_finished],
   Normal tt).
Proof.
  intros D C. rewrite main_three_arguments.
  assert (E1 : checkDocumentation h directory = ([], Normal [])).
  { unfold checkDocumentation, found_files, REQUIRED_FILES. cbv zeta. cbn [fold_left].
    rewrite (D (lit "pubspec.yaml")) by (cbn [In REQUIRED_FILES]; tauto).
    rewrite (D (lit "README.md")) by (cbn [In REQUIRED_FILES]; tauto).
    rewrite (D (lit "LICENSE")) by (cbn [In REQUIRED_FILES]; tauto).
    rewrite (D (lit "CONTRIBUTING.md")) by (cbn [In REQUIRED_FILES]; tauto).
    reflexivity. }
  assert (E2 : runFlutterFormatAnalysis h directory
               = ([Stdout msg_analyze_failed; Stdout msg_no_formatting], Normal tt)).
  { unfold runFlutterFormatAnalysis. rewrite !C. reflexivity. }
  assert (E3 : analysePubspecDependencies h directory = ([Stdout msg_up_to_date], Normal tt)).
  { unfold analysePubspecDependencies. rewrite C. reflexivity. }
  assert (E4 : analyseSupportedPlatforms h directory = ([Stdout []], Normal tt)).
  { unfold analyseSupportedPlatforms. rewrite C. reflexivity. }
  rewrite E1, E2, E3, E4. reflexivity.
Qed.

Lemma report_on_empty_directory_witness :
  stdout_of (main silent_host [lit "node"; lit "pub-score2.js"; lit "proj"])
  = [msg_starting;
     [10%N] ++ lit "1. Checking required files and descriptions...";
     lit "   Found 0 documentation files";
     lit "   Missing documentation file(s): README.md, LICENSE, CONTRIBUTING.md.";
     [10%N] ++ lit "2. Analysing Flutter format and warnings...";
     msg_analyze_failed;
     msg_no_formatting;
     [10%N] ++ lit "3. Analysing pubspec dependecies...";
     msg_up_to_date;
     [10%N] ++ lit "4. Analysing supported platforms...";
     [];
     msg_finished].
Proof.
  rewrite (report_on_empty_directory silent_host (lit "node") (lit "pub-score2.js")
             (lit "proj")).
  - reflexivity.
  - intros name _. reflexivity.
  - intros command. reflexivity.
Defined.

Lemma main_argument_count_witness :
  (main troubled_host [lit "node"; lit "pub-score2.js"]
   = ([Stderr msg_usage], ProcessExit 1) /\
   exit_status (main troubled_host [lit "node"; lit "pub-score2.js"]) = Some 1%Z) /\
  exit_status (main troubled_host [lit "node"; lit "pub-score2.js"; lit "proj"]) = Some 0%Z.
Proof.
  split.
  - apply (proj1 (main_argument_count troubled_host [lit "node"; lit "pub-score2.js"])).
    cbn [skipn length]. discriminate.
  - destruct (proj2 (main_argument_count troubled_host
                       [lit "node"; lit "pub-score2.js"; lit "proj"]) eq_refl)
      as (_ & E & C).
    destruct C as [out [_ S]]; [reflexivity | intros command; eexists; reflexivity |].
    exact S.
Defined.

Lemma checkDocumentation_ordered_sublist_witness :
  (exists out foundFiles,
     checkDocumentation documented_host (lit "proj") = (out, Normal foundFiles)) /\
  subsequence [lit "README.md"; lit "CONTRIBUTING.md"] REQUIRED_FILES /\
  NoDup [lit "README.md"; lit "CONTRIBUTING.md"] /\
  length [lit "README.md"; lit "CONTRIBUTING.md"] <= 3.
Proof.
  destruct (checkDocumentation_ordered_sublist documented_host (lit "proj")) as [R P].
  split; [exact (R eq_refl)|].
  apply (P [Stdout msg_description_insufficient]). reflexivity.
Defined.

(** * Further properties of the program *)

(** ** The command runner *)

(** [executeCommandSync] never throws and writes nothing; it returns the
    output of a command that succeeded and the [stderr] of the error of one
    that failed, so that a failure with the error text [t] cannot be told
    from a success that printed [t]. *)
Lemma executeCommandSync_contract (h : Host) (command cwd : jsstring) :
  exists v,
    executeCommandSync h command cwd = ([], Normal v) /\
    (forall stdout, execSync h command cwd = ExecReturns stdout -> v = Text stdout) /\
    (forall stderr, execSync h command cwd = ExecThrows stderr -> v = stderr).
Proof.
  exists (text_of (execSync h command cwd)). split; [apply executeCommandSync_text|].
  destruct (execSync h command cwd) as [out|err]; cbn [text_of];
    repeat split; intros; congruence.
Qed.

Lemma bind_ext {A B : Type} (r : Run A) (f g : A -> Run B) :
  (forall a, f a = g a) -> bind r f = bind r g.
Proof. intros H. destruct r as [out [a|e|c]]; cbn [bind]; [now rewrite H | | ]; reflexivity. Qed.

Lemma for_of_ext {A : Type} (l : list A) (f g : A -> Run unit) :
  (forall a, f a = g a) -> for_of l f = for_of l g.
Proof.
  intros H. induction l as [|a l IH]; cbn [for_of]; [reflexivity|].
  rewrite H. apply bind_ext. intros _. exact IH.
Qed.

(** The report depends on a command only through what [executeCommandSync]
    returns for it: with another [execSync] that yields the same texts,
    whether as output or as error text, the run is the same. *)
Theorem main_depends_on_command_text (h : Host)
  (e : jsstring -> jsstring -> exec_result) (argv : list jsstring) :
  (forall command cwd, text_of (execSync h command cwd) = text_of (e command cwd)) ->
  main h argv = main (with_execSync h e) argv.
Proof.
  intros H.
  assert (X : forall command cwd,
            executeCommandSync h command cwd
            = executeCommandSync (with_execSync h e) command cwd).
  { intros command cwd. rewrite !executeCommandSync_text. now rewrite H. }
  unfold main. cbv zeta. apply bind_ext. intros _. apply bind_ext. intros _.
  apply bind_ext. intros _.
  replace (checkDocumentation (with_execSync h e) (nth 0 (skipn 2 argv) []))
    with (checkDocumentation h (nth 0 (skipn 2 argv) [])) by reflexivity.
  apply bind_ext. intros foundFiles. apply bind_ext. intros _. apply bind_ext. intros _.
  apply bind_ext. intros _.
  replace (runFlutterFormatAnalysis (with_execSync h e) (nth 0 (skipn 2 argv) []))
    with (runFlutterFormatAnalysis h (nth 0 (skipn 2 argv) [])).
  2:{ unfold runFlutterFormatAnalysis. rewrite X. apply bind_ext. intros v1.
      apply bind_ext. intros _. now rewrite X. }
  apply bind_ext. intros _. apply bind_ext. intros _.
  replace (analysePubspecDependencies (with_execSync h e) (nth 0 (skipn 2 argv) []))
    with (analysePubspecDependencies h (nth 0 (skipn 2 argv) [])).
  2:{ unfold analysePubspecDependencies. now rewrite X. }
  apply bind_ext. intros _. apply bind_ext. intros _.
  replace (analyseSupportedPlatforms (with_execSync h e) (nth 0 (skipn 2 argv) []))
    with (analyseSupportedPlatforms h (nth 0 (skipn 2 argv) [])); [reflexivity|].
  unfold analyseSupportedPlatforms. rewrite X. apply bind_ext. intros v.
  apply bind_ext. intros text.
  destruct (includes text phrase_added || includes text phrase_already); [|reflexivity].
  cbv zeta. apply for_of_ext. intros os. now rewrite X.
Qed.

Lemma main_depends_on_command_text_witness :
  main silent_host [lit "node"; lit "pub-score2.js"; lit "proj"]
  = main (with_execSync silent_host (fun _ _ => ExecThrows (Text [])))
      [lit "node"; lit "pub-score2.js"; lit "proj"].
Proof.
  apply main_depends_on_command_text. intros command cwd. reflexivity.
Defined.

(** ** Found and missing files *)

Lemma str_eqb_eq (a b : jsstring) : str_eqb a b = true <-> a = b.
Proof.
  revert b. induction a as [|x a IH]; intros [|y b]; cbn [str_eqb];
    try (split; [discriminate | discriminate]); [split; reflexivity|].
  unfold char_eqb. rewrite andb_true_iff, N.eqb_eq, IH.
  split; [intros [-> ->]; reflexivity | intros E; injection E; auto].
Qed.

Lemma existsb_str_eqb (file : jsstring) (l : list jsstring) :
  existsb (str_eqb file) l = true <-> In file l.
Proof.
  rewrite existsb_exists. split.
  - intros (x & Hin & E). apply str_eqb_eq in E. now subst.
  - intros Hin. exists file. split; [exact Hin | now apply str_eqb_eq].
Qed.

Lemma filter_complement_length {A : Type} (p : A -> bool) (l : list A) :
  length (filter p l) + length (filter (fun x => negb (p x)) l) = length l.
Proof.
  induction l as [|x l IH]; [reflexivity|]. cbn [filter].
  destruct (p x); cbn [negb length]; lia.
Qed.

(** The files [checkDocumentation] finds and the files [main] then reports
    missing split [REQUIRED_FILES] in two: the required files that exist and
    those that do not, each in the order of [REQUIRED_FILES]; so their
    numbers add up to 3, and a file is reported missing exactly when it does
    not exist. *)
Theorem found_and_missing_split_required (h : Host) (directory : jsstring) :
  found_files h directory
  = filter (fun file => existsSync h (file_in directory file)) REQUIRED_FILES /\
  missing_files (found_files h directory)
  = filter (fun file => negb (existsSync h (file_in directory file))) REQUIRED_FILES /\
  length (found_files h directory) + length (missing_files (found_files h directory)) = 3.
Proof.
  assert (M : missing_files (found_files h directory)
              = filter (fun file => negb (existsSync h (file_in directory file)))
                  REQUIRED_FILES).
  { unfold missing_files. rewrite found_files_filter. apply filter_ext_in.
    intros file Hin. f_equal.
    destruct (existsSync h (file_in directory file)) eqn:E.
    - apply existsb_str_eqb. apply filter_In. now split.
    - destruct (existsb (str_eqb file) _) eqn:X; [|reflexivity].
      apply existsb_str_eqb, filter_In in X. destruct X as [_ X]. congruence. }
  split; [apply found_files_filter|]. split; [exact M|].
  rewrite M, found_files_filter.
  apply (filter_complement_length
           (fun file => existsSync h (file_in directory file)) REQUIRED_FILES).
Qed.

(** ** The manifest *)

Lemma checkDocumentation_throws h directory :
  manifest_readable h directory = false ->
  exists e, checkDocumentation h directory = ([], Throw e).
Proof.
  unfold manifest_readable, checkDocumentation. cbv zeta.
  destruct (existsSync h (file_in directory (lit "pubspec.yaml"))); [|discriminate].
  destruct (readFileSync h _) as [content|]; [|intros _; eexists; reflexivity].
  rewrite bind_ret.
  destruct (yaml_load h content) as [v|]; [|intros _; eexists; reflexivity].
  rewrite bind_ret.
  assert (T : converts h (measured v) = false -> v <> VUndefined -> v <> VNull ->
              exists e, (check_description h v ;; ret (found_files h directory))
                        = ([], Throw e)).
  { intros C U N. rewrite (check_description_measured h v U N), (js_gt_throws h _ _ C).
    eexists. reflexivity. }
  destruct v; try (intros _; eexists; reflexivity);
    intros C; apply (T C); discriminate.
Qed.

(** When the manifest exists but cannot be read or parsed, or loads as
    [undefined] or [null] (an empty file), or what is compared with 60 has
    no number, [checkDocumentation] throws before it writes anything, and
    the run ends there: after the heading of the first check, with no count
    of documentation files and no later check. *)
Theorem unreadable_manifest_ends_the_run (h : Host) (a0 a1 directory : jsstring) :
  manifest_readable h directory = false ->
  exists e,
    checkDocumentation h directory = ([], Throw e) /\
    main h [a0; a1; directory]
    = ([Stdout msg_starting;
        Stdout ([10%N] ++ lit "1. Checking required files and descriptions...")],
       Throw e).
Proof.
  intros R. destruct (checkDocumentation_throws h directory R) as [e E].
  exists e. split; [exact E|]. rewrite main_three_arguments, E. reflexivity.
Qed.

Lemma unreadable_manifest_ends_the_run_witness :
  exists e,
    checkDocumentation empty_manifest_host (lit "proj") = ([], Throw e) /\
    main empty_manifest_host [lit "node"; lit "pub-score2.js"; lit "proj"]
    = ([Stdout msg_starting;
        Stdout ([10%N] ++ lit "1. Checking required files and descriptions...")],
       Throw e).
Proof.
  apply unreadable_manifest_ends_the_run. reflexivity.
Defined.

(** The description test when the description is no text, or the manifest
    no object: the length that is compared with 60 is the number of elements
    of a list, and there is none for [null], a boolean or a number, which
    are reported as insufficient like a manifest that is a text, a number, a
    boolean or a list. *)
Theorem description_that_is_no_text (h : Host) (props : list (jsstring * jsval))
  (v : jsval) :
  field props (lit "description") = Some v ->
  match v with
  | VArr elems =>
      check_description h (VObj props)
      = console_log (if Nat.ltb 60 (length elems)
                     then msg_description_found else msg_description_insufficient)
  | VUndefined | VNull | VBool _ | VNum _ =>
      check_description h (VObj props) = console_log msg_description_insufficient
  | VStr _ | VObj _ => True
  end /\
  (forall pubspec,
     match pubspec with
     | VStr _ | VNum _ | VBool _ | VArr _ =>
         check_description h pubspec = console_log msg_description_insufficient
     | _ => True
     end).
Proof.
  intros F. split.
  - unfold check_description. rewrite get_property_object, F, bind_ret.
    destruct v as [| |[|]|[|[|]|[|p|p]]|s|elems|ps]; try exact I; try reflexivity.
    unfold js_or. cbn [truthy get_property].
    change (str_eqb (lit "length") (lit "length")) with true. cbv iota.
    rewrite bind_ret. unfold js_gt, MIN_DESCRIPTION_LENGTH. cbn [ToNumber].
    rewrite !bind_ret. cbn [num_gt].
    destruct (Nat.ltb_spec 60 (length elems)) as [L|L];
      [replace (60 <? Z.of_nat (length elems))%Z with true
         by (symmetry; apply Z.ltb_lt; lia)
      |replace (60 <? Z.of_nat (length elems))%Z with false
         by (symmetry; apply Z.ltb_ge; lia)];
      reflexivity.
  - intros [| |b|n|t|elems|ps]; try exact I; reflexivity.
Qed.

Lemma description_that_is_no_text_witness :
  check_description silent_host
    (VObj [(lit "name", VStr (lit "demo")); (lit "description", VNum (Num 2024))])
  = console_log msg_description_insufficient.
Proof.
  exact (proj1 (description_that_is_no_text silent_host
                  [(lit "name", VStr (lit "demo")); (lit "description", VNum (Num 2024))]
                  (VNum (Num 2024)) eq_refl)).
Defined.

(** ** How the run ends *)

Lemma for_of_outcome {A : Type} (ok : A -> bool) (e : error) (body : A -> Run unit)
  (l : list A) :
  (forall a, exists out, body a = (out, if ok a then Normal tt else Throw e)) ->
  exists out, for_of l body = (out, if forallb ok l then Normal tt else Throw e).
Proof.
  intros H. induction l as [|a l [out IH]]; cbn [for_of forallb].
  - eexists. reflexivity.
  - destruct (H a) as [o E]. rewrite E. destruct (ok a); cbn [andb].
    + rewrite bind_normal, IH. eexists. reflexivity.
    + eexists. reflexivity.
Qed.

(** The platform check returns when it gets a text wherever it calls a
    method, and throws a TypeError otherwise. *)
Lemma analyseSupportedPlatforms_outcome h directory :
  exists out,
    analyseSupportedPlatforms h directory
    = (out, if platforms_answer h directory then Normal tt else Throw TypeError).
Proof.
  unfold analyseSupportedPlatforms, platforms_answer.
  rewrite executeCommandSync_text.
  destruct (text_of (execSync h (lit "dart pub add will_it_run") directory)) as [text| |];
    [|eexists; reflexivity|eexists; reflexivity].
  rewrite bind_ret. cbn [receiver]. rewrite bind_ret.
  destruct (includes text phrase_added || includes text phrase_already);
    [|eexists; reflexivity].
  cbv zeta.
  apply (for_of_outcome
           (fun os =>
              match text_of (execSync h (lit "dart run will_it_run:" ++ os) directory) with
              | Text _ => true
              | _ => false
              end) TypeError).
  intros os. rewrite executeCommandSync_text.
  destruct (text_of (execSync h (lit "dart run will_it_run:" ++ os) directory)) as [t| |];
    [|eexists; reflexivity|eexists; reflexivity].
  rewrite bind_ret. cbn [receiver]. rewrite bind_ret.
  destruct (num_gt (countNotSupportedPackages t) (Num 0)); eexists; reflexivity.
Qed.

(** With one argument the run returns, after its last line, exactly when
    the manifest (if there is one) loads as a value with properties in which
    what is compared with 60 has a number, none of the commands of the lint,
    format and dependency checks gives [undefined], and the platform check
    gets a text wherever it calls a method; otherwise it throws. *)
Theorem main_returns_or_throws (h : Host) (a0 a1 directory : jsstring) :
  (manifest_readable h directory
   && forallb (fun command => guarded_answer h command directory) guarded_commands
   && platforms_answer h directory = true ->
   exists out, main h [a0; a1; directory] = (out ++ [Stdout msg_finished], Normal tt)) /\
  (manifest_readable h directory
   && forallb (fun command => guarded_answer h command directory) guarded_commands
   && platforms_answer h directory = false ->
   exists out e, main h [a0; a1; directory] = (out, Throw e)).
Proof.
  rewrite main_three_arguments.
  destruct (runFlutterFormatAnalysis_outcome h directory) as [o2 E2].
  destruct (analysePubspecDependencies_outcome h directory) as [o3 E3].
  destruct (analyseSupportedPlatforms_outcome h directory) as [o4 E4].
  assert (X : forall L : list event,
            (exists pre, L = pre ++ [Stdout msg_finished]) ->
            exists out, (L, Normal tt) = (out ++ [Stdout msg_finished], @Normal unit tt)).
  { intros L [pre ->]. now exists pre. }
  unfold guarded_commands. cbn [forallb].
  destruct (manifest_readable h directory) eqn:R.
  - destruct (checkDocumentation_returns h directory R) as [o1 E1].
    rewrite E1, E2, E3, E4.
    destruct (guarded_answer h (lit "flutter analyze") directory),
      (guarded_answer h (lit "dart format --output=none .") directory),
      (guarded_answer h (lit "dart pub outdated") directory),
      (platforms_answer h directory);
      cbn [andb bind console_log ret app]; split; try discriminate; intros _;
      destruct (Nat.ltb 0 (length (missing_files (found_files h directory))));
      cbn [bind console_log ret app];
      first [ apply X; repeat first [ apply ends_last | apply ends_cons | apply ends_app ]
            | eexists; eexists; reflexivity ].
  - destruct (checkDocumentation_throws h directory R) as [e E1].
    rewrite E1. cbn [andb]. split; [discriminate|]. intros _.
    eexists. exists e. reflexivity.
Qed.

Lemma main_returns_or_throws_witness :
  exists out,
    main failing_host [lit "node"; lit "pub-score2.js"; lit "proj"]
    = (out ++ [Stdout msg_finished], Normal tt).
Proof.
  apply (proj1 (main_returns_or_throws failing_host (lit "node") (lit "pub-score2.js")
                  (lit "proj"))).
  reflexivity.
Defined.

(** *** Nothing but standard output *)

Lemma quiet_ret {A : Type} (a : A) : quiet (ret a).
Proof. split; [constructor | discriminate]. Qed.

Lemma quiet_throw {A : Type} (e : error) : quiet (@throw A e).
Proof. split; [constructor | discriminate]. Qed.

Lemma quiet_log line : quiet (console_log line).
Proof. split; [repeat constructor | discriminate]. Qed.

Lemma quiet_bind {A B : Type} (r : Run A) (f : A -> Run B) :
  quiet r -> (forall a, quiet (f a)) -> quiet (bind r f).
Proof.
  intros [Hr Hc] Hf. destruct r as [out [a|e|c]]; cbn [fst snd] in *.
  - destruct (Hf a) as [H1 H2]. unfold bind. destruct (f a) as [out' res].
    cbn [fst snd] in *. split; [now apply Forall_app | exact H2].
  - split; [exact Hr | discriminate].
  - now elim (Hc c).
Qed.

Lemma quiet_for_of {A : Type} (l : list A) (body : A -> Run unit) :
  (forall a, quiet (body a)) -> quiet (for_of l body).
Proof.
  intros H. induction l as [|a l IH]; cbn [for_of]; [apply quiet_ret|].
  apply quiet_bind; [apply H | intros _; exact IH].
Qed.

Lemma quiet_executeCommandSync h command cwd : quiet (executeCommandSync h command cwd).
Proof. rewrite executeCommandSync_text. apply quiet_ret. Qed.

Lemma quiet_receiver v : quiet (receiver v).
Proof. destruct v; first [apply quiet_ret | apply quiet_throw]. Qed.

Lemma quiet_get_property v name : quiet (get_property v name).
Proof. destruct v; first [apply quiet_ret | apply quiet_throw]. Qed.

Lemma quiet_js_gt h v n : quiet (js_gt h v n).
Proof.
  unfold js_gt, ToNumber. apply quiet_bind; [|intros; apply quiet_ret].
  destruct v; try apply quiet_ret;
    destruct (ToNumber_other h _); first [apply quiet_ret | apply quiet_throw].
Qed.

Ltac quiet_steps :=
  repeat first
    [ apply quiet_ret | apply quiet_throw | apply quiet_log
    | apply quiet_executeCommandSync | apply quiet_receiver | apply quiet_get_property
    | apply quiet_js_gt
    | apply quiet_for_of; intros
    | apply quiet_bind; [|intros]
    | match goal with
      | |- quiet (match ?x with _ => _ end) => destruct x
      | |- quiet (let _ := _ in _) => cbv zeta
      end ].

(** With one argument the run writes to standard output only, never to the
    error stream, and never calls [process.exit]: it returns or it throws. *)
Theorem main_with_one_argument_is_quiet (h : Host) (a0 a1 directory : jsstring) :
  Forall is_stdout (fst (main h [a0; a1; directory])) /\
  forall code, snd (main h [a0; a1; directory]) <> ProcessExit code.
Proof.
  change (quiet (main h [a0; a1; directory])). rewrite main_three_arguments.
  unfold checkDocumentation, check_description, runFlutterFormatAnalysis,
    analysePubspecDependencies, analyseSupportedPlatforms.
  quiet_steps.
Qed.

(** ** The outdated listing *)

Lemma includes_star_cons c s :
  includes (c :: s) (lit "*") = (42 =? c)%N || includes s (lit "*").
Proof.
  change (lit "*") with [42%N]. rewrite !includes_single. reflexivity.
Qed.

Lemma white_space_is_no_star c : is_white_space c = true -> (42 =? c)%N = false.
Proof.
  intros W. destruct (N.eqb_spec 42 c) as [<-|]; [discriminate W | reflexivity].
Qed.

Lemma includes_trimStart s :
  includes (trimStart s) (lit "*") = includes s (lit "*").
Proof.
  induction s as [|c s IH]; [reflexivity|]. cbn [trimStart].
  destruct (is_white_space c) eqn:W; [|reflexivity].
  now rewrite IH, includes_star_cons, (white_space_is_no_star _ W).
Qed.

Lemma includes_rev s : includes (rev s) (lit "*") = includes s (lit "*").
Proof.
  change (lit "*") with [42%N]. rewrite !includes_single.
  induction s as [|c s IH]; [reflexivity|].
  cbn [rev existsb]. rewrite existsb_app, IH. cbn [existsb].
  rewrite orb_false_r. apply orb_comm.
Qed.

(** Trimming a line neither adds nor removes a marker. *)
Lemma includes_trim s : includes (trim s) (lit "*") = includes s (lit "*").
Proof.
  unfold trim, trimEnd.
  now rewrite includes_rev, includes_trimStart, includes_rev, includes_trimStart.
Qed.

Lemma upgradable_line_marked l : upgradable_line l = includes l (lit "*").
Proof.
  unfold upgradable_line. rewrite includes_trim.
  destruct (includes l (lit "*")) eqn:I; [|apply andb_false_r].
  rewrite andb_true_r. rewrite <- includes_trim in I.
  now rewrite (marked_not_empty _ I).
Qed.

Lemma split_not_nil sep s : split sep s <> [].
Proof.
  destruct s as [|c s]; cbn [split]; [discriminate|].
  destruct (char_eqb c sep); [discriminate|]. destruct (split sep s); discriminate.
Qed.

(** The first line of a text, and its other lines. *)
Lemma split_cons sep c s :
  split sep (c :: s) =
  if char_eqb c sep then [] :: split sep s
  else (c :: hd [] (split sep s)) :: tl (split sep s).
Proof.
  cbn [split]. destruct (char_eqb c sep); [reflexivity|].
  pose proof (split_not_nil sep s) as N. destruct (split sep s); [contradiction | reflexivity].
Qed.

Lemma split_hd_tl sep s : split sep s = hd [] (split sep s) :: tl (split sep s).
Proof.
  pose proof (split_not_nil sep s) as N. destruct (split sep s); [contradiction | reflexivity].
Qed.

Lemma white_space_has_no_marked_line ws :
  Forall (fun c => is_white_space c = true) ws ->
  includes (hd [] (split 10%N ws)) (lit "*") = false /\
  length (filter (fun l => includes l (lit "*")) (tl (split 10%N ws))) = 0.
Proof.
  induction 1 as [|w ws W Hws [I1 I2]]; [split; reflexivity|].
  rewrite split_cons. destruct (char_eqb w 10%N); cbn [hd tl].
  - split; [reflexivity|]. rewrite split_hd_tl. cbn [filter]. now rewrite I1.
  - now rewrite includes_star_cons, (white_space_is_no_star _ W), I1.
Qed.

(** What the count of marked lines depends on: whether the first line is
    marked, and how many of the other lines are; white space at the end
    changes neither. *)
Lemma marked_lines_same (ws : jsstring) :
  Forall (fun c => is_white_space c = true) ws ->
  forall t,
    includes (hd [] (split 10%N (t ++ ws))) (lit "*")
    = includes (hd [] (split 10%N t)) (lit "*") /\
    length (filter (fun l => includes l (lit "*")) (tl (split 10%N (t ++ ws))))
    = length (filter (fun l => includes l (lit "*")) (tl (split 10%N t))).
Proof.
  intros Hws. induction t as [|c t [IH1 IH2]].
  - cbn [app]. destruct (white_space_has_no_marked_line ws Hws) as [-> ->].
    split; reflexivity.
  - cbn [app]. rewrite !split_cons. destruct (char_eqb c 10%N); cbn [hd tl].
    + split; [reflexivity|].
      rewrite (split_hd_tl 10%N (t ++ ws)), (split_hd_tl 10%N t). cbn [filter].
      rewrite IH1. destruct (includes (hd [] (split 10%N t)) (lit "*"));
        cbn [length]; now rewrite IH2.
    + rewrite !includes_star_cons, IH1. split; [reflexivity | exact IH2].
Qed.

Lemma marked_lines_app_white_space t ws :
  Forall (fun c => is_white_space c = true) ws ->
  length (filter (fun l => includes l (lit "*")) (split 10%N (t ++ ws)))
  = length (filter (fun l => includes l (lit "*")) (split 10%N t)).
Proof.
  intros Hws. destruct (marked_lines_same ws Hws t) as [E1 E2].
  rewrite (split_hd_tl 10%N (t ++ ws)), (split_hd_tl 10%N t). cbn [filter].
  rewrite E1. destruct (includes (hd [] (split 10%N t)) (lit "*"));
    cbn [length]; now rewrite E2.
Qed.

Lemma marked_lines_white_space_cons c s :
  is_white_space c = true ->
  length (filter (fun l => includes l (lit "*")) (split 10%N (c :: s)))
  = length (filter (fun l => includes l (lit "*")) (split 10%N s)).
Proof.
  intros W. rewrite split_cons. destruct (char_eqb c 10%N).
  - cbn [filter]. change (includes [] (lit "*")) with false. reflexivity.
  - transitivity (length (filter (fun l => includes l (lit "*"))
                            (hd [] (split 10%N s) :: tl (split 10%N s)))).
    + cbn [filter]. rewrite includes_star_cons, (white_space_is_no_star _ W).
      cbn [orb]. destruct (includes (hd [] (split 10%N s)) (lit "*")); reflexivity.
    + now rewrite <- split_hd_tl.
Qed.

Lemma marked_lines_trimStart s :
  length (filter (fun l => includes l (lit "*")) (split 10%N (trimStart s)))
  = length (filter (fun l => includes l (lit "*")) (split 10%N s)).
Proof.
  induction s as [|c s IH]; [reflexivity|]. cbn [trimStart].
  destruct (is_white_space c) eqn:W; [|reflexivity].
  now rewrite IH, marked_lines_white_space_cons.
Qed.

Lemma trimStart_drops_white_space s :
  exists ws, s = ws ++ trimStart s /\ Forall (fun c => is_white_space c = true) ws.
Proof.
  induction s as [|c s (ws & E & Hws)]; cbn [trimStart].
  - exists []. split; [reflexivity | constructor].
  - destruct (is_white_space c) eqn:W.
    + exists (c :: ws). split; [simpl; now f_equal | now constructor].
    + exists []. split; [reflexivity | constructor].
Qed.

Lemma trimEnd_drops_white_space s :
  exists ws, s = trimEnd s ++ ws /\ Forall (fun c => is_white_space c = true) ws.
Proof.
  destruct (trimStart_drops_white_space (rev s)) as (ws & E & Hws).
  exists (rev ws). split.
  - unfold trimEnd. rewrite <- rev_app_distr, <- E. symmetry. apply rev_involutive.
  - now apply Forall_rev.
Qed.

Lemma marked_lines_trim s :
  length (filter (fun l => includes l (lit "*")) (split 10%N (trim s)))
  = length (filter (fun l => includes l (lit "*")) (split 10%N s)).
Proof.
  unfold trim. destruct (trimEnd_drops_white_space (trimStart s)) as (ws & E & Hws).
  rewrite <- (marked_lines_trimStart s). rewrite E at 2.
  symmetry. now apply marked_lines_app_white_space.
Qed.

Lemma parseOutdatedPackagesOutput_counts_raw_lines_aux output :
  parseOutdatedPackagesOutput output
  = Num (Z.of_nat (length (filter (fun l => includes l (lit "*")) (split 10%N output)))).
Proof.
  unfold parseOutdatedPackagesOutput. rewrite count_upgradable_spec. cbn [Z.add].
  rewrite (filter_ext upgradable_line (fun l => includes l (lit "*")) upgradable_line_marked).
  now rewrite marked_lines_trim.
Qed.

(** [parseOutdatedPackagesOutput] counts the lines of the output, as
    [split] on the line feed gives them, that contain the marker [*]:
    neither the two trims nor the test for an empty line change the
    count. *)
Theorem parseOutdatedPackagesOutput_counts_raw_lines (output : jsstring) :
  parseOutdatedPackagesOutput output
  = Num (Z.of_nat (length (filter (fun l => includes l (lit "*")) (split 10%N output)))).
Proof. apply parseOutdatedPackagesOutput_counts_raw_lines_aux. Qed.

(** Some line contains the marker exactly when the text does. *)
Lemma marked_line_exists s :
  existsb (fun l => includes l (lit "*")) (split 10%N s) = includes s (lit "*").
Proof.
  induction s as [|c s IH]; [reflexivity|].
  rewrite split_cons, includes_star_cons, <- IH.
  destruct (char_eqb c 10%N) eqn:E.
  - apply N.eqb_eq in E. subst c. reflexivity.
  - cbn [existsb]. rewrite includes_star_cons, <- orb_assoc. f_equal.
    rewrite (split_hd_tl 10%N s) at 3. reflexivity.
Qed.

Lemma filter_length_pos {A : Type} (p : A -> bool) (l : list A) :
  Nat.ltb 0 (length (filter p l)) = existsb p l.
Proof.
  induction l as [|x l IH]; [reflexivity|]. cbn [filter existsb].
  destruct (p x); [reflexivity | exact IH].
Qed.

(** [analysePubspecDependencies] reports packages to update exactly when the
    text of the outdated command contains the character [*] anywhere, and
    otherwise that all dependencies are on their latest versions; this holds
    for an error text as for an output. *)
Theorem analysePubspecDependencies_reports_marker (h : Host) (directory text : jsstring) :
  text_of (execSync h (lit "dart pub outdated") directory) = Text text ->
  (includes text (lit "*") = false ->
   analysePubspecDependencies h directory = ([Stdout msg_up_to_date], Normal tt)) /\
  (includes text (lit "*") = true ->
   exists n, 0 < n /\
     analysePubspecDependencies h directory
     = ([Stdout (lit "   Found " ++ nat_to_string n ++ lit " packages which can be updated.");
         Stdout (lit "   Run 'dart pub outdated' command in your project to know more about these.")],
        Normal tt)).
Proof.
  intros T. unfold analysePubspecDependencies.
  rewrite executeCommandSync_text, T, bind_ret. cbn [not_null receiver].
  rewrite bind_ret. cbv zeta.
  rewrite parseOutdatedPackagesOutput_counts_raw_lines_aux.
  set (n := length (filter (fun l => includes l (lit "*")) (split 10%N text))).
  assert (P : Nat.ltb 0 n = includes text (lit "*")).
  { unfold n. now rewrite filter_length_pos, marked_line_exists. }
  cbn [num_gt]. split; intros I; rewrite I in P.
  - apply Nat.ltb_ge in P. replace (0 <? Z.of_nat n)%Z with false
      by (symmetry; apply Z.ltb_ge; lia). reflexivity.
  - apply Nat.ltb_lt in P. exists n. split; [exact P|].
    replace (0 <? Z.of_nat n)%Z with true by (symmetry; apply Z.ltb_lt; lia).
    reflexivity.
Qed.

Lemma analysePubspecDependencies_reports_marker_witness :
  analysePubspecDependencies failing_host (lit "proj") = ([Stdout msg_up_to_date], Normal tt).
Proof.
  apply (proj1 (analysePubspecDependencies_reports_marker failing_host (lit "proj")
                  (lit "/bin/sh: 1: flutter: not found") eq_refl)).
  reflexivity.
Defined.

(** ** The counts *)

(** Whatever the text, neither [getNumberOfAnalysisIssue] nor
    [countNotSupportedPackages] returns NaN or a number below 0: each
    returns an integer that is not negative, or [Infinity] when the digits
    in the text go beyond the doubles. *)
Theorem counts_are_not_negative (text : jsstring) :
  not_negative (getNumberOfAnalysisIssue text) /\
  not_negative (countNotSupportedPackages text).
Proof.
  split.
  - destruct (issue_occurrences_total text) as [ns H].
    rewrite (issue_total_of_reading _ _ H).
    apply (Number_sum_from_not_negative ns (Num 0)); [cbn; lia|].
    exact (occurrences_nonneg _ _ _ H).
  - destruct (not_supported_occurrences_total text) as [ns H].
    rewrite (not_supported_of_reading _ _ H). apply double_of_Z_not_negative.
    apply occurrences_nonneg in H. destruct H; simpl; lia.
Qed.

(** *** The issue count, line by line *)

Lemma digits_are_line ds : Forall (fun c => is_digit c = true) ds -> is_line ds.
Proof.
  apply Forall_impl. intros c Hc. apply is_digit_range in Hc.
  unfold is_line_terminator. decide_tests. reflexivity.
Qed.

Lemma line_before_terminator o : forall rest b nl X,
  is_line o -> is_line_terminator nl = true ->
  o ++ rest = b ++ nl :: X -> exists b', b = o ++ b'.
Proof.
  induction o as [|c o IH]; intros rest b nl X Ho Hn E.
  - now exists b.
  - apply Forall_cons_iff in Ho. destruct Ho as [Hc Ho].
    destruct b as [|c' b]; simpl in E; injection E as -> E.
    + congruence.
    + destruct (IH rest b nl X Ho Hn E) as [b' ->]. now exists b'.
Qed.

Section LineByLine.

Variable phrase : jsstring -> Prop.
Hypothesis phrase_is_line : forall w, phrase w -> is_line w.
Variable nl : N.
Hypothesis nl_terminator : is_line_terminator nl = true.

(** An occurrence does not reach over a line terminator. *)
Lemma occurrence_cut b X :
  occurrence_at phrase (b ++ nl :: X) -> occurrence_at phrase b.
Proof.
  intros (ds & w & rest & E & Hds & Hw).
  assert (L : is_line (ds ++ w)).
  { apply is_line_app. split; [apply digits_are_line, Hds | now apply phrase_is_line]. }
  symmetry in E. rewrite app_assoc in E.
  destruct (line_before_terminator _ _ _ _ _ L nl_terminator E) as [b' ->].
  exists ds, w, b'. split; [now rewrite app_assoc | now split].
Qed.

Lemma no_occurrence_at_terminator X : ~ occurrence_at phrase (nl :: X).
Proof.
  intros (ds & w & rest & E & [Hne Hds] & _).
  destruct ds as [|d ds]; [contradiction|]. injection E as <- _.
  apply Forall_cons_iff in Hds. destruct Hds as [Hd _].
  apply is_digit_range in Hd. revert nl_terminator.
  unfold is_line_terminator. decide_tests. discriminate.
Qed.

Lemma free_of_extend g t X :
  free_of phrase g t -> free_of phrase g (t ++ nl :: X).
Proof.
  intros H a b E Hb Hocc. apply (H a b E Hb).
  rewrite app_assoc in Hocc. now apply occurrence_cut in Hocc.
Qed.

Lemma free_of_join s1 g t :
  free_of phrase s1 [] -> free_of phrase g t -> free_of phrase (s1 ++ nl :: g) t.
Proof.
  intros H1 H2 a b E Hb Hocc.
  apply app_eq_app in E. destruct E as [l [[E1 E2] | [E1 E2]]].
  - subst b. rewrite <- app_assoc in Hocc. simpl in Hocc.
    destruct l as [|c l].
    + simpl in Hocc. now apply no_occurrence_at_terminator in Hocc.
    + apply occurrence_cut in Hocc. apply (H1 a (c :: l) E1); [discriminate|].
      now rewrite app_nil_r.
  - destruct l as [|c l]; simpl in E2.
    + subst b. simpl in Hocc. now apply no_occurrence_at_terminator in Hocc.
    + injection E2 as <- E2. apply (H2 l b E2 Hb Hocc).
Qed.

(** The reading of two texts joined by a line terminator is the reading of
    the first followed by the reading of the second. *)
Lemma occurrences_join s1 ns1 s2 ns2 :
  occurrences phrase s1 ns1 -> occurrences phrase s2 ns2 ->
  occurrences phrase (s1 ++ nl :: s2) (ns1 ++ ns2).
Proof.
  intros H1 H2. induction H1 as [s1 Hfree | g ds w rest ns Hfree Hds Hw Hrest IH].
  - cbn [app]. destruct H2 as [s2 Hfree2 | g ds w rest ns Hfree2 Hds Hw Hrest].
    + apply occurrences_none. now apply free_of_join.
    + replace (s1 ++ nl :: g ++ ds ++ w ++ rest)
        with ((s1 ++ nl :: g) ++ ds ++ w ++ rest)
        by (rewrite <- app_assoc; reflexivity).
      apply occurrences_next; try assumption. now apply free_of_join.
  - replace ((g ++ ds ++ w ++ rest) ++ nl :: s2)
      with (g ++ ds ++ w ++ (rest ++ nl :: s2))
      by (now rewrite <- !app_assoc).
    cbn [app]. apply occurrences_next; try assumption.
    replace (ds ++ w ++ rest ++ nl :: s2) with ((ds ++ w ++ rest) ++ nl :: s2)
      by (now rewrite <- !app_assoc).
    now apply free_of_extend.
Qed.

End LineByLine.

Lemma issue_phrase_is_line w : issue_phrase w -> is_line w.
Proof.
  intros [H|H]; apply (same_text_is_line _ _ H); repeat constructor.
Qed.

Lemma sum_app ns1 ns2 : sum (ns1 ++ ns2) = (sum ns1 + sum ns2)%Z.
Proof. induction ns1 as [|n ns1 IH]; simpl; [reflexivity | rewrite IH; lia]. Qed.

Lemma sum_nonneg ns : Forall (fun n => (0 <= n)%Z) ns -> (0 <= sum ns)%Z.
Proof. induction 1; simpl; lia. Qed.

(** The issue count of a text is the sum of the counts of its parts before
    and after a line terminator, as long as the numbers in the text add up
    to 2^53 at most: no match of the pattern reaches over the end of a line.
    (Beyond 2^53 the rounded additions depend on where they start.) *)
Theorem getNumberOfAnalysisIssue_adds_over_lines
    (s1 s2 : jsstring) (nl : N) (ns1 ns2 : list Z) :
  is_line_terminator nl = true ->
  occurrences issue_phrase s1 ns1 ->
  occurrences issue_phrase s2 ns2 ->
  (sum ns1 + sum ns2 <= two53)%Z ->
  getNumberOfAnalysisIssue (s1 ++ nl :: s2) = Num (sum ns1 + sum ns2) /\
  getNumberOfAnalysisIssue (s1 ++ nl :: s2)
  = num_add (getNumberOfAnalysisIssue s1) (getNumberOfAnalysisIssue s2).
Proof.
  intros Hn H1 H2 B.
  pose proof (sum_nonneg _ (occurrences_nonneg _ _ _ H1)) as P1.
  pose proof (sum_nonneg _ (occurrences_nonneg _ _ _ H2)) as P2.
  assert (E : forall s ns, occurrences issue_phrase s ns -> (sum ns <= two53)%Z ->
              getNumberOfAnalysisIssue s = Num (sum ns)).
  { intros s ns H Bs. rewrite (issue_total_of_reading _ _ H).
    apply (Number_sum_from_exact ns 0); [lia | exact (occurrences_nonneg _ _ _ H) | exact Bs]. }
  assert (W : getNumberOfAnalysisIssue (s1 ++ nl :: s2) = Num (sum ns1 + sum ns2)).
  { rewrite <- sum_app. apply E.
    - now apply occurrences_join; [apply issue_phrase_is_line | | |].
    - now rewrite sum_app. }
  split; [exact W|].
  rewrite W, (E _ _ H1), (E _ _ H2) by lia. cbn [num_add].
  symmetry. apply double_of_Z_exact. lia.
Qed.

Lemma getNumberOfAnalysisIssue_adds_over_lines_witness :
  getNumberOfAnalysisIssue (lit "lib: 2 issues found." ++ 10%N :: lit "test: 1 issue found.")
  = Num (sum [2%Z] + sum [1%Z]) /\
  getNumberOfAnalysisIssue (lit "lib: 2 issues found." ++ 10%N :: lit "test: 1 issue found.")
  = num_add (getNumberOfAnalysisIssue (lit "lib: 2 issues found."))
      (getNumberOfAnalysisIssue (lit "test: 1 issue found.")).
Proof.
  apply getNumberOfAnalysisIssue_adds_over_lines.
  - reflexivity.
  - apply (occurrences_next issue_phrase (lit "lib: ") (lit "2") (lit " issues found")
             (lit ".") []).
    + apply issue_free_by_matching. vm_compute. reflexivity.
    + apply number_text_by_test; [discriminate | reflexivity].
    + right. repeat constructor.
    + apply occurrences_none. apply issue_free_by_matching. vm_compute. reflexivity.
  - apply (occurrences_next issue_phrase (lit "test: ") (lit "1") (lit " issue found")
             (lit ".") []).
    + apply issue_free_by_matching. vm_compute. reflexivity.
    + apply number_text_by_test; [discriminate | reflexivity].
    + left. repeat constructor.
    + apply occurrences_none. apply issue_free_by_matching. vm_compute. reflexivity.
  - vm_compute. discriminate.
Defined.

(** ** The reports of the checks *)

Lemma match_all_from_pieces ic r (P : jsstring -> Prop) :
  (forall s res, exec ic r s = Some res -> P (matched res)) ->
  forall fuel s,
    Forall (fun f => P f /\ piece_of s f) (match_all_from ic fuel r s).
Proof.
  intros HP. induction fuel as [|fuel IH]; intros s; cbn [match_all_from]; [constructor|].
  destruct (exec ic r s) as [res|] eqn:E; [|constructor].
  destruct (exec_splits _ _ _ _ E) as [sk Hs].
  constructor.
  - split; [now apply (HP s) | now exists sk, (after res)].
  - assert (Later : forall pre s', s = pre ++ s' ->
              Forall (fun f => P f /\ piece_of s f) (match_all_from ic fuel r s')).
    { intros pre s' Hpre. eapply Forall_impl; [|apply (IH s')].
      intros f [Hf (a & b & Hab)]. split; [exact Hf|].
      exists (pre ++ a), b. rewrite Hpre, Hab. now rewrite <- app_assoc. }
    destruct (matched res) as [|c mt] eqn:M; destruct (after res) as [|c' s'] eqn:A.
    + constructor.
    + apply (Later (sk ++ [c'])). rewrite Hs. cbn [app]. now rewrite <- app_assoc.
    + apply (Later (sk ++ c :: mt)). rewrite Hs. now rewrite <- app_assoc.
    + apply (Later (sk ++ c :: mt)). rewrite Hs. now rewrite <- app_assoc.
Qed.

Lemma changed_exec_entry s res :
  exec true changed_pattern s = Some res -> changed_entry (matched res).
Proof.
  intros E. apply exec_some_inv in E.
  destruct E as (g & t & y & _ & M & -> & _). cbn [matched].
  destruct (changed_match_inv _ _ M) as (C & u & d & Et & HC & Hu & Hd & _).
  exists C, u, d. repeat split; try assumption.
  rewrite Et at 2. rewrite Et at 1. rewrite length_app.
  replace (length (C ++ u ++ d) + length (fst y) - length (fst y))
    with (length (C ++ u ++ d) + 0) by lia.
  rewrite firstn_app_2. cbn [firstn]. now rewrite app_nil_r.
Qed.

(** What the format check counts: when the pattern finds anything, the list
    is not empty and each of its entries is a piece of the output made of
    [Changed], a text within one line, and [.dart], the letters in any
    case. *)
Theorem formattedFiles_entries (dartFormatOutput : jsstring) (files : list jsstring) :
  formattedFiles dartFormatOutput = Some files ->
  files <> [] /\
  Forall (fun f => changed_entry f /\ piece_of dartFormatOutput f) files.
Proof.
  unfold formattedFiles, str_match_g, changed_dart_re. cbn [pattern flag_i].
  fold changed_pattern.
  pose proof (match_all_from_pieces true changed_pattern changed_entry changed_exec_entry
                (S (length dartFormatOutput)) dartFormatOutput) as F.
  fold (match_all true changed_pattern dartFormatOutput) in F.
  destruct (match_all true changed_pattern dartFormatOutput) as [|f fs];
    [discriminate|].
  intros H. injection H as <-. split; [discriminate | exact F].
Qed.

Lemma formattedFiles_entries_witness :
  [lit "Changed lib/a.dart"; lit "CHANGED b.Dart and c.dart"] <> [] /\
  Forall (fun f => changed_entry f /\
                   piece_of (lit "Changed lib/a.dart" ++ 10%N :: lit "CHANGED b.Dart and c.dart!") f)
    [lit "Changed lib/a.dart"; lit "CHANGED b.Dart and c.dart"].
Proof.
  apply (formattedFiles_entries
           (lit "Changed lib/a.dart" ++ 10%N :: lit "CHANGED b.Dart and c.dart!")).
  vm_compute. reflexivity.
Defined.

(** The lint part of the report.  When [flutter analyze] gives a text that
    is not empty, be it its output or, after a failure, its error text, and
    the text holds the occurrences with the numbers [ns]: when these are not
    all 0, the first lines of the check are the two lines on issues, with
    the sum of [ns] as JavaScript adds and prints Numbers; otherwise the
    text itself is printed, followed by the line that no issue was found. *)
Theorem runFlutterFormatAnalysis_reports_issues
    (h : Host) (directory text : jsstring) (ns : list Z) :
  text_of (execSync h (lit "flutter analyze") directory) = Text text ->
  text <> [] ->
  occurrences issue_phrase text ns ->
  exists rest,
    fst (runFlutterFormatAnalysis h directory)
    = (if (0 <? sum ns)%Z then
         [Stdout (lit "   Found " ++ number_to_string (Number_sum ns)
                    ++ lit " analysis issues.");
          Stdout (lit "   Run 'flutter analyze' command in your project to check for issues.")]
       else [Stdout text; Stdout (lit "   No analysis issues found.")]) ++ rest.
Proof.
  intros T Hne Hocc. unfold runFlutterFormatAnalysis.
  rewrite executeCommandSync_text, T, bind_ret.
  destruct text as [|c text]; [contradiction|]. cbn [not_null is_empty_text receiver].
  rewrite bind_ret. cbv zeta. rewrite (issue_total_of_reading _ _ Hocc).
  destruct (Number_sum_from_not_negative ns (Num 0)) as [_ P];
    [cbn; lia | exact (occurrences_nonneg _ _ _ Hocc) |].
  fold (Number_sum ns) in P. rewrite P. cbn [num_gt Z.ltb Z.compare orb].
  destruct (format_outcome h directory) as [o2 ->].
  destruct (0 <? sum ns)%Z; cbn [bind console_log ret app fst];
    eexists; reflexivity.
Qed.

Lemma runFlutterFormatAnalysis_reports_issues_witness :
  exists rest,
    fst (runFlutterFormatAnalysis failing_host (lit "proj"))
    = [Stdout (lit "/bin/sh: 1: flutter: not found");
       Stdout (lit "   No analysis issues found.")] ++ rest.
Proof.
  apply (runFlutterFormatAnalysis_reports_issues failing_host (lit "proj")
           (lit "/bin/sh: 1: flutter: not found") []).
  - reflexivity.
  - discriminate.
  - apply occurrences_none. apply issue_free_by_matching. vm_compute. reflexivity.
Defined.

Lemma for_of_lines {A B : Type} (R : A -> B -> Prop) (line : A -> B -> jsstring)
    (body : A -> Run unit) :
  (forall a b, R a b -> body a = ([Stdout (line a b)], Normal tt)) ->
  forall l bs, Forall2 R l bs ->
    for_of l body
    = (map (fun p => Stdout (line (fst p) (snd p))) (combine l bs), Normal tt).
Proof.
  intros H l bs F. induction F as [|a b l bs Hab _ IH]; cbn [for_of combine map].
  - reflexivity.
  - rewrite (H a b Hab), bind_normal, IH. reflexivity.
Qed.

(** The platform part of the report.  When adding the package gives a text:
    a text with neither of the two expected phrases is printed as it is and
    no platform is checked; otherwise, when the check of each platform
    gives a text, the report has one line for each of android, ios and
    web, in this order, from the first number of the occurrences in that
    text: the count of unsupported packages, as JavaScript reads and prints
    it, when it is positive, and that all packages are supported
    otherwise. *)
Theorem analyseSupportedPlatforms_reports (h : Host) (directory text : jsstring) :
  text_of (execSync h (lit "dart pub add will_it_run") directory) = Text text ->
  (includes text phrase_added || includes text phrase_already = false ->
   analyseSupportedPlatforms h directory = ([Stdout text], Normal tt)) /\
  (includes text phrase_added || includes text phrase_already = true ->
   forall readings,
     Forall2 (fun os ns =>
                exists t,
                  text_of (execSync h (lit "dart run will_it_run:" ++ os) directory) = Text t /\
                  occurrences not_supported_phrase t ns)
       osList readings ->
     analyseSupportedPlatforms h directory
     = (map (fun p => Stdout (platform_line (fst p) (snd p))) (combine osList readings),
        Normal tt)).
Proof.
  intros T. unfold analyseSupportedPlatforms.
  rewrite executeCommandSync_text, T, bind_ret. cbn [receiver]. rewrite bind_ret.
  split; intros I; rewrite I; [reflexivity|]. cbv zeta.
  intros readings F. revert F. apply for_of_lines.
  intros os ns (t & Tos & Hocc).
  rewrite executeCommandSync_text, Tos, bind_ret. cbn [receiver]. rewrite bind_ret.
  rewrite (not_supported_of_reading _ _ Hocc). unfold platform_line.
  rewrite double_of_Z_positive.
  now destruct (0 <? hd 0%Z ns)%Z.
Qed.

Lemma analyseSupportedPlatforms_reports_witness :
  analyseSupportedPlatforms platform_host (lit "proj")
  = ([Stdout (lit "   All packages are supported for android");
      Stdout (lit "   All packages are supported for ios");
      Stdout (lit "   Found 2 packages not supported for web")], Normal tt).
Proof.
  apply (proj2 (analyseSupportedPlatforms_reports platform_host (lit "proj")
                  (lit "Add will_it_run: Resolving dependencies...") eq_refl)
           eq_refl [[]; []; [2%Z]]).
  repeat constructor.
  - exists (lit "ok"). split; [reflexivity|].
    apply occurrences_none. apply not_supported_free_by_matching. vm_compute. reflexivity.
  - exists (lit "ok"). split; [reflexivity|].
    apply occurrences_none. apply not_supported_free_by_matching. vm_compute. reflexivity.
  - exists (lit "2 packages doesn't support web"). split; [reflexivity|].
    apply (occurrences_next not_supported_phrase [] (lit "2")
             (lit " packages doesn't support") (lit " web") []).
    + apply not_supported_free_by_matching. vm_compute. reflexivity.
    + apply number_text_by_test; [discriminate | reflexivity].
    + reflexivity.
    + apply occurrences_none. apply not_supported_free_by_matching. vm_compute. reflexivity.
Defined.
